(** * flare-shell: command execution and job-control engine of [main.py]

    A shallow embedding of [MyShell] (src/main.py): the tokenizer the shell
    calls ([shlex.split]), alias substitution, the built-in dispatch chain,
    the pipeline and redirection code, background registration, the job
    table operations [jobs], [fg], [bg], the suspend-signal handler and the
    prompt loop [myshell]; then the alias file ([load_aliases],
    [save_aliases]), [completer], [format_permissions], [format_size], the
    shell variables, and the argument handling of [type], [cp], [head] and
    [tail].

    Strings are byte strings (ASCII); Python's [dict] is an insertion-ordered
    association list; every effect of the program on its environment
    (printing, opening and closing files, starting, polling, signalling and
    waiting for processes) is recorded as an event of a trace; what the
    environment answers (does the program exist, has the child exited, was
    Ctrl+C pressed during a wait) is read from a [world] record. *)

From Stdlib Require Import String Ascii List Bool Arith Lia.
From Stdlib Require Import DecimalString Decimal DecimalNat NArith ZArith Sorted.
Import ListNotations.
Open Scope string_scope.
Open Scope list_scope.

(** ** Python string operations used by the shell

    The operations are those of Python's [str] on ASCII text (character
    codes below 128): [str.strip] and [str.isdigit] also know white space
    and digits outside ASCII, which the strings here do not hold. *)

Module PyStr.

(** [str.isspace] on one ASCII character: TAB, LF, VT, FF, CR, the four
    separators 0x1c-0x1f and the blank. *)
Definition isspace (c : ascii) : bool :=
  let n := nat_of_ascii c in
  (Nat.leb 9 n && Nat.leb n 13) || (Nat.leb 28 n && Nat.leb n 31) || Nat.eqb n 32.

Fixpoint lstrip (s : string) : string :=
  match s with
  | String c r => if isspace c then lstrip r else s
  | EmptyString => EmptyString
  end.

(** [rstrip], right to left: a character is kept when something after it
    is kept or when it is not white space. *)
Fixpoint rstrip (s : string) : string :=
  match s with
  | EmptyString => EmptyString
  | String c r =>
      match rstrip r with
      | EmptyString => if isspace c then EmptyString else String c EmptyString
      | r' => String c r'
      end
  end.

(** [s.strip()] *)
Definition strip (s : string) : string := rstrip (lstrip s).

(** [sep.join(l)] *)
Fixpoint join (sep : string) (l : list string) : string :=
  match l with
  | [] => EmptyString
  | [x] => x
  | x :: r => x ++ sep ++ join sep r
  end.

(** [c in s] for a one-character needle. *)
Fixpoint contains (c : ascii) (s : string) : bool :=
  match s with
  | EmptyString => false
  | String d r => if Ascii.eqb c d then true else contains c r
  end.

(** [s.split(c)] for a one-character separator: always one piece more than
    there are separators. *)
Fixpoint split_aux (c : ascii) (s : string) (cur : string) : list string :=
  match s with
  | EmptyString => [cur]
  | String d r =>
      if Ascii.eqb c d then cur :: split_aux c r EmptyString
      else split_aux c r (cur ++ String d EmptyString)
  end.

Definition split (c : ascii) (s : string) : list string := split_aux c s EmptyString.

(** [s.endswith(c)] for a one-character suffix. *)
Fixpoint endswith (c : ascii) (s : string) : bool :=
  match s with
  | EmptyString => false
  | String d EmptyString => Ascii.eqb c d
  | String _ r => endswith c r
  end.

Definition is_digit_char (c : ascii) : bool :=
  let n := nat_of_ascii c in Nat.leb 48 n && Nat.leb n 57.

Fixpoint all_digits (s : string) : bool :=
  match s with
  | EmptyString => true
  | String c r => is_digit_char c && all_digits r
  end.

(** [s.isdigit()] for ASCII text: non-empty and every character a
    digit. *)
Definition isdigit (s : string) : bool :=
  match s with
  | EmptyString => false
  | _ => all_digits s
  end.

Fixpoint int_aux (s : string) (acc : nat) : nat :=
  match s with
  | EmptyString => acc
  | String c r => int_aux r (10 * acc + (nat_of_ascii c - 48))
  end.

(** [int(s)] on a string for which [isdigit] holds, of at most 4300
    digits: [int] raises [ValueError] on a longer one. *)
Definition int (s : string) : nat := int_aux s 0.

(** [str(n)] for a non-negative integer. *)
Definition str (n : nat) : string := NilEmpty.string_of_uint (Nat.to_uint n).

(** Occurrences of a character, as many as [split] has cuts. *)
Fixpoint count (c : ascii) (s : string) : nat :=
  match s with
  | EmptyString => 0
  | String d r => (if Ascii.eqb c d then 1 else 0) + count c r
  end.

End PyStr.

(** ** Exceptions and results *)

Inductive exn : Type :=
| ValueError (msg : string)
| IndexError (msg : string)
| UnboundLocalError (msg : string)
| AttributeError (msg : string)
| FileNotFoundError (msg : string)
| OSError (msg : string)
| KeyboardInterrupt
| SystemExit (code : nat).

(** [str(e)] as the shell prints it in a message. *)
Definition exn_message (e : exn) : string :=
  match e with
  | ValueError m | IndexError m | UnboundLocalError m | AttributeError m
  | FileNotFoundError m | OSError m => m
  | KeyboardInterrupt => EmptyString
  | SystemExit c => PyStr.str c
  end.

(** [except Exception] catches everything but [KeyboardInterrupt] and
    [SystemExit], which derive from [BaseException] only. *)
Definition is_Exception (e : exn) : bool :=
  match e with
  | KeyboardInterrupt | SystemExit _ => false
  | _ => true
  end.

Definition is_FileNotFoundError (e : exn) : bool :=
  match e with FileNotFoundError _ => true | _ => false end.

Inductive result (A : Type) : Type :=
| Ok (a : A)
| Raise (e : exn).
Arguments Ok {A} a.
Arguments Raise {A} e.

(** ** The tokenizer: [shlex.split]

    [shlex.split(s)] runs the POSIX-mode state machine of [shlex.read_token]
    with [whitespace_split] set and no comment characters. The machine's
    state is [' '] (between words), ['a'] (in a word), a quote character
    (inside quotes) or the escape character (after a backslash), with
    [escapedstate] remembering where the backslash was met. *)

Module Shlex.

Inductive state : Type :=
| Space                         (* ' ' *)
| Word                          (* 'a' *)
| Quote (q : ascii)             (* in self.quotes *)
| Escape (escapedstate : option ascii).
  (* in self.escape; [None] is escapedstate 'a', [Some q] a quote *)

(** The double quote character. *)
Definition dquote : ascii := "034".

Definition is_whitespace (c : ascii) : bool :=
  Ascii.eqb c " " || Ascii.eqb c "009" || Ascii.eqb c "013" || Ascii.eqb c "010".

Definition is_quote (c : ascii) : bool :=
  Ascii.eqb c "'" || Ascii.eqb c dquote.

Definition is_escape (c : ascii) : bool := Ascii.eqb c "\".

(** self.escapedquotes *)
Definition is_escapedquote (c : ascii) : bool := Ascii.eqb c dquote.

Definition nonempty (s : string) : bool :=
  match s with EmptyString => false | _ => true end.

Definition push (token : string) (c : ascii) : string := token ++ String c EmptyString.

(** The token [read_token] hands back at the end of the input: [None]
    (end of the iteration) when it is empty and nothing was quoted. *)
Definition last_token (token : string) (quoted : bool) (acc : list string)
  : list string :=
  if negb quoted && negb (nonempty token) then acc else acc ++ [token].

Fixpoint scan (s : string) (st : state) (token : string) (quoted : bool)
  (acc : list string) : result (list string) :=
  match s with
  | EmptyString =>
      match st with
      | Space | Word => Ok (last_token token quoted acc)
      | Quote _ => Raise (ValueError "No closing quotation")
      | Escape _ => Raise (ValueError "No escaped character")
      end
  | String c r =>
      match st with
      | Space =>
          if is_whitespace c then
            if nonempty token || quoted then scan r Space EmptyString false (acc ++ [token])
            else scan r Space token quoted acc
          else if is_escape c then scan r (Escape None) token quoted acc
          else if is_quote c then scan r (Quote c) token quoted acc
          else scan r Word (String c EmptyString) quoted acc
      | Word =>
          if is_whitespace c then
            if nonempty token || quoted then scan r Space EmptyString false (acc ++ [token])
            else scan r Space token quoted acc
          else if is_quote c then scan r (Quote c) token quoted acc
          else if is_escape c then scan r (Escape None) token quoted acc
          else scan r Word (push token c) quoted acc
      | Quote q =>
          if Ascii.eqb c q then scan r Word token true acc
          else if is_escape c && is_escapedquote q
               then scan r (Escape (Some q)) token true acc
          else scan r (Quote q) (push token c) true acc
      | Escape es =>
          let token' :=
            match es with
            | Some q =>
                if negb (is_escape c) && negb (Ascii.eqb c q)
                then push token "\" else token
            | None => token
            end in
          let back := match es with Some q => Quote q | None => Word end in
          scan r back (push token' c) quoted acc
      end
  end.

(** [shlex.split(s)] *)
Definition split (s : string) : result (list string) :=
  scan s Space EmptyString false [].

End Shlex.

(** A string consisting of one double quote. *)
Definition dq : string := String Shlex.dquote EmptyString.

(** ** Python dictionaries

    A [dict] keeps its keys in insertion order, which the [jobs] listing and
    the [alias] listing show; it is an association list with at most one
    binding per key. *)

Section Dict.
Context {K V : Type}.
Variable eqb : K -> K -> bool.

Definition dict : Type := list (K * V).

(** [d.get(k)] *)
Fixpoint dict_get (k : K) (d : dict) : option V :=
  match d with
  | [] => None
  | (k', v) :: r => if eqb k k' then Some v else dict_get k r
  end.

(** [k in d] *)
Definition dict_mem (k : K) (d : dict) : bool :=
  match dict_get k d with Some _ => true | None => false end.

(** [d[k] = v]: an existing key keeps its place. *)
Fixpoint dict_set (k : K) (v : V) (d : dict) : dict :=
  match d with
  | [] => [(k, v)]
  | (k', v') :: r =>
      if eqb k k' then (k', v) :: r else (k', v') :: dict_set k v r
  end.

(** [del d[k]] and the table left by [d.pop(k)], for a key of [d]: the
    binding of [k] goes, the others keep their order. *)
Definition dict_del (k : K) (d : dict) : dict :=
  filter (fun kv => negb (eqb k (fst kv))) d.

Definition dict_keys (d : dict) : list K := map fst d.
End Dict.

(** ** Processes, streams and the trace of effects *)

(** A [Popen] object, named by the order in which it was created. *)
Definition handle : Type := nat.

Inductive open_mode : Type := ModeW | ModeA.

(** A file object returned by [open]. *)
Record fileobj : Type := { f_path : string; f_mode : open_mode }.

(** What a child's standard stream is bound to. *)
Inductive stream : Type :=
| Inherit                      (* None *)
| PIPE                         (* subprocess.PIPE *)
| SysStdout                    (* sys.stdout *)
| SysStderr                    (* sys.stderr *)
| StdoutOf (h : handle)        (* the [stdout] pipe of process [h] *)
| ToFile (f : fileobj).

Inductive signal : Type := SIGTSTP | SIGCONT | SIGINT.

Inductive event : Type :=
| Print (s : string)
| Open (path : string) (mode : open_mode)
| Close (path : string)
| Spawn (h : handle) (argv : list string) (stdin stdout stderr : stream)
| ClosePipe (h : handle)               (* last_output.close() *)
| Poll (h : handle)
| Wait (h : handle)
| SendSignal (h : handle) (s : signal)
| Kill (h : handle)
| Sleep (seconds : nat)
| Builtin (name : string) (args : list string)
| AddHistory (line : string)
| Prompt                               (* input() shows the prompt *)
| SaveHistory
| SaveAliases
| SaveConfig.

(** What the environment answers during one dispatch. *)
Record world : Type := {
  (** [subprocess.Popen(argv)]: the error it raises, if any. *)
  popen_error : list string -> option exn;
  (** [open(path, mode)]: the error it raises, if any. *)
  open_error : string -> option exn;
  (** [process.poll() is not None] *)
  exited : handle -> bool;
  (** Ctrl+C arrives while the shell waits for the process. *)
  sigint_in_wait : handle -> bool;
  (** Ctrl+Z arrives while the shell waits for the process. *)
  sigtstp_in_wait : handle -> bool;
  (** Ctrl+C arrives during [time.sleep]. *)
  sigint_in_sleep : bool;
  (** The error a file or environment built-in lets escape, if any. *)
  builtin_error : string -> list string -> option exn
}.

(** ** The shell object *)

Inductive job_status : Type := running | suspended.

(** [{"process": ..., "command": ..., "status": ...}]; [command] is [None]
    when Python's [None] was stored. *)
Record job : Type := {
  process : handle;
  command : option string;
  status : job_status
}.

(** The attributes of [MyShell] the engine reads and writes. The two
    [foreground_*] attributes do not exist until [myshell] assigns them:
    the outer [option] is [hasattr]. *)
Record shell : Type := {
  aliases : list (string * string);
  jobs : list (nat * job);
  next_job_id : nat;
  foreground_process : option (option handle);
  foreground_command : option (option string)
}.

(** [MyShell.__init__], for the aliases read from the alias file. *)
Definition init (loaded_aliases : list (string * string)) : shell :=
  {| aliases := loaded_aliases;
     jobs := [];
     next_job_id := 1;
     foreground_process := None;
     foreground_command := None |}.

Definition set_aliases (a : list (string * string)) (s : shell) : shell :=
  {| aliases := a; jobs := jobs s; next_job_id := next_job_id s;
     foreground_process := foreground_process s;
     foreground_command := foreground_command s |}.

Definition set_jobs (j : list (nat * job)) (s : shell) : shell :=
  {| aliases := aliases s; jobs := j; next_job_id := next_job_id s;
     foreground_process := foreground_process s;
     foreground_command := foreground_command s |}.

Definition set_next_job_id (n : nat) (s : shell) : shell :=
  {| aliases := aliases s; jobs := jobs s; next_job_id := n;
     foreground_process := foreground_process s;
     foreground_command := foreground_command s |}.

Definition set_foreground_process (p : option handle) (s : shell) : shell :=
  {| aliases := aliases s; jobs := jobs s; next_job_id := next_job_id s;
     foreground_process := Some p;
     foreground_command := foreground_command s |}.

Definition set_foreground_command (c : option string) (s : shell) : shell :=
  {| aliases := aliases s; jobs := jobs s; next_job_id := next_job_id s;
     foreground_process := foreground_process s;
     foreground_command := Some c |}.

(** The shell object, the number of [Popen] objects created so far and
    the effects so far, oldest first. *)
Record machine : Type := {
  self : shell;
  spawned : nat;
  trace : list event
}.

Definition boot (loaded_aliases : list (string * string)) : machine :=
  {| self := init loaded_aliases; spawned := 0; trace := [] |}.

(** ** A state and exception monad *)

Definition M (A : Type) : Type := machine -> result A * machine.

Definition ret {A} (a : A) : M A := fun m => (Ok a, m).

Definition bind {A B} (c : M A) (k : A -> M B) : M B :=
  fun m => match c m with
           | (Ok a, m') => k a m'
           | (Raise e, m') => (Raise e, m')
           end.

Declare Scope shell_scope.
Delimit Scope shell_scope with shell.
Notation "x <- c ;; k" := (bind c (fun x => k))
  (at level 61, c at next level, right associativity) : shell_scope.
Notation "c ;; k" := (bind c (fun _ => k))
  (at level 61, right associativity) : shell_scope.
Open Scope shell_scope.

Definition raise {A} (e : exn) : M A := fun m => (Raise e, m).

Definition lift {A} (r : result A) : M A := fun m => (r, m).

Definition emit (e : event) : M unit :=
  fun m => (Ok tt, {| self := self m; spawned := spawned m; trace := trace m ++ [e] |}).

Definition print (s : string) : M unit := emit (Print s).

Definition get_self : M shell := fun m => (Ok (self m), m).

Definition update (f : shell -> shell) : M unit :=
  fun m => (Ok tt, {| self := f (self m); spawned := spawned m; trace := trace m |}).

(** [try: c except: handler] *)
Definition try_except {A} (c : M A) (handler : exn -> M A) : M A :=
  fun m => match c m with
           | (Ok a, m') => (Ok a, m')
           | (Raise e, m') => handler e m'
           end.

(** [try: c finally: cleanup] *)
Definition try_finally {A} (c : M A) (cleanup : M unit) : M A :=
  fun m => match c m with
           | (r, m') =>
               match cleanup m' with
               | (Ok _, m'') => (r, m'')
               | (Raise e, m'') => (Raise e, m'')
               end
           end.

(** [l[0]] *)
Definition index0 (l : list string) : M string :=
  match l with
  | x :: _ => ret x
  | [] => raise (IndexError "list index out of range")
  end.

Definition newline : string := String "010" EmptyString.

(** [str(x)] for a string or [None]. *)
Definition fmt (c : option string) : string :=
  match c with Some s => s | None => "None" end.

(** [s.split(c, 1)]: the text before the first [c] and the text after it. *)
Fixpoint split1 (c : ascii) (s : string) : string * string :=
  match s with
  | EmptyString => (EmptyString, EmptyString)
  | String d r =>
      if Ascii.eqb c d then (EmptyString, r)
      else let '(a, b) := split1 c r in (String d a, b)
  end.

Definition mem (x : string) (l : list string) : bool := existsb (String.eqb x) l.

(** ** Tokenizing a line and substituting an alias

    The first lines of [execute_command]: the line is split into words; when
    the first word is an alias, the alias text and the remaining words are
    joined and split again (once: the result is not looked up again). The
    result is the line as [command] holds it afterwards and its words, of
    which the first is [command_name]. *)
Definition words (aliases : list (string * string)) (command : string)
  : result (string * list string) :=
  match Shlex.split command with
  | Raise e => Raise e
  | Ok [] => Raise (IndexError "list index out of range")
  | Ok (command_name :: args) =>
      match dict_get String.eqb command_name aliases with
      | Some a =>
          let command := (a ++ " " ++ PyStr.join " " args)%string in
          match Shlex.split command with
          | Raise e => Raise e
          | Ok parts => Ok (command, parts)
          end
      | None => Ok (command, command_name :: args)
      end
  end.

(** ** The suspend-signal handler *)

(** [getattr(self, 'foreground_command')] *)
Definition get_foreground_command : M (option string) :=
  s <- get_self ;;
  match foreground_command s with
  | Some c => ret c
  | None => raise (AttributeError "'MyShell' object has no attribute 'foreground_command'")
  end.

(** [MyShell.handle_signal] *)
Definition handle_signal (signum : signal) : M unit :=
  match signum with
  | SIGTSTP =>
      s <- get_self ;;
      match foreground_process s with
      | Some (Some p) =>
          print (newline ++ "Suspended") ;;
          emit (SendSignal p SIGTSTP) ;;
          let job_id := next_job_id s in
          c <- get_foreground_command ;;
          update (fun s => set_jobs
            (dict_set Nat.eqb job_id {| process := p; command := c; status := suspended |}
               (jobs s)) s) ;;
          print ("[" ++ PyStr.str job_id ++ "] Suspended " ++ fmt c) ;;
          update (fun s => set_next_job_id (next_job_id s + 1) s) ;;
          update (set_foreground_process None) ;;
          update (set_foreground_command None)
      | _ => ret tt
      end
  | _ => ret tt
  end.

(** ** Dispatch of one command line *)

(** Built-ins that work on files, directories, the environment and the
    history; they are outside the engine and touch none of its state, with
    one exception: [calc] evaluates its arguments with [eval], in the frame
    of [execute_command], and an expression can rebind any attribute of the
    shell. *)
Definition file_builtins : list string :=
  ["cd"; "help"; "history"; "setenv"; "getenv"; "setvar"; "getvar"; "pwd";
   "ls"; "mkdir"; "rm"; "cp"; "mv"; "cat"; "head"; "tail"; "grep"; "find";
   "du"; "df"; "date"; "calc"; "checksum"; "type"; "watch"].

(** Placeholders that print their arguments. *)
Definition placeholders_args : list string :=
  ["man"; "edit"; "tree"; "sort"; "wc"; "patch"; "tar"; "gzip"; "gunzip";
   "mount"; "umount"; "kill"; "login"; "historysearch"; "repeat"; "geturl";
   "theme"; "keybind"; "notify"; "progress"; "script"; "debug"; "timeit";
   "ping"; "dnslookup"; "portscan"; "ssh"; "ftp"; "mail"; "weather";
   "translate"; "news"; "stocks"; "currency"; "reminder"; "todo"; "unitconv";
   "asciiart"; "qrgen"; "barcode"; "encrypt"; "decrypt"; "audioplay";
   "videoplay"; "imageview"; "pdfview"; "packagemanager"; "virtualenv";
   "docker"; "git"; "sqlite"; "blockchain"; "cloud"].

(** Placeholders that print a fixed line. *)
Definition placeholders_plain : list string :=
  ["top"; "logout"; "whoami"; "calculator"; "colortest"; "systeminfo";
   "processmonitor"; "diskmanager"; "usermanager"; "servicemanager"].

(** The names the [if]/[elif] chain of [execute_command] handles itself. *)
Definition is_builtin (name : string) : bool :=
  mem name ["exit"; "alias"; "unalias"; "jobs"; "fg"; "bg"; "echo"; "sleep";
            "config"; "network"]
  || mem name file_builtins || mem name placeholders_args
  || mem name placeholders_plain.

(** The four redirection operators. *)
Definition is_redirect (part : string) : bool :=
  mem part [">"; ">>"; "2>"; "&>"].

(** The message printed when the operator has no target. *)
Definition missing_target_message (op : string) : string :=
  if String.eqb op ">" then "Error: No file specified for output redirection."
  else if String.eqb op ">>" then "Error: No file specified for appending output."
  else if String.eqb op "2>" then "Error: No file specified for stderr redirection."
  else "Error: No file specified for stdout and stderr redirection.".

(** What the scan for a redirection leaves: the arguments before the
    operator and the files bound to the child's output and error. *)
Record redirection : Type := {
  command_parts : list string;
  stdout_redirect : option fileobj;
  stderr_redirect : option fileobj
}.

Definition stream_of (f : option fileobj) : stream :=
  match f with Some f => ToFile f | None => Inherit end.

Section Engine.
Variable w : world.

(** [subprocess.Popen(argv, stdin=.., stdout=.., stderr=..)] *)
Definition Popen (argv : list string) (stdin stdout stderr : stream) : M handle :=
  match argv with
  | [] => raise (IndexError "list index out of range")
  | _ =>
      match popen_error w argv with
      | Some e => raise e
      | None =>
          fun m =>
            let h := spawned m in
            (Ok h, {| self := self m; spawned := S h;
                      trace := trace m ++ [Spawn h argv stdin stdout stderr] |})
      end
  end.

(** [process.wait()]: the shell blocks; a suspend signal delivered
    meanwhile runs the handler, a keyboard interrupt raises. *)
Definition wait (p : handle) : M unit :=
  emit (Wait p) ;;
  (if sigtstp_in_wait w p then handle_signal SIGTSTP else ret tt) ;;
  (if sigint_in_wait w p then raise KeyboardInterrupt else ret tt).

(** [subprocess.run(argv, stdout=.., stderr=.., check=False)]: start the
    child, wait for it, and kill it when the wait is left by an
    exception. *)
Definition subprocess_run (argv : list string) (stdout stderr : stream) : M unit :=
  p <- Popen argv Inherit stdout stderr ;;
  try_except (wait p) (fun e => emit (Kill p) ;; raise e).

(** [open(path, mode)] *)
Definition open_file (path : string) (mode : open_mode) : M fileobj :=
  match open_error w path with
  | Some e => raise e
  | None => emit (Open path mode) ;; ret {| f_path := path; f_mode := mode |}
  end.

(** [if f: f.close()] *)
Definition close_if (f : option fileobj) : M unit :=
  match f with
  | Some f => emit (Close (f_path f))
  | None => ret tt
  end.

(** A file, directory, environment or history built-in: it is recorded
    in the trace with its arguments and may raise; the shell is left as it
    is, which for [calc] holds of the expressions that do not touch the
    shell object. *)
Definition collaborator (name : string) (args : list string) : M unit :=
  emit (Builtin name args) ;;
  match builtin_error w name args with
  | Some e => raise e
  | None => ret tt
  end.

(** *** [alias] and [unalias] *)

Fixpoint print_aliases (items : list (string * string)) : M unit :=
  match items with
  | [] => ret tt
  | (a, c) :: r => print (a ++ "='" ++ c ++ "'") ;; print_aliases r
  end.

Definition builtin_alias (args : list string) : M unit :=
  match args with
  | [] => s <- get_self ;; print_aliases (aliases s)
  | a0 :: _ =>
      if PyStr.contains "=" a0 then
        let '(name, value) := split1 "=" a0 in
        update (fun s => set_aliases (dict_set String.eqb name value (aliases s)) s) ;;
        emit SaveAliases
      else print "Usage: alias [name='command'] or alias"
  end.

Definition builtin_unalias (args : list string) : M unit :=
  s <- get_self ;;
  match args with
  | a0 :: _ =>
      if dict_mem String.eqb a0 (aliases s) then
        update (fun s => set_aliases (dict_del String.eqb a0 (aliases s)) s) ;;
        emit SaveAliases
      else print "Usage: unalias [name]"
  | [] => print "Usage: unalias [name]"
  end.

(** *** [jobs] *)

Definition job_line (job_id : nat) (st : string) (job_info : job) : string :=
  "[" ++ PyStr.str job_id ++ "] " ++ st ++ " " ++ fmt (command job_info).

(** The loop over [list(self.jobs.items())]. *)
Fixpoint jobs_loop (items : list (nat * job)) : M unit :=
  match items with
  | [] => ret tt
  | (job_id, job_info) :: r =>
      emit (Poll (process job_info)) ;;
      (if exited w (process job_info) then
         print (job_line job_id "Done" job_info) ;;
         update (fun s => set_jobs (dict_del Nat.eqb job_id (jobs s)) s)
       else
         print (job_line job_id "Running" job_info)) ;;
      jobs_loop r
  end.

Definition builtin_jobs : M unit :=
  s <- get_self ;; jobs_loop (jobs s).

(** *** [fg] *)

Definition builtin_fg (args : list string) : M unit :=
  match args with
  | a0 :: _ =>
      if PyStr.isdigit a0 then
        let job_id := PyStr.int a0 in
        s <- get_self ;;
        match dict_get Nat.eqb job_id (jobs s) with
        | Some job_info =>
            update (fun s => set_jobs (dict_del Nat.eqb job_id (jobs s)) s) ;;
            print (fmt (command job_info)) ;;
            try_except (wait (process job_info))
              (fun e => match e with
                        | KeyboardInterrupt => print "^C"
                        | _ => raise e
                        end)
        | None => print ("fg: job not found: " ++ PyStr.str job_id)
        end
      else print "Usage: fg [job_id]"
  | [] => print "Usage: fg [job_id]"
  end.

(** *** [bg] *)

(** Reading a local variable of [execute_command]. *)
Definition read_local {A} (name : string) (v : option A) : M A :=
  match v with
  | Some x => ret x
  | None => raise (UnboundLocalError
      ("cannot access local variable '" ++ name ++ "' where it is not associated with a value"))
  end.

(** The local [job_info] is assigned in the [jobs] loop and in the [fg]
    branch only; the [bg] branch of the same call reads it without any
    assignment before. When bound it would be a job object of the table,
    here with the id it is stored under. *)
Definition bg_job_info : option (nat * job) := None.

Definition builtin_bg (args : list string) : M unit :=
  match args with
  | a0 :: _ =>
      if PyStr.isdigit a0 then
        let job_id := PyStr.int a0 in
        s <- get_self ;;
        (* job_id in self.jobs and job_info["process"].poll() is not None
           and job_info["status"] == "suspended" *)
        cond <-
          (if dict_mem Nat.eqb job_id (jobs s) then
             ji <- read_local "job_info" bg_job_info ;;
             emit (Poll (process (snd ji))) ;;
             if exited w (process (snd ji)) then
               ji <- read_local "job_info" bg_job_info ;;
               ret (match status (snd ji) with suspended => true | running => false end)
             else ret false
           else ret false) ;;
        if (cond : bool) then
          ji <- read_local "job_info" bg_job_info ;;
          print ("[" ++ PyStr.str job_id ++ "] " ++ fmt (command (snd ji)) ++ " &") ;;
          emit (SendSignal (process (snd ji)) SIGCONT) ;;
          update (fun s => set_jobs
            (dict_set Nat.eqb (fst ji)
               {| process := process (snd ji); command := command (snd ji);
                  status := running |} (jobs s)) s)
        else if dict_mem Nat.eqb job_id (jobs s) then
          print ("bg: job " ++ PyStr.str job_id ++ " is already running or not suspended")
        else print ("bg: job not found: " ++ PyStr.str job_id)
      else print "Usage: bg [job_id]"
  | [] => print "Usage: bg [job_id]"
  end.

(** *** [sleep]

    For a count that [int] converts and [time.sleep] accepts. *)

Definition builtin_sleep (args : list string) : M unit :=
  match args with
  | a0 :: _ =>
      if PyStr.isdigit a0 then
        emit (Sleep (PyStr.int a0)) ;;
        if sigint_in_sleep w then raise KeyboardInterrupt else ret tt
      else print "Usage: sleep <seconds>"
  | [] => print "Usage: sleep <seconds>"
  end.

(** *** Placeholders *)

Definition builtin_config (args : list string) : M unit :=
  match args with
  | a0 :: r =>
      if String.eqb a0 "get"
      then print ("config get: placeholder for '" ++ PyStr.join " " r ++ "'")
      else if String.eqb a0 "set"
      then print ("config set: placeholder for '" ++ PyStr.join " " r ++ "'")
      else print "config: placeholder"
  | [] => print "config: placeholder"
  end.

Definition builtin_network (args : list string) : M unit :=
  match args with
  | a0 :: _ =>
      if String.eqb a0 "info" then print "network info: placeholder"
      else print "network: placeholder"
  | [] => print "network: placeholder"
  end.
(** *** External commands: pipelines *)

(** [[shlex.split(p) for p in command.split('|')]] *)
Fixpoint split_stages (pieces : list string) : M (list (list string)) :=
  match pieces with
  | [] => ret []
  | p :: r =>
      cmd_parts <- lift (Shlex.split p) ;;
      rest <- split_stages r ;;
      ret (cmd_parts :: rest)
  end.

(** The loop [for i, cmd_parts in enumerate(pipes)], from stage [i] on;
    [n] is [len(pipes)], [last_output] the process whose [stdout] pipe the
    variable holds, [process] the last process started. *)
Fixpoint pipeline_loop (pipes : list (list string)) (i n : nat)
  (last_output : option handle) (process : option handle) : M (option handle) :=
  match pipes with
  | [] => ret process
  | cmd_parts :: r =>
      let piped := Nat.ltb i (n - 1) in
      p <- Popen cmd_parts
             (match last_output with Some h => StdoutOf h | None => Inherit end)
             (if piped then PIPE else SysStdout) SysStderr ;;
      (match last_output with
       | Some h => emit (ClosePipe h)
       | None => ret tt
       end) ;;
      pipeline_loop r (S i) n (if piped then Some p else None) (Some p)
  end.

Definition run_pipeline (command : string) : M unit :=
  pipes <- split_stages (PyStr.split "|" command) ;;
  process <- pipeline_loop pipes 0 (length pipes) None None ;;
  match process with
  | Some p => wait p
  | None => ret tt
  end.

(** *** External commands: one stage, redirection and background *)

(** The loop [for i, part in enumerate(parts)] over the parts not yet
    seen; [None] is the [return] after a missing target. *)
Fixpoint scan_redirect (parts : list string) (seen : list string)
  : M (option redirection) :=
  match parts with
  | [] => ret (Some {| command_parts := seen;
                       stdout_redirect := None; stderr_redirect := None |})
  | part :: r =>
      if is_redirect part then
        match r with
        | target :: _ =>
            if String.eqb part ">" then
              f <- open_file target ModeW ;;
              ret (Some {| command_parts := seen;
                           stdout_redirect := Some f; stderr_redirect := None |})
            else if String.eqb part ">>" then
              f <- open_file target ModeA ;;
              ret (Some {| command_parts := seen;
                           stdout_redirect := Some f; stderr_redirect := None |})
            else if String.eqb part "2>" then
              f <- open_file target ModeW ;;
              ret (Some {| command_parts := seen;
                           stdout_redirect := None; stderr_redirect := Some f |})
            else
              f <- open_file target ModeW ;;
              ret (Some {| command_parts := seen;
                           stdout_redirect := Some f; stderr_redirect := Some f |})
        | [] => print (missing_target_message part) ;; ret None
        end
      else scan_redirect r (seen ++ [part])
  end.

(** The background branch of the [try] block. *)
Definition launch_background (command_parts : list string) : M unit :=
  let bg_command := PyStr.strip (PyStr.join " " (removelast command_parts)) in
  bg_parts <- lift (Shlex.split bg_command) ;;
  match bg_parts with
  | [] => ret tt
  | _ =>
      p <- Popen bg_parts Inherit PIPE PIPE ;;
      s <- get_self ;;
      let job_id := next_job_id s in
      update (fun s => set_jobs
        (dict_set Nat.eqb job_id
           {| process := p; command := Some bg_command; status := running |}
           (jobs s)) s) ;;
      print ("[" ++ PyStr.str job_id ++ "] " ++ bg_command ++ " &") ;;
      update (fun s => set_next_job_id (next_job_id s + 1) s)
  end.

(** The [except] clauses of the [try] block. *)
Definition launch_handler (command_name : string) (e : exn) : M unit :=
  if is_FileNotFoundError e then print (command_name ++ ": command not found")
  else if is_Exception e then print ("Error executing command: " ++ exn_message e)
  else raise e.

(** The body of the [try] block. *)
Definition launch (command : string) (rd : redirection) : M unit :=
  if PyStr.endswith "&" command then launch_background (command_parts rd)
  else subprocess_run (command_parts rd)
         (stream_of (stdout_redirect rd)) (stream_of (stderr_redirect rd)).

(** The [finally] clause. *)
Definition close_redirects (rd : redirection) : M unit :=
  close_if (stdout_redirect rd) ;; close_if (stderr_redirect rd).

Definition run_single (command command_name : string) (parts : list string) : M unit :=
  r <- scan_redirect parts [] ;;
  match r with
  | None => ret tt
  | Some rd =>
      try_finally
        (try_except (launch command rd) (launch_handler command_name))
        (close_redirects rd)
  end.

Definition run_external (command command_name : string) (parts : list string) : M unit :=
  if PyStr.contains "|" command then run_pipeline command
  else run_single command command_name parts.

(** *** [execute_command] *)

(** The line and its words after the substitution of an alias for the
    first word (done once, not repeated on the result). *)
Definition expand_alias (command : string) : M (string * list string) :=
  s <- get_self ;; lift (words (aliases s) command).

Definition dispatch (command command_name : string) (parts args : list string) : M unit :=
  if String.eqb command_name "exit" then
    emit SaveHistory ;; emit SaveAliases ;; emit SaveConfig ;; raise (SystemExit 0)
  else if String.eqb command_name "alias" then builtin_alias args
  else if String.eqb command_name "unalias" then builtin_unalias args
  else if String.eqb command_name "jobs" then builtin_jobs
  else if String.eqb command_name "fg" then builtin_fg args
  else if String.eqb command_name "bg" then builtin_bg args
  else if String.eqb command_name "echo" then print (PyStr.join " " args)
  else if String.eqb command_name "sleep" then builtin_sleep args
  else if mem command_name file_builtins then collaborator command_name args
  else if String.eqb command_name "config" then builtin_config args
  else if String.eqb command_name "network" then builtin_network args
  else if mem command_name placeholders_args then
    print (command_name ++ ": placeholder for '" ++ PyStr.join " " args ++ "'")
  else if mem command_name placeholders_plain then
    print (command_name ++ ": placeholder")
  else run_external command command_name parts.

Definition execute_command (command : string) : M unit :=
  match command with
  | EmptyString => ret tt
  | _ =>
      cp <- expand_alias command ;;
      command_name <- index0 (snd cp) ;;
      dispatch (fst cp) command_name (snd cp) (tl (snd cp))
  end.

(** The body of the prompt loop once [input()] has returned [cmd]. *)
Definition dispatch_line (cmd : string) : M unit :=
  let line := PyStr.strip cmd in
  update (set_foreground_command (Some line)) ;;
  match line with
  | EmptyString => ret tt
  | _ =>
      emit (AddHistory line) ;;
      execute_command line ;;
      update (set_foreground_process None) ;;
      update (set_foreground_command None)
  end.
End Engine.

(** ** The prompt loop *)

(** What [input()] does at one prompt. *)
Inductive input : Type :=
| Line (cmd : string) (w : world)   (* returns [cmd]; [w] answers during its dispatch *)
| EOF                               (* raises EOFError *)
| CtrlC                             (* raises KeyboardInterrupt *)
| CtrlZ.                            (* the suspend signal arrives; [input()] goes on waiting *)

Inductive session : Type :=
| Prompting      (* blocked in [input()] *)
| Finished.      (* left the loop after end of input *)

Definition prompt : M unit := emit Prompt.

Fixpoint myshell_loop (inputs : list input) : M session :=
  match inputs with
  | [] => ret Prompting
  | CtrlZ :: r => handle_signal SIGTSTP ;; myshell_loop r
  | EOF :: _ => print (newline ++ "Exiting...") ;; ret Finished
  | CtrlC :: r => print newline ;; prompt ;; myshell_loop r
  | Line cmd w :: r => dispatch_line w cmd ;; prompt ;; myshell_loop r
  end.

(** [MyShell.myshell], the handler for the suspend signal installed. *)
Definition myshell (inputs : list input) : M session :=
  prompt ;; myshell_loop inputs.

(** ** Vocabulary of the statements

    Machines around one dispatch, relations between the machine before and
    after a computation, sample environments and sessions, and the claims
    of the specification written as predicates on the code. *)

(** A computation respects a relation between machines when the machine
    it leaves, whatever its result, is related to the machine it started
    in. *)
Definition respects (R : machine -> machine -> Prop) {A} (c : M A) : Prop :=
  forall m r m', c m = (r, m') -> R m m'.

Definition push_event (e : event) (m : machine) : machine :=
  {| self := self m; spawned := spawned m; trace := trace m ++ [e] |}.

Definition with_self (s : shell) (m : machine) : machine :=
  {| self := s; spawned := spawned m; trace := trace m |}.

(** The machine in which [execute_command] starts when the prompt loop
    dispatches the stripped line [line]. *)
Definition entering (line : string) (m : machine) : machine :=
  push_event (AddHistory line)
    (with_self (set_foreground_command (Some line) (self m)) m).

(** The machine the prompt loop reaches after [execute_command] returned
    in [m]: both [foreground_*] attributes are [None] and the prompt shows. *)
Definition returned (m : machine) : machine :=
  push_event Prompt
    (with_self (set_foreground_command None
                  (set_foreground_process None (self m))) m).

Definition sigtstp_sent (e : event) : bool :=
  match e with SendSignal _ SIGTSTP => true | _ => false end.

(** No process is recorded as the foreground process: the attribute is
    missing or holds [None]. *)
Definition untracked (s : shell) : Prop :=
  foreground_process s = None \/ foreground_process s = Some None.

Definition all_running (s : shell) : Prop :=
  Forall (fun kj => status (snd kj) = running) (jobs s).

(** From a machine with no tracked foreground process: none is tracked
    afterwards, no suspend signal was forwarded meanwhile and no suspended
    job has appeared. *)
Definition inert (m m' : machine) : Prop :=
  untracked (self m) ->
  untracked (self m') /\
  (exists evs, trace m' = trace m ++ evs /\
               Forall (fun e => sigtstp_sent e = false) evs) /\
  (all_running (self m) -> all_running (self m')).

(** Every id of the table is below the counter, and no id is bound twice. *)
Definition well_formed (s : shell) : Prop :=
  Forall (fun k => k < next_job_id s) (dict_keys (jobs s)) /\
  NoDup (dict_keys (jobs s)).

(** The counter does not decrease, the table stays well formed, and an id
    of the table afterwards was in the table before or is at least the
    counter before. *)
Definition counted (m m' : machine) : Prop :=
  next_job_id (self m) <= next_job_id (self m') /\
  (well_formed (self m) -> well_formed (self m')) /\
  (forall k, In k (dict_keys (jobs (self m'))) ->
             In k (dict_keys (jobs (self m))) \/ next_job_id (self m) <= k).

(** The step changes neither the table nor the counter. *)
Definition keeps_jobs (m m' : machine) : Prop :=
  jobs (self m') = jobs (self m) /\ next_job_id (self m') = next_job_id (self m).

(** The step binds the counter's value to a new job and adds one to the
    counter. *)
Definition registers (m m' : machine) : Prop :=
  exists j,
    jobs (self m') = dict_set Nat.eqb (next_job_id (self m)) j (jobs (self m)) /\
    next_job_id (self m') = next_job_id (self m) + 1.

(** Every program starts, every file opens, no child has exited and no
    signal arrives. *)
Definition calm : world :=
  {| popen_error := fun _ => None;
     open_error := fun _ => None;
     exited := fun _ => false;
     sigint_in_wait := fun _ => false;
     sigtstp_in_wait := fun _ => false;
     sigint_in_sleep := false;
     builtin_error := fun _ _ => None |}.

(** No program is found. *)
Definition barren : world :=
  {| popen_error := fun argv => Some (FileNotFoundError
       "[Errno 2] No such file or directory");
     open_error := fun _ => None;
     exited := fun _ => false;
     sigint_in_wait := fun _ => false;
     sigtstp_in_wait := fun _ => false;
     sigint_in_sleep := false;
     builtin_error := fun _ _ => None |}.

(** Ctrl+Z is pressed during every wait. *)
Definition stopping : world :=
  {| popen_error := fun _ => None;
     open_error := fun _ => None;
     exited := fun _ => false;
     sigint_in_wait := fun _ => false;
     sigtstp_in_wait := fun _ => true;
     sigint_in_sleep := false;
     builtin_error := fun _ _ => None |}.

(** Ctrl+C is pressed during every wait; every child has exited when
    polled. *)
Definition interrupting : world :=
  {| popen_error := fun _ => None;
     open_error := fun _ => None;
     exited := fun _ => true;
     sigint_in_wait := fun _ => true;
     sigtstp_in_wait := fun _ => false;
     sigint_in_sleep := false;
     builtin_error := fun _ _ => None |}.

(** The claim at one line: its dispatch returns to the prompt loop. *)
Definition survives (w : world) (cmd : string) (m : machine) : Prop :=
  exists m', dispatch_line w cmd m = (Ok tt, m').

(** The message of the [except] clauses. *)
Definition launch_message (command_name : string) (e : exn) : string :=
  if is_FileNotFoundError e then command_name ++ ": command not found"
  else "Error executing command: " ++ exn_message e.

(** The events of the [finally] clause. *)
Definition close_events (rd : redirection) : list event :=
  match stdout_redirect rd with Some f => [Close (f_path f)] | None => [] end ++
  match stderr_redirect rd with Some f => [Close (f_path f)] | None => [] end.

Definition push_events (evs : list event) (m : machine) : machine :=
  {| self := self m; spawned := spawned m; trace := trace m ++ evs |}.

Definition job_info_unbound : exn :=
  UnboundLocalError
    "cannot access local variable 'job_info' where it is not associated with a value".

(** The machine after [sleepx 100 &] was dispatched from the prompt loop. *)
Definition session_with_job : machine :=
  {| self :=
       {| aliases := [];
          jobs := [(1, {| process := 0; command := Some "sleepx 100"; status := running |})];
          next_job_id := 2;
          foreground_process := Some None;
          foreground_command := Some None |};
     spawned := 1;
     trace := [Prompt; AddHistory "sleepx 100 &";
               Spawn 0 ["sleepx"; "100"] Inherit PIPE PIPE; Print "[1] sleepx 100 &";
               Prompt] |}.

(** The pipe characters of a line that stand outside quotes and are not
    escaped, counted along the tokenizer's states. *)
Fixpoint unquoted_pipes_from (s : string) (st : Shlex.state) : nat :=
  match s with
  | EmptyString => 0
  | String c r =>
      match st with
      | Shlex.Space | Shlex.Word =>
          if Shlex.is_escape c then unquoted_pipes_from r (Shlex.Escape None)
          else if Shlex.is_quote c then unquoted_pipes_from r (Shlex.Quote c)
          else (if Ascii.eqb c "|" then 1 else 0) + unquoted_pipes_from r Shlex.Word
      | Shlex.Quote q =>
          if Ascii.eqb c q then unquoted_pipes_from r Shlex.Word
          else if Shlex.is_escape c && Shlex.is_escapedquote q
               then unquoted_pipes_from r (Shlex.Escape (Some q))
          else unquoted_pipes_from r (Shlex.Quote q)
      | Shlex.Escape (Some q) => unquoted_pipes_from r (Shlex.Quote q)
      | Shlex.Escape None => unquoted_pipes_from r Shlex.Word
      end
  end.

Definition unquoted_pipes (s : string) : nat := unquoted_pipes_from s Shlex.Space.

(** The claim at one line: the dispatch returns and has started one
    process more than the line has unquoted pipe operators. *)
Definition pipeline_claim (w : world) (line : string) (m : machine) : Prop :=
  exists m', execute_command w line m = (Ok tt, m') /\
             spawned m' = spawned m + S (unquoted_pipes line).

(** The line [printf], a quoted [a|b], a pipe and [cat]. *)
Definition quoted_pipe_line : string :=
  "printf " ++ dq ++ "a|b" ++ dq ++ " | cat".

(** No word of the list is a redirection operator. *)
Definition no_redirect (parts : list string) : bool :=
  forallb (fun p => negb (is_redirect p)) parts.

(** The mode the operator opens its target in. *)
Definition mode_of (op : string) : open_mode :=
  if String.eqb op ">>" then ModeA else ModeW.

(** What the scan leaves for operator [op] with target [target], the
    words [seen] before it. *)
Definition redirection_of (op target : string) (seen : list string) : redirection :=
  let f := {| f_path := target; f_mode := mode_of op |} in
  {| command_parts := seen;
     stdout_redirect := if String.eqb op "2>" then None else Some f;
     stderr_redirect := if String.eqb op "2>" || String.eqb op "&>"
                        then Some f else None |}.

(** The claim at one line: the dispatch prints the missing-target message
    of one of the operators and does nothing else. *)
Definition aborts_missing_target (w : world) (line : string) (m : machine) : Prop :=
  exists op, is_redirect op = true /\
    execute_command w line m
    = (Ok tt, push_event (Print (missing_target_message op)) m).

(** The claim at one line: the dispatch returns with a running job
    registered under the id the counter held. *)
Definition backgrounds (w : world) (line : string) (m : machine) : Prop :=
  exists m' p c,
    execute_command w line m = (Ok tt, m') /\
    dict_get Nat.eqb (next_job_id (self m)) (jobs (self m'))
    = Some {| process := p; command := c; status := running |}.

(** The shell after a job for process [p] with text [c] was registered. *)
Definition register (p : handle) (c : string) (s : shell) : shell :=
  set_next_job_id (next_job_id s + 1)
    (set_jobs (dict_set Nat.eqb (next_job_id s)
                 {| process := p; command := Some c; status := running |}
                 (jobs s)) s).

(** The two events the listing produces for one job. *)
Definition listing (w : world) (kj : nat * job) : list event :=
  [Poll (process (snd kj));
   Print (job_line (fst kj)
            (if exited w (process (snd kj)) then "Done" else "Running") (snd kj))].

(** The job's process is still alive when polled. *)
Definition alive (w : world) (kj : nat * job) : bool :=
  negb (exited w (process (snd kj))).

(** Two background jobs, the first of which has exited when polled. *)
Definition first_exited : world :=
  {| popen_error := fun _ => None;
     open_error := fun _ => None;
     exited := fun h => Nat.eqb h 0;
     sigint_in_wait := fun _ => false;
     sigtstp_in_wait := fun _ => false;
     sigint_in_sleep := false;
     builtin_error := fun _ _ => None |}.

(** The machine after [sleepx 1 &] and [sleepx 100 &] were dispatched. *)
Definition session_with_two_jobs : machine :=
  {| self :=
       {| aliases := [];
          jobs := [(1, {| process := 0; command := Some "sleepx 1"; status := running |});
                   (2, {| process := 1; command := Some "sleepx 100"; status := running |})];
          next_job_id := 3;
          foreground_process := Some None;
          foreground_command := Some None |};
     spawned := 2;
     trace := [Prompt; AddHistory "sleepx 1 &";
               Spawn 0 ["sleepx"; "1"] Inherit PIPE PIPE; Print "[1] sleepx 1 &";
               Prompt; AddHistory "sleepx 100 &";
               Spawn 1 ["sleepx"; "100"] Inherit PIPE PIPE; Print "[2] sleepx 100 &";
               Prompt] |}.

(** The machine after [sleepx 1 &], [sleepx 100 &], [fg 1] and
    [sleepx 7 &]: the third job has id 3, not the 1 that is free again. *)
Definition session_after_fg : machine :=
  {| self :=
       {| aliases := [];
          jobs := [(2, {| process := 1; command := Some "sleepx 100"; status := running |});
                   (3, {| process := 2; command := Some "sleepx 7"; status := running |})];
          next_job_id := 4;
          foreground_process := Some None;
          foreground_command := Some None |};
     spawned := 3;
     trace := [Prompt; AddHistory "sleepx 1 &";
               Spawn 0 ["sleepx"; "1"] Inherit PIPE PIPE; Print "[1] sleepx 1 &";
               Prompt; AddHistory "sleepx 100 &";
               Spawn 1 ["sleepx"; "100"] Inherit PIPE PIPE; Print "[2] sleepx 100 &";
               Prompt; AddHistory "fg 1"; Print "sleepx 1"; Wait 0;
               Prompt; AddHistory "sleepx 7 &";
               Spawn 2 ["sleepx"; "7"] Inherit PIPE PIPE; Print "[3] sleepx 7 &";
               Prompt] |}.

(** The [calc] branch of [execute_command] on the expression
    [self.__dict__.update(next_job_id=1)]: [eval] runs in the frame of
    [execute_command], where [self] is the shell, so the call rebinds the
    counter; it returns [None], which is printed. [dispatch] hands [calc] to
    [collaborator], which stands for the expressions that leave the shell
    object alone. *)
Definition calc_counter_reset : M unit :=
  emit (Builtin "calc" ["self.__dict__.update(next_job_id=1)"]) ;;
  update (set_next_job_id 1) ;;
  print "None".

(** * Further vocabulary *)

(** ** Words that need no quoting *)

(** A character that is neither white space for [str.strip], nor a quote,
    nor the escape character. *)
Definition plain_char (c : ascii) : bool :=
  negb (PyStr.isspace c) && negb (Shlex.is_quote c) && negb (Shlex.is_escape c).

Fixpoint plain (s : string) : bool :=
  match s with
  | EmptyString => true
  | String c r => plain_char c && plain r
  end.

(** A non-empty word of plain characters. *)
Definition plain_word (s : string) : bool := Shlex.nonempty s && plain s.

(** ** Files and job tables *)

(** The event opens or closes a file. *)
Definition is_file_event (e : event) : bool :=
  match e with Open _ _ | Close _ => true | _ => false end.

(** The step only appends events, none of which opens or closes a file. *)
Definition file_quiet (m m' : machine) : Prop :=
  exists evs, trace m' = trace m ++ evs /\
              Forall (fun e => is_file_event e = false) evs.

(** The processes of the jobs, in the table's order. *)
Definition job_processes (s : shell) : list handle :=
  map (fun kj => process (snd kj)) (jobs s).

(** The table is well formed, no process is registered twice, every
    registered process was created by the shell, and every job has a
    command text. *)
Definition tidy (m : machine) : Prop :=
  well_formed (self m) /\
  NoDup (job_processes (self m)) /\
  Forall (fun p => p < spawned m) (job_processes (self m)) /\
  Forall (fun kj => command (snd kj) <> None) (jobs (self m)).

(** From a machine with no tracked foreground process: none is tracked
    afterwards, no process handle is forgotten, and a tidy table stays
    tidy. *)
Definition keeps_tidy (m m' : machine) : Prop :=
  untracked (self m) ->
  untracked (self m') /\ spawned m <= spawned m' /\ (tidy m -> tidy m').

(** ** Starting a program *)

(** The error [subprocess.Popen(argv)] raises, if any: an empty argument
    vector has no program name. *)
Definition start_error (w : world) (argv : list string) : option exn :=
  match argv with
  | [] => Some (IndexError "list index out of range")
  | _ => popen_error w argv
  end.

(** The event is the start of a process or the closing of the shell's end
    of a pipe: the two events of the pipeline loop. *)
Definition is_stage_event (e : event) : bool :=
  match e with Spawn _ _ _ _ _ | ClosePipe _ => true | _ => false end.

(** The argument vectors of the processes the events start, in order. *)
Fixpoint started (evs : list event) : list (list string) :=
  match evs with
  | [] => []
  | Spawn _ argv _ _ _ :: r => argv :: started r
  | _ :: r => started r
  end.

(** The program [nosuch] is not found; every other program starts. *)
Definition picky : world :=
  {| popen_error := fun argv =>
       if existsb (String.eqb "nosuch") (firstn 1 argv)
       then Some (FileNotFoundError "[Errno 2] No such file or directory: 'nosuch'")
       else None;
     open_error := fun _ => None;
     exited := fun _ => false;
     sigint_in_wait := fun _ => false;
     sigtstp_in_wait := fun _ => false;
     sigint_in_sleep := false;
     builtin_error := fun _ _ => None |}.

(** ** The scanner in the middle of a line *)

(** The state, token, quoted flag and words read so far in which the
    scanner of [shlex.split] is after reading [s]: the transitions of
    [Shlex.scan], without the end of input. *)
Fixpoint scan_to (s : string) (st : Shlex.state) (token : string) (quoted : bool)
  (acc : list string) : Shlex.state * string * bool * list string :=
  match s with
  | EmptyString => (st, token, quoted, acc)
  | String c r =>
      match st with
      | Shlex.Space =>
          if Shlex.is_whitespace c then
            if Shlex.nonempty token || quoted
            then scan_to r Shlex.Space EmptyString false (acc ++ [token])
            else scan_to r Shlex.Space token quoted acc
          else if Shlex.is_escape c then scan_to r (Shlex.Escape None) token quoted acc
          else if Shlex.is_quote c then scan_to r (Shlex.Quote c) token quoted acc
          else scan_to r Shlex.Word (String c EmptyString) quoted acc
      | Shlex.Word =>
          if Shlex.is_whitespace c then
            if Shlex.nonempty token || quoted
            then scan_to r Shlex.Space EmptyString false (acc ++ [token])
            else scan_to r Shlex.Space token quoted acc
          else if Shlex.is_quote c then scan_to r (Shlex.Quote c) token quoted acc
          else if Shlex.is_escape c then scan_to r (Shlex.Escape None) token quoted acc
          else scan_to r Shlex.Word (Shlex.push token c) quoted acc
      | Shlex.Quote q =>
          if Ascii.eqb c q then scan_to r Shlex.Word token true acc
          else if Shlex.is_escape c && Shlex.is_escapedquote q
               then scan_to r (Shlex.Escape (Some q)) token true acc
          else scan_to r (Shlex.Quote q) (Shlex.push token c) true acc
      | Shlex.Escape es =>
          let token' :=
            match es with
            | Some q =>
                if negb (Shlex.is_escape c) && negb (Ascii.eqb c q)
                then Shlex.push token "\" else token
            | None => token
            end in
          let back := match es with Some q => Shlex.Quote q | None => Shlex.Word end in
          scan_to r back (Shlex.push token' c) quoted acc
      end
  end.

(** Two aliases, the first naming the second. *)
Definition chained_aliases : list (string * string) :=
  [("a", "b"); ("b", "echo hi")].

(** ** The alias file: [load_aliases] and [save_aliases] *)

(** [s.startswith(c)] for a one-character prefix. *)
Definition starts_with (c : ascii) (s : string) : bool :=
  match s with
  | String d _ => Ascii.eqb c d
  | EmptyString => false
  end.

(** The lines [for line in f] yields for a file opened in text mode with
    content [s], [cur] being the part of the current line already read: a
    line ends after a line feed, a carriage return or the two in a row, all
    of which are read as one line feed; the last line may lack it. *)
Fixpoint file_lines_from (s : string) (cur : string) : list string :=
  match s with
  | EmptyString =>
      match cur with
      | EmptyString => []
      | _ => [cur]
      end
  | String c r =>
      if Ascii.eqb c "010" then (cur ++ newline)%string :: file_lines_from r EmptyString
      else if Ascii.eqb c "013" then
        match r with
        | String d r' =>
            if Ascii.eqb d "010"
            then (cur ++ newline)%string :: file_lines_from r' EmptyString
            else (cur ++ newline)%string :: file_lines_from r EmptyString
        | EmptyString => [(cur ++ newline)%string]
        end
      else file_lines_from r (cur ++ String c EmptyString)
  end.

Definition file_lines (s : string) : list string := file_lines_from s EmptyString.

(** The body of the loop of [load_aliases] for one line. *)
Definition load_line (aliases : list (string * string)) (line : string)
  : list (string * string) :=
  let line := PyStr.strip line in
  if Shlex.nonempty line && negb (starts_with "#" line) then
    if PyStr.contains "=" line then
      let '(name, value) := split1 "=" line in
      dict_set String.eqb (PyStr.strip name) (PyStr.strip value) aliases
    else aliases
  else aliases
.

(** [MyShell.load_aliases], for the content of the alias file ([None]
    when the file does not exist) and the aliases so far. *)
Definition load_aliases (file : option string) (aliases : list (string * string))
  : list (string * string) :=
  match file with
  | Some content => fold_left load_line (file_lines content) aliases
  | None => aliases
  end.

(** [MyShell.save_aliases]: the content written to the alias file. *)
Fixpoint save_aliases (aliases : list (string * string)) : string :=
  match aliases with
  | [] => EmptyString
  | (alias, command) :: r => (alias ++ "=" ++ command ++ newline ++ save_aliases r)%string
  end.

(** The string holds neither a line feed nor a carriage return. *)
Fixpoint one_line (s : string) : bool :=
  match s with
  | EmptyString => true
  | String c r => negb (Ascii.eqb c "010") && negb (Ascii.eqb c "013") && one_line r
  end.

(** A name the alias file gives back: [strip] leaves it alone, it holds
    no [=] and no line break and does not start with [#]. *)
Definition storable_name (s : string) : Prop :=
  PyStr.strip s = s /\ PyStr.contains "=" s = false /\
  starts_with "#" s = false /\ one_line s = true.

(** A value the alias file gives back: [strip] leaves it alone and it
    holds no line break. *)
Definition storable_value (s : string) : Prop :=
  PyStr.strip s = s /\ one_line s = true.

(** ** [completer] *)

Fixpoint insert_sorted (x : string) (l : list string) : list string :=
  match l with
  | [] => [x]
  | y :: r => if String.leb x y then x :: l else y :: insert_sorted x r
  end.

(** [sorted(l)] for a list of strings. *)
Definition sorted (l : list string) : list string :=
  fold_right insert_sorted [] l.

(** [MyShell.completer], for the names [os.listdir('.')] returns; [state]
    is the number readline passes, 0 for the first completion asked. *)
Definition completer (listing : list string) (aliases : list (string * string))
  (text : string) (state : nat) : option string :=
  let options := sorted (listing ++ dict_keys aliases) in
  let matches := filter (String.prefix text) options in
  nth_error matches state.

(** ** [format_permissions] *)

(** [MyShell.format_permissions], for what [os.path.isdir(".")] and
    [os.path.islink(".")] answer: the first character is decided by the
    current directory, not by the file whose mode is formatted. *)
Definition format_permissions (cwd_isdir cwd_islink : bool) (mode : N) : string :=
  ((if cwd_isdir then "d" else if cwd_islink then "l" else "-") ++
   (if N.eqb (N.land mode 256) 0 then "-" else "r") ++
   (if N.eqb (N.land mode 128) 0 then "-" else "w") ++
   (if N.eqb (N.land mode 64) 0 then "-" else "x") ++
   (if N.eqb (N.land mode 32) 0 then "-" else "r") ++
   (if N.eqb (N.land mode 16) 0 then "-" else "w") ++
   (if N.eqb (N.land mode 8) 0 then "-" else "x") ++
   (if N.eqb (N.land mode 4) 0 then "-" else "r") ++
   (if N.eqb (N.land mode 2) 0 then "-" else "w") ++
   (if N.eqb (N.land mode 1) 0 then "-" else "x"))%string.

(** ** Shell variables: the [setvar] and [getvar] branches *)

(** The [setvar] branch of [execute_command] on [self.shell_vars]: the
    variables afterwards and the lines printed. *)
Definition builtin_setvar (args : list string) (shell_vars : list (string * string))
  : list (string * string) * list string :=
  match args with
  | a0 :: _ =>
      if PyStr.contains "=" a0 then
        let '(name, value) := split1 "=" a0 in
        (dict_set String.eqb name value shell_vars, [])
      else (shell_vars, ["Usage: setvar [VARIABLE=VALUE]"])
  | [] => (shell_vars, ["Usage: setvar [VARIABLE=VALUE]"])
  end.

(** The [getvar] branch: the line printed. *)
Definition builtin_getvar (args : list string) (shell_vars : list (string * string))
  : string :=
  match args with
  | a0 :: _ =>
      match dict_get String.eqb a0 shell_vars with
      | Some v => v
      | None => (a0 ++ " not found in shell variables")%string
      end
  | [] => "Usage: getvar [VARIABLE]"
  end.

(** ** The [type] branch *)

(** The names the [type] branch reports as built-in. *)
Definition type_builtins : list string :=
  ["cd"; "exit"; "help"; "alias"; "unalias"; "history"; "jobs"; "fg"; "bg";
   "setenv"; "getenv"; "setvar"; "getvar"; "echo"; "pwd"; "ls"; "mkdir"; "rm";
   "cp"; "mv"; "cat"; "head"; "tail"; "grep"; "find"; "du"; "df"; "sleep";
   "date"; "calc"; "checksum"; "type"; "watch"].

(** The [type] branch of [execute_command]: the line printed, for what
    [shutil.which] answers. *)
Definition builtin_type (which : string -> option string)
  (aliases : list (string * string)) (args : list string) : string :=
  match args with
  | command_to_check :: _ =>
      match dict_get String.eqb command_to_check aliases with
      | Some a => (command_to_check ++ " is aliased to '" ++ a ++ "'")%string
      | None =>
          if mem command_to_check type_builtins
          then (command_to_check ++ " is a built-in shell command")%string
          else match which command_to_check with
               | Some (String c p) =>
                   (command_to_check ++ " is in " ++ String c p)%string
               | _ => (command_to_check ++ " not found")%string
               end
      end
  | [] => "Usage: type <command>"
  end.

(** ** Order of the completions *)

(** [a <= b] for two strings, as [sorted] compares them. *)
Definition le_str (a b : string) : Prop := String.leb a b = true.

(** ** Processes started and files opened *)

(** The event starts a process or opens a file. *)
Definition starts_or_opens (e : event) : bool :=
  match e with Spawn _ _ _ _ _ | Open _ _ => true | _ => false end.

(** The step creates no process and only appends events, none of which
    starts a process or opens a file. *)
Definition launches_nothing (m m' : machine) : Prop :=
  spawned m' = spawned m /\
  exists evs, trace m' = trace m ++ evs /\
              Forall (fun e => starts_or_opens e = false) evs.

(** ** [format_size] *)

(** [str(n)] for a natural number held in binary. *)
Definition str_N (n : N) : string := NilEmpty.string_of_uint (N.to_uint n).

(** The number of tenths [f"{x:.1f}"] shows for the float [x = size / 2^shift]:
    the multiple of one tenth nearest to [x], the even one when two are
    equally near. *)
Definition tenths (size shift : N) : N :=
  let q := (10 * size / 2 ^ shift)%N in
  let r := ((10 * size) mod 2 ^ shift)%N in
  if N.ltb (2 ^ shift) (2 * r) then (q + 1)%N
  else if N.eqb (2 * r) (2 ^ shift) && N.odd q then (q + 1)%N
  else q.

(** [f"{x:.1f}"] for [x = size / 2^shift]. *)
Definition one_decimal (size shift : N) : string :=
  let t := tenths size shift in
  (str_N (t / 10) ++ "." ++ str_N (t mod 10))%string.

(** The loop of [format_size] over the units left; the variable [size] of
    the source holds the float [size / 2^shift], [size] here being the
    argument of the call. *)
Fixpoint format_size_loop (units : list string) (size shift : N) : string :=
  match units with
  | unit :: r =>
      if N.ltb size (1024 * 2 ^ shift) then (one_decimal size shift ++ unit)%string
      else format_size_loop r size (shift + 10)
  | [] => (one_decimal size shift ++ "E")%string
  end.

(** [MyShell.format_size] for a size below 2^53, which the conversion to
    float and the divisions by [1024.0] keep exact. *)
Definition format_size (size : N) : string :=
  format_size_loop ["B"; "K"; "M"; "G"; "T"; "P"] size 0.

(** ** The arguments of [cp] *)

(** What the [cp] branch does after looking at its arguments: print the
    usage line, or copy the sources to the destination. *)
Inductive cp_plan : Type :=
| CpUsage
| CpCopy (recursive : bool) (sources : list string) (destination : string).

(** The argument is not an option: [not arg.startswith("-")]. *)
Definition is_path (arg : string) : bool := negb (starts_with "-" arg).

(** The [cp] branch of [execute_command] up to its loop over the sources:
    [l[:-1]] and [l[-1]] of the arguments that are not options. *)
Definition builtin_cp_plan (args : list string) : result cp_plan :=
  let recursive := mem "-r" args in
  let sources := removelast (filter is_path args) in
  match filter is_path args with
  | [] => Raise (IndexError "list index out of range")
  | p :: l =>
      let destination := last (p :: l) EmptyString in
      match sources with
      | [] => Ok CpUsage
      | _ => Ok (CpCopy recursive sources destination)
      end
  end.

(** ** [head] and [tail] *)

(** White space for [int]: TAB, LF, VT, FF, CR and the blank. *)
Definition int_space (c : ascii) : bool :=
  let n := nat_of_ascii c in (Nat.leb 9 n && Nat.leb n 13) || Nat.eqb n 32.

Fixpoint all_int_space (s : string) : bool :=
  match s with
  | EmptyString => true
  | String c r => int_space c && all_int_space r
  end.

Fixpoint skip_int_space (s : string) : string :=
  match s with
  | String c r => if int_space c then skip_int_space r else s
  | EmptyString => EmptyString
  end.

(** The digits of a decimal literal, single underscores allowed between
    two digits, white space allowed after the last digit; [digits] counts
    the digits read, of which [int] accepts 4300 at most. *)
Fixpoint int_digits (s : string) (acc : N) (after_digit : bool) (digits : nat)
  : option N :=
  match s with
  | EmptyString => if after_digit && Nat.leb digits 4300 then Some acc else None
  | String c r =>
      if PyStr.is_digit_char c
      then int_digits r (10 * acc + N.of_nat (nat_of_ascii c - 48)) true (S digits)
      else if Ascii.eqb c "_" then
        if after_digit then int_digits r acc false digits else None
      else if int_space c && after_digit && all_int_space r && Nat.leb digits 4300
      then Some acc
      else None
  end.

(** [int(s)] for a string of ASCII characters: [None] stands for
    [ValueError], which is also raised for a literal of more than 4300
    digits. *)
Definition py_int (s : string) : option Z :=
  match skip_int_space s with
  | String c r =>
      if Ascii.eqb c "+" then option_map Z.of_N (int_digits r 0 false 0)
      else if Ascii.eqb c "-"
      then option_map (fun n => Z.opp (Z.of_N n)) (int_digits r 0 false 0)
      else option_map Z.of_N (int_digits (String c r) 0 false 0)
  | EmptyString => None
  end.

(** No character of the string is a digit. *)
Fixpoint no_digit (s : string) : bool :=
  match s with
  | EmptyString => true
  | String c r => negb (PyStr.is_digit_char c) && no_digit r
  end.

(** [s[2:]] *)
Definition from2 (s : string) : string :=
  match s with
  | String _ (String _ r) => r
  | _ => EmptyString
  end.

(** The lines written one after the other, as [print(line, end=...)] with an empty [end] writes them. *)
Definition text_of (lines : list string) : string :=
  fold_right String.append EmptyString lines.

(** [lines[start:]] for a start that may be negative. *)
Definition slice_from {A} (start : Z) (lines : list A) : list A :=
  if Z.ltb start 0
  then skipn (length lines - Z.to_nat (Z.opp start)) lines
  else skipn (Z.to_nat start) lines.

Definition is_OSError (e : exn) : bool :=
  match e with FileNotFoundError _ | OSError _ => true | _ => false end.

(** The loop of [head] over the files: the text written to the standard
    output and the error that ends the loop, if any. [read path] is the
    text of the file, or the error [open] raises. *)
Fixpoint head_loop (read : string -> result string) (num_lines : Z)
  (file_paths : list string) : string * option exn :=
  match file_paths with
  | [] => (EmptyString, None)
  | file_path :: r =>
      match read file_path with
      | Ok content =>
          let '(out, e) := head_loop read num_lines r in
          (text_of (firstn (Z.to_nat num_lines) (file_lines content)) ++ out, e)%string
      | Raise e =>
          if is_FileNotFoundError e then
            let '(out, e') := head_loop read num_lines r in
            ("head: cannot open '" ++ file_path
             ++ "' for reading: No such file or directory" ++ newline ++ out, e')%string
          else if is_OSError e then
            let '(out, e') := head_loop read num_lines r in
            ("head: error reading '" ++ file_path ++ "': " ++ exn_message e
             ++ newline ++ out, e')%string
          else (EmptyString, Some e)
      end
  end.

(** The [head] branch of [execute_command]. *)
Definition builtin_head (read : string -> result string) (args : list string)
  : string * option exn :=
  let run num_lines file_paths :=
    match file_paths with
    | [] => ("Usage: head [-n <num>] <file> [...]" ++ newline, None)%string
    | _ => head_loop read num_lines file_paths
    end in
  match args with
  | a0 :: rest =>
      if String.prefix "-n" a0 then
        match py_int (from2 a0) with
        | Some n => run n rest
        | None => ("head: invalid number of lines" ++ newline, None)%string
        end
      else run 10%Z args
  | [] => run 10%Z args
  end.

Fixpoint tail_loop (read : string -> result string) (num_lines : Z)
  (file_paths : list string) : string * option exn :=
  match file_paths with
  | [] => (EmptyString, None)
  | file_path :: r =>
      match read file_path with
      | Ok content =>
          let '(out, e) := tail_loop read num_lines r in
          (text_of (slice_from (Z.opp num_lines) (file_lines content)) ++ out, e)%string
      | Raise e =>
          if is_FileNotFoundError e then
            let '(out, e') := tail_loop read num_lines r in
            ("tail: cannot open '" ++ file_path
             ++ "' for reading: No such file or directory" ++ newline ++ out, e')%string
          else if is_OSError e then
            let '(out, e') := tail_loop read num_lines r in
            ("tail: error reading '" ++ file_path ++ "': " ++ exn_message e
             ++ newline ++ out, e')%string
          else (EmptyString, Some e)
      end
  end.

(** The [tail] branch of [execute_command]. *)
Definition builtin_tail (read : string -> result string) (args : list string)
  : string * option exn :=
  let run num_lines file_paths :=
    match file_paths with
    | [] => ("Usage: tail [-n <num>] <file> [...]" ++ newline, None)%string
    | _ => tail_loop read num_lines file_paths
    end in
  match args with
  | a0 :: rest =>
      if String.prefix "-n" a0 then
        match py_int (from2 a0) with
        | Some n => run n rest
        | None => ("tail: invalid number of lines" ++ newline, None)%string
        end
      else run 10%Z args
  | [] => run 10%Z args
  end.


(** A file of three lines, the last one not ended. *)
Definition three_lines : string := ("a" ++ newline ++ "b" ++ newline ++ "c")%string.

(** Every path opens and holds the three lines. *)
Definition one_file (path : string) : result string := Ok three_lines.

(** An alias file that holds a comment, a blank line and a word. *)
Definition commented_file : string :=
  ("   # ll=rm -rf" ++ newline ++ newline ++ "  ll  " ++ newline)%string.

(** ** ASCII text *)

(** The string holds ASCII characters only (codes below 128); on such
    strings the operations of [PyStr] are those of Python's [str]. *)
Definition ascii_only (s : string) : bool :=
  forallb (fun c => Nat.ltb (nat_of_ascii c) 128) (list_ascii_of_string s).

(** ** What the scan for a redirection finds *)

(** The words [parts] of a command as the scan reads them: [pre] are the
    words before the first redirection operator and [found] is that operator
    with its target; with no operator, [pre] are all the words and [found]
    is [None]. *)
Definition scanned (parts pre : list string) (found : option (string * string))
  : Prop :=
  no_redirect pre = true /\
  match found with
  | Some (op, target) =>
      is_redirect op = true /\ exists rest, parts = pre ++ op :: target :: rest
  | None => parts = pre
  end.

(** What the scan leaves for the launch. *)
Definition found_redirection (pre : list string) (found : option (string * string))
  : redirection :=
  match found with
  | Some (op, target) => redirection_of op target pre
  | None => {| command_parts := pre; stdout_redirect := None;
               stderr_redirect := None |}
  end.

(** The event of the scan: the target is opened. *)
Definition open_events (found : option (string * string)) : list event :=
  match found with
  | Some (op, target) => [Open target (mode_of op)]
  | None => []
  end.

(** The target, if there is one, opens. *)
Definition target_opens (w : world) (found : option (string * string)) : Prop :=
  match found with
  | Some (_, target) => open_error w target = None
  | None => True
  end.

(** The digit [1] written [n] times. *)
Fixpoint ones (n : nat) : string :=
  match n with
  | O => EmptyString
  | S k => String "1" (ones k)
  end.

(** * Properties *)

(** ** The tokenizer and the string operations on examples *)

Example shlex_plain : Shlex.split "ls -l  /tmp" = Ok ["ls"; "-l"; "/tmp"].
Proof. reflexivity. Qed.

Example shlex_quotes :
  Shlex.split ("printf 'a b' " ++ dq ++ "c\" ++ dq ++ "d" ++ dq ++ " e\ f ''")
  = Ok ["printf"; "a b"; ("c" ++ dq ++ "d")%string; "e f"; EmptyString].
Proof. reflexivity. Qed.

Example shlex_unbalanced :
  Shlex.split ("echo " ++ dq ++ "hi") = Raise (ValueError "No closing quotation").
Proof. reflexivity. Qed.

Example str_examples :
  PyStr.str 0 = "0" /\ PyStr.str 12 = "12" /\ PyStr.int "007" = 7 /\
  PyStr.strip "  a b  " = "a b" /\
  PyStr.split "|" "a|b||" = ["a"; "b"; EmptyString; EmptyString] /\
  PyStr.join " " ["a"; "b"; "c"] = "a b c".
Proof. repeat split; reflexivity. Qed.

(** ** Strings and dictionaries *)

Lemma split_aux_length (c : ascii) (s cur : string) :
  length (PyStr.split_aux c s cur) = S (PyStr.count c s).
Proof.
  revert cur; induction s as [|d r IH]; intros cur; simpl; [reflexivity|].
  destruct (Ascii.eqb c d); simpl; rewrite IH; reflexivity.
Qed.

(** [s.split(c)] has one piece more than [s] has occurrences of [c]. *)
Lemma split_length (c : ascii) (s : string) :
  length (PyStr.split c s) = S (PyStr.count c s).
Proof. apply split_aux_length. Qed.

Lemma contains_count (c : ascii) (s : string) :
  PyStr.contains c s = true <-> 1 <= PyStr.count c s.
Proof.
  induction s as [|d r IH]; simpl.
  - split; [discriminate | lia].
  - destruct (Ascii.eqb c d); simpl; [split; [lia | reflexivity] | exact IH].
Qed.

Lemma dict_del_keys {V} (k : nat) (d : list (nat * V)) (x : nat) :
  In x (dict_keys (dict_del Nat.eqb k d)) -> In x (dict_keys d) /\ x <> k.
Proof.
  unfold dict_keys, dict_del. intros H.
  apply in_map_iff in H. destruct H as [[k' v] [E H]]. simpl in E; subst k'.
  apply filter_In in H. destruct H as [H N]. simpl in N.
  split.
  - apply in_map_iff. exists (x, v). split; [reflexivity | exact H].
  - intros ->. rewrite Nat.eqb_refl in N. discriminate.
Qed.

Lemma dict_del_get {V} (k : nat) (d : list (nat * V)) :
  dict_get Nat.eqb k (dict_del Nat.eqb k d) = None.
Proof.
  induction d as [|[k' v] r IH]; simpl; [reflexivity|].
  destruct (Nat.eqb k k') eqn:E; simpl; [exact IH | rewrite E; exact IH].
Qed.

Lemma dict_del_NoDup {V} (k : nat) (d : list (nat * V)) :
  NoDup (dict_keys d) -> NoDup (dict_keys (dict_del Nat.eqb k d)).
Proof.
  induction d as [|[k' v] r IH]; simpl; intros H; [constructor|].
  inversion H as [|? ? Hn Hr]; subst.
  destruct (Nat.eqb k k'); simpl; [apply IH; exact Hr|].
  constructor; [|apply IH; exact Hr].
  intros Hin. apply dict_del_keys in Hin. apply Hn, Hin.
Qed.

(** Removing a key that is not bound changes nothing. *)
Lemma dict_del_absent {V} (k : nat) (d : list (nat * V)) :
  ~ In k (dict_keys d) -> dict_del Nat.eqb k d = d.
Proof.
  induction d as [|[k' v] r IH]; simpl; intros H; [reflexivity|].
  destruct (Nat.eqb k k') eqn:E.
  - apply Nat.eqb_eq in E. subst. exfalso. apply H. left. reflexivity.
  - simpl. f_equal. apply IH. intros Hin. apply H. right. exact Hin.
Qed.

(** Binding a new key appends it. *)
Lemma dict_set_fresh {V} (k : nat) (v : V) (d : list (nat * V)) :
  ~ In k (dict_keys d) -> dict_set Nat.eqb k v d = d ++ [(k, v)].
Proof.
  induction d as [|[k' v'] r IH]; simpl; intros H; [reflexivity|].
  destruct (Nat.eqb k k') eqn:E.
  - apply Nat.eqb_eq in E. subst. exfalso. apply H. left. reflexivity.
  - f_equal. apply IH. intros Hin. apply H. right. exact Hin.
Qed.

Lemma dict_set_keys {V} (k : nat) (v : V) (d : list (nat * V)) (x : nat) :
  In x (dict_keys (dict_set Nat.eqb k v d)) -> In x (dict_keys d) \/ x = k.
Proof.
  induction d as [|[k' v'] r IH]; simpl.
  - intros [H|[]]. right. symmetry. exact H.
  - destruct (Nat.eqb k k') eqn:E; simpl.
    + intros H. left. exact H.
    + intros [H|H]; [left; left; exact H|].
      destruct (IH H) as [H'|H']; [left; right; exact H' | right; exact H'].
Qed.

Lemma dict_set_values {V} (P : V -> Prop) (k : nat) (v : V) (d : list (nat * V)) :
  P v -> Forall (fun kv => P (snd kv)) d ->
  Forall (fun kv => P (snd kv)) (dict_set Nat.eqb k v d).
Proof.
  intros Hv. induction d as [|[k' v'] r IH]; simpl; intros H.
  - constructor; [exact Hv | constructor].
  - inversion H; subst. destruct (Nat.eqb k k'); constructor; auto.
Qed.

Lemma dict_get_In {V} (k : nat) (d : list (nat * V)) (v : V) :
  dict_get Nat.eqb k d = Some v -> In (k, v) d.
Proof.
  induction d as [|[k' v'] r IH]; simpl; [discriminate|].
  destruct (Nat.eqb k k') eqn:E.
  - apply Nat.eqb_eq in E. intros [= ->]. subst. left. reflexivity.
  - intros H. right. apply IH, H.
Qed.

(** ** The dispatch chain *)

Lemma orb_false_l_r (a b : bool) : a || b = false -> a = false /\ b = false.
Proof. destruct a, b; simpl; intros H; try discriminate; split; reflexivity. Qed.

(** A name the chain does not handle reaches the external branch. *)
Lemma dispatch_external (w : world) (command name : string) (parts args : list string) :
  is_builtin name = false ->
  dispatch w command name parts args = run_external w command name parts.
Proof.
  unfold is_builtin. intros H.
  apply orb_false_l_r in H. destruct H as [H Hplain].
  apply orb_false_l_r in H. destruct H as [H Hargs].
  apply orb_false_l_r in H. destruct H as [H Hfile].
  unfold mem in H. simpl in H.
  repeat (apply orb_false_l_r in H; let E := fresh "E" in destruct H as [E H]).
  unfold dispatch.
  rewrite E, E0, E1, E2, E3, E4, E5, E6, E7, E8, Hfile, Hargs, Hplain.
  reflexivity.
Qed.

(** [execute_command] on a line that tokenizes: the chain is entered with
    the words [words] computes. *)
Lemma execute_command_words (w : world) (line command name : string)
  (args : list string) (m : machine) :
  line <> EmptyString ->
  words (aliases (self m)) line = Ok (command, name :: args) ->
  execute_command w line m = dispatch w command name (name :: args) args m.
Proof.
  intros Hne Hw. destruct line as [|c r]; [contradiction|].
  unfold execute_command, expand_alias, bind, get_self, lift.
  rewrite Hw. reflexivity.
Qed.

(** A line on which tokenizing or alias substitution fails: the error
    leaves [execute_command] with nothing done. *)
Lemma execute_command_raises (w : world) (line : string) (e : exn) (m : machine) :
  line <> EmptyString ->
  words (aliases (self m)) line = Raise e ->
  execute_command w line m = (Raise e, m).
Proof.
  intros Hne Hw. destruct line as [|c r]; [contradiction|].
  unfold execute_command, expand_alias, bind, get_self, lift.
  rewrite Hw. reflexivity.
Qed.

(** ** The prompt loop has no handler of its own *)

(** Unfold the monad's operations and project the machine's fields. *)
Ltac msimpl :=
  unfold bind, ret, raise, lift, print, emit, get_self, update, try_except,
    try_finally, prompt;
  cbn [self spawned trace].

Lemma myshell_loop_returns (w : world) (cmd : string) (rest : list input)
  (m m' : machine) :
  PyStr.strip cmd <> EmptyString ->
  execute_command w (PyStr.strip cmd) (entering (PyStr.strip cmd) m) = (Ok tt, m') ->
  myshell_loop (Line cmd w :: rest) m = myshell_loop rest (returned m').
Proof.
  intros Hne H. simpl. unfold dispatch_line.
  destruct (PyStr.strip cmd) as [|c r]; [contradiction|].
  unfold entering, push_event, with_self in H. cbn [self spawned trace] in H.
  msimpl. rewrite H. reflexivity.
Qed.

Lemma myshell_loop_raises (w : world) (cmd : string) (rest : list input)
  (m m' : machine) (e : exn) :
  PyStr.strip cmd <> EmptyString ->
  execute_command w (PyStr.strip cmd) (entering (PyStr.strip cmd) m) = (Raise e, m') ->
  myshell_loop (Line cmd w :: rest) m = (Raise e, m').
Proof.
  intros Hne H. simpl. unfold dispatch_line.
  destruct (PyStr.strip cmd) as [|c r]; [contradiction|].
  unfold entering, push_event, with_self in H. cbn [self spawned trace] in H.
  msimpl. rewrite H. reflexivity.
Qed.

(** ** Relations every computation of the engine respects

    A reflexive and transitive relation between the machine before and the
    machine after is respected by a whole session as soon as the few steps
    that change the machine respect it: an event other than the forwarded
    suspend signal, the creation of a process, the updates of the alias
    table, the removal of a job, the two [foreground_*] assignments of the
    prompt loop, the signal handler and the background registration. *)

Section Respects.
Variable R : machine -> machine -> Prop.
Hypothesis R_refl : forall m, R m m.
Hypothesis R_trans : forall a b c, R a b -> R b c -> R a c.

Lemma respects_ret {A} (a : A) : respects R (ret a).
Proof. intros m r m' [= <- <-]. apply R_refl. Qed.

Lemma respects_raise {A} (e : exn) : respects R (@raise A e).
Proof. intros m r m' [= <- <-]. apply R_refl. Qed.

Lemma respects_lift {A} (x : result A) : respects R (lift x).
Proof. intros m r m' [= <- <-]. apply R_refl. Qed.

Lemma respects_get_self : respects R get_self.
Proof. intros m r m' [= <- <-]. apply R_refl. Qed.

Lemma respects_bind {A B} (c : M A) (k : A -> M B) :
  respects R c -> (forall a, respects R (k a)) -> respects R (bind c k).
Proof.
  intros Hc Hk m r m'. unfold bind.
  destruct (c m) as [[a|e] m1] eqn:E.
  - intros H. eapply R_trans; [eapply Hc, E | eapply Hk, H].
  - intros [= <- <-]. eapply Hc, E.
Qed.

Lemma respects_try_except {A} (c : M A) (h : exn -> M A) :
  respects R c -> (forall e, respects R (h e)) -> respects R (try_except c h).
Proof.
  intros Hc Hh m r m'. unfold try_except.
  destruct (c m) as [[a|e] m1] eqn:E.
  - intros [= <- <-]. eapply Hc, E.
  - intros H. eapply R_trans; [eapply Hc, E | eapply Hh, H].
Qed.

Lemma respects_try_finally {A} (c : M A) (f : M unit) :
  respects R c -> respects R f -> respects R (try_finally c f).
Proof.
  intros Hc Hf m r m'. unfold try_finally.
  destruct (c m) as [r1 m1] eqn:E.
  destruct (f m1) as [[u|e] m2] eqn:F; intros [= <- <-];
    (eapply R_trans; [eapply Hc, E | eapply Hf, F]).
Qed.

Lemma respects_read_local {A} (name : string) (v : option A) :
  respects R (read_local name v).
Proof. destruct v; [apply respects_ret | apply respects_raise]. Qed.

Lemma respects_index0 (l : list string) : respects R (index0 l).
Proof. destruct l; [apply respects_raise | apply respects_ret]. Qed.

Hypothesis R_emit : forall e, sigtstp_sent e = false -> respects R (emit e).
Hypothesis R_spawn : forall m h argv i o e,
  R m {| self := self m; spawned := S (spawned m);
         trace := trace m ++ [Spawn h argv i o e] |}.
Hypothesis R_aliases : forall f,
  respects R (update (fun s => set_aliases (f s) s)).
Hypothesis R_del : forall k,
  respects R (update (fun s => set_jobs (dict_del Nat.eqb k (jobs s)) s)).
Hypothesis R_foreground_process : respects R (update (set_foreground_process None)).
Hypothesis R_foreground_command : forall c, respects R (update (set_foreground_command c)).
Hypothesis R_handle_signal : forall sig, respects R (handle_signal sig).
Hypothesis R_launch_background : forall w cp, respects R (launch_background w cp).

Ltac resp :=
  repeat first
    [ apply respects_ret | apply respects_raise | apply respects_lift
    | apply respects_get_self | apply respects_read_local | apply respects_index0
    | apply R_handle_signal | apply R_launch_background
    | apply R_aliases | apply R_del
    | apply R_foreground_process | apply R_foreground_command
    | apply R_emit; reflexivity
    | apply respects_bind; [ | intros ? ]
    | apply respects_try_except; [ | intros ? ]
    | apply respects_try_finally
    | assumption
    | match goal with
      | |- respects R (if ?b then _ else _) => destruct b
      | |- respects R (match ?x with _ => _ end) => destruct x
      end ].

Lemma respects_Popen w argv i o e : respects R (Popen w argv i o e).
Proof.
  intros m r m'. unfold Popen. destruct argv as [|a l].
  - intros [= <- <-]. apply R_refl.
  - destruct (popen_error w (a :: l)); intros [= <- <-];
      [apply R_refl | apply R_spawn].
Qed.

Lemma respects_wait w p : respects R (wait w p).
Proof. unfold wait. resp. Qed.

Lemma respects_subprocess_run w argv o e : respects R (subprocess_run w argv o e).
Proof.
  unfold subprocess_run.
  apply respects_bind; [apply respects_Popen | intros p].
  apply respects_try_except; [apply respects_wait | intros x]. resp.
Qed.

Lemma respects_open_file w path mode : respects R (open_file w path mode).
Proof. unfold open_file. resp. Qed.

Lemma respects_close_if f : respects R (close_if f).
Proof. unfold close_if. resp. Qed.

Lemma respects_collaborator w name args : respects R (collaborator w name args).
Proof. unfold collaborator. resp. Qed.

Lemma respects_print_aliases items : respects R (print_aliases items).
Proof.
  induction items as [|[a c] r IH]; simpl; [apply respects_ret|].
  unfold print. resp.
Qed.

Lemma respects_builtin_alias args : respects R (builtin_alias args).
Proof.
  unfold builtin_alias. destruct args as [|a0 r].
  - apply respects_bind; [apply respects_get_self | intros s].
    apply respects_print_aliases.
  - destruct (PyStr.contains "=" a0); [|unfold print; resp].
    destruct (split1 "=" a0) as [name value]. resp.
Qed.

Lemma respects_builtin_unalias args : respects R (builtin_unalias args).
Proof. unfold builtin_unalias, print. resp. Qed.

Lemma respects_jobs_loop w items : respects R (jobs_loop w items).
Proof.
  induction items as [|[k j] r IH]; simpl; [apply respects_ret|].
  unfold print. resp.
Qed.

Lemma respects_builtin_jobs w : respects R (builtin_jobs w).
Proof.
  unfold builtin_jobs.
  apply respects_bind; [apply respects_get_self | intros s].
  apply respects_jobs_loop.
Qed.

Lemma respects_builtin_fg w args : respects R (builtin_fg w args).
Proof.
  unfold builtin_fg, print. destruct args as [|a0 r]; [resp|].
  destruct (PyStr.isdigit a0); [|resp].
  apply respects_bind; [apply respects_get_self | intros s].
  destruct (dict_get Nat.eqb (PyStr.int a0) (jobs s)); [|resp].
  apply respects_bind; [apply R_del | intros _].
  apply respects_bind; [resp | intros _].
  apply respects_try_except; [apply respects_wait | intros e]. resp.
Qed.

Lemma respects_builtin_bg w args : respects R (builtin_bg w args).
Proof.
  intros m r m'. unfold builtin_bg, bg_job_info, print.
  destruct args as [|a0 l]; [apply R_emit; reflexivity|].
  destruct (PyStr.isdigit a0); [|apply R_emit; reflexivity].
  msimpl. destruct (dict_mem Nat.eqb (PyStr.int a0) (jobs (self m))) eqn:E;
    simpl; intros [= <- <-]; [apply R_refl|].
  eapply (R_emit (Print _)); [reflexivity | unfold emit; reflexivity].
Qed.

Lemma respects_builtin_sleep w args : respects R (builtin_sleep w args).
Proof. unfold builtin_sleep, print. resp. Qed.

Lemma respects_builtin_config args : respects R (builtin_config args).
Proof. unfold builtin_config, print. resp. Qed.

Lemma respects_builtin_network args : respects R (builtin_network args).
Proof. unfold builtin_network, print. resp. Qed.

Lemma respects_split_stages pieces : respects R (split_stages pieces).
Proof. induction pieces as [|p r IH]; simpl; resp. Qed.

Lemma respects_pipeline_loop w pipes : forall i n lo pr,
  respects R (pipeline_loop w pipes i n lo pr).
Proof.
  induction pipes as [|c r IH]; simpl; intros i n lo pr; [apply respects_ret|].
  apply respects_bind; [apply respects_Popen | intros p].
  apply respects_bind; [resp | intros _]. apply IH.
Qed.

Lemma respects_run_pipeline w command : respects R (run_pipeline w command).
Proof.
  unfold run_pipeline.
  apply respects_bind; [apply respects_split_stages | intros pipes].
  apply respects_bind; [apply respects_pipeline_loop | intros pr].
  destruct pr; [apply respects_wait | apply respects_ret].
Qed.

Lemma respects_scan_redirect w parts : forall seen,
  respects R (scan_redirect w parts seen).
Proof.
  induction parts as [|part r IH]; simpl; intros seen; [apply respects_ret|].
  destruct (is_redirect part); [|apply IH].
  destruct r as [|target r']; [unfold print; resp|].
  repeat match goal with
         | |- respects R (if ?b then _ else _) => destruct b
         end;
    (apply respects_bind; [apply respects_open_file | intros f; apply respects_ret]).
Qed.

Lemma respects_launch_handler name e : respects R (launch_handler name e).
Proof. unfold launch_handler, print. resp. Qed.

Lemma respects_run_single w command name parts :
  respects R (run_single w command name parts).
Proof.
  unfold run_single.
  apply respects_bind; [apply respects_scan_redirect | intros [rd|]];
    [|apply respects_ret].
  apply respects_try_finally.
  - apply respects_try_except; [|intros e; apply respects_launch_handler].
    unfold launch. destruct (PyStr.endswith "&" command);
      [apply R_launch_background | apply respects_subprocess_run].
  - unfold close_redirects.
    apply respects_bind; [apply respects_close_if | intros _; apply respects_close_if].
Qed.

Lemma respects_run_external w command name parts :
  respects R (run_external w command name parts).
Proof.
  unfold run_external. destruct (PyStr.contains "|" command);
    [apply respects_run_pipeline | apply respects_run_single].
Qed.

Lemma respects_dispatch w command name parts args :
  respects R (dispatch w command name parts args).
Proof.
  unfold dispatch, print.
  repeat match goal with
         | |- respects R (if ?b then _ else _) => destruct b
         end;
    first [ apply respects_builtin_alias | apply respects_builtin_unalias
          | apply respects_builtin_jobs | apply respects_builtin_fg
          | apply respects_builtin_bg | apply respects_builtin_sleep
          | apply respects_collaborator | apply respects_builtin_config
          | apply respects_builtin_network | apply respects_run_external
          | resp ].
Qed.

Lemma respects_execute_command w command : respects R (execute_command w command).
Proof.
  unfold execute_command, expand_alias. destruct command; [apply respects_ret|].
  apply respects_bind; [resp | intros cp].
  apply respects_bind; [resp | intros name]. apply respects_dispatch.
Qed.

Lemma respects_dispatch_line w cmd : respects R (dispatch_line w cmd).
Proof.
  unfold dispatch_line.
  apply respects_bind; [apply R_foreground_command | intros _].
  destruct (PyStr.strip cmd) eqn:E; [apply respects_ret|]. rewrite <- E.
  apply respects_bind; [resp | intros _].
  apply respects_bind; [apply respects_execute_command | intros _]. resp.
Qed.

Lemma respects_myshell_loop inputs : respects R (myshell_loop inputs).
Proof.
  induction inputs as [|i r IH]; [apply respects_ret|].
  destruct i as [cmd w| | |]; cbn [myshell_loop]; unfold print, prompt.
  - apply respects_bind; [apply respects_dispatch_line | intros _]. resp.
  - resp.
  - resp.
  - resp.
Qed.

(** The whole session respects R the relation. *)
Lemma respects_myshell inputs : respects R (myshell inputs).
Proof.
  unfold myshell, prompt.
  apply respects_bind; [resp | intros _; apply respects_myshell_loop].
Qed.
End Respects.

(** ** The foreground process is never tracked *)

(** The handler does nothing when no foreground process is tracked. *)
Lemma handle_signal_untracked (sig : signal) (m : machine) :
  untracked (self m) -> handle_signal sig m = (Ok tt, m).
Proof.
  intros [H|H]; destruct sig; unfold handle_signal; msimpl; rewrite ?H;
    reflexivity.
Qed.

Lemma inert_refl (m : machine) : inert m m.
Proof.
  intros H. split; [exact H|]. split; [|auto].
  exists []. rewrite app_nil_r. split; [reflexivity | constructor].
Qed.

Lemma inert_trans (a b c : machine) : inert a b -> inert b c -> inert a c.
Proof.
  intros Hab Hbc Ha.
  destruct (Hab Ha) as [Hb [[e1 [T1 F1]] R1]].
  destruct (Hbc Hb) as [Hc [[e2 [T2 F2]] R2]].
  split; [exact Hc|]. split; [|auto].
  exists (e1 ++ e2). rewrite T2, T1, app_assoc. split; [reflexivity|].
  apply Forall_app. split; assumption.
Qed.

(** A step that leaves [foreground_process] alone, appends events other
    than a forwarded suspend signal and keeps the jobs running. *)
Lemma inert_step (m m' : machine) (evs : list event) :
  foreground_process (self m') = foreground_process (self m) ->
  trace m' = trace m ++ evs ->
  Forall (fun e => sigtstp_sent e = false) evs ->
  (all_running (self m) -> all_running (self m')) ->
  inert m m'.
Proof.
  intros Hf Ht He Hr Hu. split; [unfold untracked in *; rewrite Hf; exact Hu|].
  split; [exists evs; split; assumption | exact Hr].
Qed.

Lemma inert_launch_background (w : world) (cp : list string) :
  respects inert (launch_background w cp).
Proof.
  intros m r m'. unfold launch_background. msimpl.
  destruct (Shlex.split _) as [[|a l]|e]; try (intros [= <- <-]; apply inert_refl).
  unfold Popen. destruct (popen_error w (a :: l)); msimpl;
    intros [= <- <-]; [apply inert_refl|].
  eapply inert_step; cbn [self trace];
    [reflexivity | rewrite <- app_assoc; reflexivity | repeat constructor |].
  intros H. unfold all_running in *. cbn [jobs set_jobs set_next_job_id].
  apply (dict_set_values (fun j => status j = running)); [reflexivity | exact H].
Qed.

(** Every session respects [inert]. *)
Lemma inert_myshell (inputs : list input) : respects inert (myshell inputs).
Proof.
  apply respects_myshell.
  - exact inert_refl.
  - exact inert_trans.
  - intros e He m r m' [= <- <-].
    apply (inert_step _ _ [e]); [reflexivity | reflexivity | | auto].
    constructor; [exact He | constructor].
  - intros m h argv i o e.
    apply (inert_step _ _ [Spawn h argv i o e]);
      [reflexivity | reflexivity | repeat constructor | auto].
  - intros f m r m' [= <- <-].
    apply (inert_step _ _ []);
      [reflexivity | symmetry; apply app_nil_r | constructor | auto].
  - intros k m r m' [= <- <-].
    apply (inert_step _ _ []);
      [reflexivity | symmetry; apply app_nil_r | constructor |].
    unfold all_running, dict_del. cbn [self jobs set_jobs]. intros H.
    apply Forall_forall. intros x Hx. apply filter_In in Hx.
    destruct Hx as [Hx _]. rewrite Forall_forall in H. apply H, Hx.
  - intros m r m' [= <- <-] _. split; [right; reflexivity|].
    split; [|auto]. exists []. split; [symmetry; apply app_nil_r | constructor].
  - intros c m r m' [= <- <-].
    apply (inert_step _ _ []);
      [reflexivity | symmetry; apply app_nil_r | constructor | auto].
  - intros sig m r m' H Hu. rewrite (handle_signal_untracked sig m Hu) in H.
    injection H as <- <-. apply inert_refl, Hu.
  - exact inert_launch_background.
Qed.

(** ** The job counter *)

Lemma counted_refl (m : machine) : counted m m.
Proof. split; [lia|]. split; [auto | intros k H; left; exact H]. Qed.

Lemma counted_trans (a b c : machine) : counted a b -> counted b c -> counted a c.
Proof.
  intros [L1 [W1 F1]] [L2 [W2 F2]]. split; [lia|]. split; [auto|].
  intros k H. destruct (F2 k H) as [H'|H']; [|right; lia].
  destruct (F1 k H') as [H''|H'']; [left; exact H'' | right; exact H''].
Qed.

Lemma counted_keeps (m m' : machine) : keeps_jobs m m' -> counted m m'.
Proof.
  intros [Hj Hn]. unfold counted, well_formed. rewrite Hj, Hn.
  split; [lia|]. split; [auto | intros k H; left; exact H].
Qed.

Lemma counted_registers (m m' : machine) : registers m m' -> counted m m'.
Proof.
  intros [j [Hj Hn]]. unfold counted, well_formed. rewrite Hj, Hn.
  split; [lia|]. split.
  - intros [Hb Hd].
    assert (Hfresh : ~ In (next_job_id (self m)) (dict_keys (jobs (self m)))).
    { intros Hin. rewrite Forall_forall in Hb. specialize (Hb _ Hin). lia. }
    rewrite (dict_set_fresh _ _ _ Hfresh). unfold dict_keys.
    rewrite map_app. simpl. split.
    + apply Forall_app. split.
      * eapply Forall_impl; [|exact Hb]. simpl. intros; lia.
      * constructor; [lia | constructor].
    + apply NoDup_app; [exact Hd | repeat constructor; intros [] | ].
      intros x Hx [<-|[]]. apply Hfresh, Hx.
  - intros k H. apply dict_set_keys in H. destruct H as [H| ->]; [left; exact H | right; lia].
Qed.

(** The background registration, the first of the two places where a job
    is created. *)
Lemma launch_background_registers (w : world) (cp : list string)
  (m m' : machine) (r : result unit) :
  launch_background w cp m = (r, m') -> keeps_jobs m m' \/ registers m m'.
Proof.
  unfold launch_background. msimpl.
  destruct (Shlex.split _) as [[|a l]|e];
    try (intros [= <- <-]; left; split; reflexivity).
  unfold Popen. destruct (popen_error w (a :: l)); msimpl;
    intros [= <- <-]; [left; split; reflexivity|].
  right. eexists. split; reflexivity.
Qed.

(** The signal handler, the second place. *)
Lemma handle_signal_registers (sig : signal) (m m' : machine) (r : result unit) :
  handle_signal sig m = (r, m') -> keeps_jobs m m' \/ registers m m'.
Proof.
  unfold handle_signal, get_foreground_command. destruct sig; msimpl;
    try (intros [= <- <-]; left; split; reflexivity).
  destruct (foreground_process (self m)) as [[p|]|];
    try (intros [= <- <-]; left; split; reflexivity).
  destruct (foreground_command (self m)) as [c|]; cbn; intros [= <- <-].
  - right. eexists. split; reflexivity.
  - left. split; reflexivity.
Qed.

(** The prompt loop respects [counted], from any machine. *)
Lemma counted_myshell_loop (inputs : list input) :
  respects counted (myshell_loop inputs).
Proof.
  apply respects_myshell_loop.
  - exact counted_refl.
  - exact counted_trans.
  - intros e _ m r m' [= <- <-]. apply counted_keeps. split; reflexivity.
  - intros m h argv i o e. apply counted_keeps. split; reflexivity.
  - intros f m r m' [= <- <-]. apply counted_keeps. split; reflexivity.
  - intros k m r m' [= <- <-]. unfold counted, well_formed.
    cbn [self jobs next_job_id set_jobs]. split; [lia|]. split.
    + intros [Hb Hd]. split; [|apply dict_del_NoDup, Hd].
      apply Forall_forall. intros x Hx. apply dict_del_keys in Hx.
      rewrite Forall_forall in Hb. apply Hb, Hx.
    + intros x Hx. apply dict_del_keys in Hx. left. apply Hx.
  - intros m r m' [= <- <-]. apply counted_keeps. split; reflexivity.
  - intros c m r m' [= <- <-]. apply counted_keeps. split; reflexivity.
  - intros sig m r m' H. apply handle_signal_registers in H.
    destruct H; [apply counted_keeps | apply counted_registers]; assumption.
  - intros w cp m r m' H. apply launch_background_registers in H.
    destruct H; [apply counted_keeps | apply counted_registers]; assumption.
Qed.

(** ** States a session reaches *)

(** In every state a session reaches no foreground process is tracked. *)
Lemma reached_untracked (loaded_aliases : list (string * string))
  (inputs : list input) (r : result session) (m : machine) :
  myshell inputs (boot loaded_aliases) = (r, m) -> untracked (self m).
Proof.
  intros H. apply (inert_myshell inputs _ _ _ H). left. reflexivity.
Qed.

(** In every state a session reaches the job table binds no id twice and
    every id is below the counter. *)
Lemma reached_well_formed (loaded_aliases : list (string * string))
  (inputs : list input) (r : result session) (m : machine) :
  myshell inputs (boot loaded_aliases) = (r, m) -> well_formed (self m).
Proof.
  intros H. unfold myshell, bind, prompt, emit in H. cbn [self spawned trace] in H.
  apply (counted_myshell_loop inputs _ _ _ H). split; constructor.
Qed.

(** ** C1: errors of one command and the session *)

Lemma close_redirects_events (rd : redirection) (m : machine) :
  close_redirects rd m = (Ok tt, push_events (close_events rd) m).
Proof.
  unfold close_redirects, close_events, close_if, push_events.
  destruct m as [s n t].
  destruct (stdout_redirect rd), (stderr_redirect rd); msimpl;
    rewrite <- ?app_assoc, ?app_nil_r; reflexivity.
Qed.

(** An error of class [Exception] raised by the launch is caught, reported
    and followed by the closing of the redirection files. *)
Lemma guarded_launch_caught (w : world) (command name : string)
  (rd : redirection) (e : exn) (m1 m2 : machine) :
  launch w command rd m1 = (Raise e, m2) ->
  is_Exception e = true ->
  try_finally (try_except (launch w command rd) (launch_handler name))
    (close_redirects rd) m1
  = (Ok tt, push_events (Print (launch_message name e) :: close_events rd) m2).
Proof.
  intros H He. unfold try_finally, try_except. rewrite H.
  unfold launch_handler, launch_message.
  destruct (is_FileNotFoundError e); [|rewrite He]; msimpl;
    rewrite close_redirects_events; unfold push_events; cbn [self spawned trace];
    rewrite <- app_assoc; reflexivity.
Qed.

(** C1, as the code has it. An error raised while a single-stage external
    command is launched (the program is not found, or any other error of
    class [Exception] inside the [try] block) is caught inside
    [execute_command]: a message is printed, the redirection files are
    closed and the session goes on to the next prompt. The prompt loop
    itself has no handler around [execute_command]: when tokenizing the
    line fails (unbalanced quoting), the error leaves the loop and the
    session ends, the remaining input unread. *)
Theorem launch_errors_caught (w : world) (cmd command name : string)
  (args : list string) (rest : list input) (rd : redirection) (e : exn)
  (m m1 m2 : machine) :
  PyStr.strip cmd <> EmptyString ->
  words (aliases (self m)) (PyStr.strip cmd) = Ok (command, name :: args) ->
  is_builtin name = false ->
  PyStr.contains "|" command = false ->
  scan_redirect w (name :: args) [] (entering (PyStr.strip cmd) m) = (Ok (Some rd), m1) ->
  launch w command rd m1 = (Raise e, m2) ->
  is_Exception e = true ->
  myshell_loop (Line cmd w :: rest) m
  = myshell_loop rest
      (returned (push_events (Print (launch_message name e) :: close_events rd) m2))
  /\
  (forall cmd' e',
     PyStr.strip cmd' <> EmptyString ->
     words (aliases (self m)) (PyStr.strip cmd') = Raise e' ->
     myshell_loop (Line cmd' w :: rest) m = (Raise e', entering (PyStr.strip cmd') m)).
Proof.
  intros Hne Hw Hb Hp Hs Hl He. split.
  - apply myshell_loop_returns; [exact Hne|].
    rewrite (execute_command_words w _ command name args); [|exact Hne|exact Hw].
    rewrite dispatch_external by exact Hb.
    unfold run_external. rewrite Hp. unfold run_single.
    unfold bind at 1. rewrite Hs.
    apply guarded_launch_caught; assumption.
  - intros cmd' e' Hne' Hw'. apply myshell_loop_raises; [exact Hne'|].
    apply execute_command_raises; [exact Hne' | exact Hw'].
Qed.

(** The unknown command [frobnicate123] is reported and the next line is
    read. *)
Lemma launch_errors_caught_witness :
  myshell_loop [Line "frobnicate123" barren; Line "echo ok" calm] (boot [])
  = myshell_loop [Line "echo ok" calm]
      (returned (push_events [Print "frobnicate123: command not found"]
                   (entering "frobnicate123" (boot [])))).
Proof.
  refine (proj1 (launch_errors_caught barren "frobnicate123" "frobnicate123"
            "frobnicate123" [] [Line "echo ok" calm]
            {| command_parts := ["frobnicate123"]; stdout_redirect := None;
               stderr_redirect := None |}
            (FileNotFoundError "[Errno 2] No such file or directory")
            (boot []) (entering "frobnicate123" (boot []))
            (entering "frobnicate123" (boot [])) _ _ _ _ _ _ _));
    try reflexivity.
  discriminate.
Defined.

(** C1 fails as stated: the line made of [echo], a double quote and [hi],
    its quote left open, ends the session; the line after it is never
    dispatched. *)
Lemma unbalanced_quote_ends_session :
  ~ survives calm ("echo " ++ dq ++ "hi") (boot []) /\
  fst (myshell [Line ("echo " ++ dq ++ "hi") calm; Line "echo ok" calm] (boot []))
  = Raise (ValueError "No closing quotation").
Proof.
  split; [|reflexivity].
  intros [m' H]. vm_compute in H. discriminate.
Qed.

(** ** C2: the suspend signal *)

(** C2 fails on the code: [foreground_process] is never assigned a process,
    so the handler finds nothing to suspend. In no session, whatever is
    typed and whenever Ctrl+Z arrives, is a suspend signal forwarded to a
    child or a suspended job registered. *)
Theorem suspend_never_forwarded (loaded_aliases : list (string * string))
  (inputs : list input) :
  Forall (fun e => sigtstp_sent e = false)
    (trace (snd (myshell inputs (boot loaded_aliases)))) /\
  Forall (fun kj => status (snd kj) = running)
    (jobs (self (snd (myshell inputs (boot loaded_aliases))))) /\
  untracked (self (snd (myshell inputs (boot loaded_aliases)))).
Proof.
  destruct (myshell inputs (boot loaded_aliases)) as [r m] eqn:E.
  destruct (inert_myshell inputs _ _ _ E) as [Hu [[evs [Ht Hf]] Hr]];
    [left; reflexivity|].
  simpl in Ht. cbn [snd]. rewrite Ht. split; [exact Hf|]. split; [|exact Hu].
  apply Hr. constructor.
Qed.

(** The foreground command [vim notes.txt] with Ctrl+Z pressed while the
    shell waits for it: the child is waited for, nothing is forwarded,
    nothing is printed and the job table stays empty. *)
Example suspend_foreground_child :
  myshell [Line "vim notes.txt" stopping] (boot [])
  = (Ok Prompting,
     {| self := {| aliases := []; jobs := []; next_job_id := 1;
                   foreground_process := Some None;
                   foreground_command := Some None |};
        spawned := 1;
        trace := [Prompt; AddHistory "vim notes.txt";
                  Spawn 0 ["vim"; "notes.txt"] Inherit Inherit Inherit;
                  Wait 0; Prompt] |}).
Proof. reflexivity. Qed.

(** What the handler does once a process is tracked, which no session
    brings about: the signal is forwarded, the two notices are printed, the
    process is registered as a suspended job under the counter's value with
    the command text, the counter advances and both [foreground_*]
    attributes are cleared. *)
Lemma handle_signal_tracked (p : handle) (c : option string) (m : machine) :
  foreground_process (self m) = Some (Some p) ->
  foreground_command (self m) = Some c ->
  handle_signal SIGTSTP m
  = (Ok tt,
     {| self :=
          {| aliases := aliases (self m);
             jobs := dict_set Nat.eqb (next_job_id (self m))
                       {| process := p; command := c; status := suspended |}
                       (jobs (self m));
             next_job_id := next_job_id (self m) + 1;
             foreground_process := Some None;
             foreground_command := Some None |};
        spawned := spawned m;
        trace := trace m ++
          [Print (newline ++ "Suspended"); SendSignal p SIGTSTP;
           Print ("[" ++ PyStr.str (next_job_id (self m)) ++ "] Suspended " ++ fmt c)] |}).
Proof.
  intros Hp Hc. unfold handle_signal, get_foreground_command. msimpl.
  rewrite Hp. cbn. rewrite Hc. cbn. rewrite <- !app_assoc. reflexivity.
Qed.

(** ** C3: [bg] *)

(** C3 fails on the code: for the id of a job of the table, whatever its
    status, [bg] reads the local [job_info] before anything was assigned to
    it; the error leaves [execute_command] with no signal sent and the
    table as it was. *)
Theorem bg_existing_job_raises (w : world) (line command a0 : string)
  (rest : list string) (j : job) (m : machine) :
  line <> EmptyString ->
  words (aliases (self m)) line = Ok (command, "bg" :: a0 :: rest) ->
  PyStr.isdigit a0 = true ->
  dict_get Nat.eqb (PyStr.int a0) (jobs (self m)) = Some j ->
  execute_command w line m = (Raise job_info_unbound, m).
Proof.
  intros Hne Hw Hd Hj.
  rewrite (execute_command_words w _ command "bg" (a0 :: rest)) by assumption.
  unfold dispatch. cbn [String.eqb Ascii.eqb Bool.eqb].
  unfold builtin_bg. rewrite Hd. msimpl.
  unfold dict_mem. rewrite Hj. reflexivity.
Qed.

Example session_with_job_reached :
  myshell [Line "sleepx 100 &" calm] (boot []) = (Ok Prompting, session_with_job).
Proof. vm_compute. reflexivity. Qed.

Lemma bg_existing_job_raises_witness :
  execute_command calm "bg 1" session_with_job
  = (Raise job_info_unbound, session_with_job).
Proof.
  apply (bg_existing_job_raises calm "bg 1" "bg 1" "1" []
           {| process := 0; command := Some "sleepx 100"; status := running |});
    [discriminate | reflexivity | reflexivity | reflexivity].
Defined.

(** For an id that is not in the table [bg] reports it and changes
    nothing. *)
Lemma bg_unknown_job (w : world) (line command a0 : string)
  (rest : list string) (m : machine) :
  line <> EmptyString ->
  words (aliases (self m)) line = Ok (command, "bg" :: a0 :: rest) ->
  PyStr.isdigit a0 = true ->
  dict_get Nat.eqb (PyStr.int a0) (jobs (self m)) = None ->
  execute_command w line m
  = (Ok tt, push_event (Print ("bg: job not found: " ++ PyStr.str (PyStr.int a0))) m).
Proof.
  intros Hne Hw Hd Hj.
  rewrite (execute_command_words w _ command "bg" (a0 :: rest)) by assumption.
  unfold dispatch. cbn [String.eqb Ascii.eqb Bool.eqb].
  unfold builtin_bg. rewrite Hd. msimpl.
  unfold dict_mem. rewrite Hj. reflexivity.
Qed.

(** ** C4: pipelines *)

Lemma split_stages_ok (pieces : list string) : forall stages m,
  map Shlex.split pieces = map Ok stages ->
  split_stages pieces m = (Ok stages, m).
Proof.
  induction pieces as [|p r IH]; intros [|st sts] m H; try discriminate.
  - reflexivity.
  - simpl in H. injection H as Hp Hr. simpl. msimpl.
    rewrite Hp. rewrite (IH sts m Hr). reflexivity.
Qed.

(** The loop over the stages from stage [i] on, every stage a program
    that starts: as many processes as stages are created, stage [i + j]
    reads the [stdout] pipe of the process before it and writes to a pipe
    unless it is the last. *)
Lemma pipeline_loop_runs (w : world) (stages : list (list string)) :
  forall (i n : nat) (lo pr : option handle) (m : machine),
    (forall argv, In argv stages -> argv <> [] /\ popen_error w argv = None) ->
    i + length stages = n ->
    (stages <> [] -> lo = if Nat.eqb i 0 then None else Some (spawned m - 1)) ->
    exists m' evs last,
      pipeline_loop w stages i n lo pr m = (Ok last, m') /\
      self m' = self m /\
      spawned m' = spawned m + length stages /\
      trace m' = trace m ++ evs /\
      (stages <> [] -> last = Some (spawned m + length stages - 1)) /\
      (forall j argv, nth_error stages j = Some argv ->
         In (Spawn (spawned m + j) argv
               (if Nat.eqb (i + j) 0 then Inherit else StdoutOf (spawned m + j - 1))
               (if Nat.ltb (i + j) (n - 1) then PIPE else SysStdout) SysStderr) evs).
Proof.
  induction stages as [|argv r IH]; intros i n lo pr m Hall Hn Hlo.
  - exists m, [], pr. simpl. rewrite app_nil_r, Nat.add_0_r.
    repeat split; try reflexivity; [congruence|].
    intros [|j] a H; discriminate.
  - destruct (Hall argv (or_introl eq_refl)) as [Hne Hpo].
    specialize (Hlo ltac:(discriminate)).
    cbn [pipeline_loop]. unfold bind at 1. unfold Popen.
    destruct argv as [|a0 al]; [contradiction|]. rewrite Hpo.
    set (sp := Spawn (spawned m) (a0 :: al)
                 match lo with Some h => StdoutOf h | None => Inherit end
                 (if Nat.ltb i (n - 1) then PIPE else SysStdout) SysStderr).
    set (cl := match lo with Some h => [ClosePipe h] | None => [] end).
    set (m2 := {| self := self m; spawned := S (spawned m);
                  trace := trace m ++ sp :: cl |}).
    assert (Hstep : forall k : unit -> M (option handle),
      bind match lo with Some h => emit (ClosePipe h) | None => ret tt end k
        {| self := self m; spawned := S (spawned m); trace := trace m ++ [sp] |}
      = k tt m2).
    { intros k. unfold m2, cl. destruct lo; msimpl;
        rewrite <- ?app_assoc; reflexivity. }
    rewrite Hstep.
    destruct (IH (S i) n (if Nat.ltb i (n - 1) then Some (spawned m) else None)
                (Some (spawned m)) m2) as [m' [evs [last [Hrun [Hs [Hc [Ht [Hl Hev]]]]]]]].
    + intros x Hx. apply Hall. right. exact Hx.
    + simpl in Hn. lia.
    + intros Hr. destruct r as [|x r']; [contradiction|]. simpl in Hn.
      assert (Hlt : Nat.ltb i (n - 1) = true) by (apply Nat.ltb_lt; lia).
      rewrite Hlt. unfold m2. cbn [spawned Nat.eqb]. f_equal. lia.
    + exists m', (sp :: cl ++ evs), last.
      split; [exact Hrun|].
      unfold m2 in Hs, Hc, Ht. cbn [self spawned trace] in Hs, Hc, Ht.
      repeat split.
      * exact Hs.
      * rewrite Hc. simpl. lia.
      * rewrite Ht. rewrite <- app_assoc. reflexivity.
      * intros _. destruct r as [|x r'].
        -- simpl in Hrun. injection Hrun as <- _. simpl. f_equal. lia.
        -- rewrite (Hl ltac:(discriminate)). unfold m2. cbn [spawned length].
           f_equal. lia.
      * intros [|j] x Hx.
        -- simpl in Hx. injection Hx as <-. left. unfold sp.
           rewrite !Nat.add_0_r. rewrite Hlo.
           destruct (Nat.eqb i 0); reflexivity.
        -- simpl in Hx. right. apply in_or_app. right.
           specialize (Hev j x Hx). unfold m2 in Hev. cbn [spawned] in Hev.
           replace (spawned m + S j) with (S (spawned m) + j) by lia.
           replace (i + S j) with (S i + j) by lia. exact Hev.
Qed.

(** C4, as the code has it. A line whose first word is no built-in and
    which holds [N >= 1] pipe characters, quoted or not, is cut at every one
    of them into [N + 1] pieces, each tokenized on its own. When every piece
    tokenizes to a program that starts, [N + 1] processes are created in
    order; the first inherits the shell's input, every later stage reads the
    [stdout] pipe of the stage before it, every stage but the last writes to
    a pipe and the last to the shell's output; the shell then waits for the
    last stage. *)
Theorem pipeline_stages (w : world) (line command name : string)
  (args : list string) (stages : list (list string)) (m : machine) :
  line <> EmptyString ->
  words (aliases (self m)) line = Ok (command, name :: args) ->
  is_builtin name = false ->
  PyStr.contains "|" command = true ->
  map Shlex.split (PyStr.split "|" command) = map Ok stages ->
  (forall argv, In argv stages -> argv <> [] /\ popen_error w argv = None) ->
  exists m1 evs,
    length stages = S (PyStr.count "|" command) /\
    self m1 = self m /\
    spawned m1 = spawned m + length stages /\
    trace m1 = trace m ++ evs /\
    (forall i argv, nth_error stages i = Some argv ->
       In (Spawn (spawned m + i) argv
             (if Nat.eqb i 0 then Inherit else StdoutOf (spawned m + i - 1))
             (if Nat.ltb i (PyStr.count "|" command) then PIPE else SysStdout)
             SysStderr) evs) /\
    execute_command w line m = wait w (spawned m + PyStr.count "|" command) m1.
Proof.
  intros Hne Hw Hb Hp Hs Hall.
  assert (Hlen : length stages = S (PyStr.count "|" command)).
  { rewrite <- split_length. rewrite <- (length_map Shlex.split), Hs.
    symmetry. apply length_map. }
  destruct (pipeline_loop_runs w stages 0 (length stages) None None m Hall
              eq_refl (fun _ => eq_refl))
    as [m1 [evs [last [Hrun [Hself [Hsp [Ht [Hl Hev]]]]]]]].
  exists m1, evs. repeat split; try assumption.
  - intros i argv Hi. specialize (Hev i argv Hi). simpl in Hev.
    rewrite Hlen in Hev. simpl in Hev. rewrite Nat.sub_0_r in Hev. exact Hev.
  - rewrite (execute_command_words w _ command name args) by assumption.
    rewrite dispatch_external by exact Hb.
    unfold run_external. rewrite Hp. unfold run_pipeline.
    unfold bind at 1. rewrite (split_stages_ok _ stages m Hs).
    unfold bind. cbv beta. rewrite Hrun.
    rewrite Hl by (destruct stages; [discriminate | discriminate]).
    rewrite Hlen. replace (spawned m + S (PyStr.count "|" command) - 1)
      with (spawned m + PyStr.count "|" command) by lia.
    reflexivity.
Qed.

Lemma pipeline_stages_witness :
  exists m1 evs,
    length [["a"; "x"]; ["b"]; ["c"; "y z"]] = 3 /\
    self m1 = self (boot []) /\
    spawned m1 = 3 /\
    trace m1 = evs /\
    (forall i argv, nth_error [["a"; "x"]; ["b"]; ["c"; "y z"]] i = Some argv ->
       In (Spawn i argv (if Nat.eqb i 0 then Inherit else StdoutOf (i - 1))
             (if Nat.ltb i 2 then PIPE else SysStdout) SysStderr) evs) /\
    execute_command calm "a x | b | c 'y z'" (boot []) = wait calm 2 m1.
Proof.
  apply (pipeline_stages calm "a x | b | c 'y z'" "a x | b | c 'y z'" "a"
           ["x"; "|"; "b"; "|"; "c"; "y z"] [["a"; "x"]; ["b"]; ["c"; "y z"]]
           (boot []));
    try reflexivity; try discriminate.
  intros argv [<-|[<-|[<-|[]]]]; split; (discriminate || reflexivity).
Defined.

(** C4 fails as stated: a line with one unquoted and one quoted pipe
    character is cut at both; the first piece is left with an open quote,
    its tokenizing fails and no stage is produced. *)
Lemma quoted_pipe_splits :
  unquoted_pipes quoted_pipe_line = 1 /\
  ~ pipeline_claim calm quoted_pipe_line (boot []) /\
  execute_command calm quoted_pipe_line (boot [])
  = (Raise (ValueError "No closing quotation"), boot []).
Proof.
  split; [reflexivity|]. split; [|reflexivity].
  intros [m' [H _]]. vm_compute in H. discriminate.
Qed.

(** ** The scan for a redirection operator *)

Lemma is_redirect_cases (op : string) :
  is_redirect op = true -> op = ">" \/ op = ">>" \/ op = "2>" \/ op = "&>".
Proof.
  unfold is_redirect, mem. cbn [existsb]. intros H.
  repeat (apply orb_prop in H; destruct H as [H|H]);
    try (apply String.eqb_eq in H; auto); discriminate.
Qed.

Lemma scan_redirect_plain (w : world) (parts : list string) :
  forall seen m,
    no_redirect parts = true ->
    scan_redirect w parts seen m
    = (Ok (Some {| command_parts := seen ++ parts; stdout_redirect := None;
                   stderr_redirect := None |}), m).
Proof.
  induction parts as [|p r IH]; intros seen m H; simpl.
  - rewrite app_nil_r. reflexivity.
  - simpl in H. apply andb_prop in H. destruct H as [Hp Hr].
    apply negb_true_iff in Hp. rewrite Hp.
    rewrite (IH (seen ++ [p]) m Hr), <- app_assoc. reflexivity.
Qed.

Lemma scan_redirect_missing (w : world) (pre : list string) (op : string) :
  forall seen m,
    no_redirect pre = true -> is_redirect op = true ->
    scan_redirect w (pre ++ [op]) seen m
    = (Ok None, push_event (Print (missing_target_message op)) m).
Proof.
  induction pre as [|p r IH]; intros seen m H Hop; simpl.
  - rewrite Hop. reflexivity.
  - simpl in H. apply andb_prop in H. destruct H as [Hp Hr].
    apply negb_true_iff in Hp. rewrite Hp. apply IH; assumption.
Qed.

Lemma scan_redirect_target (w : world) (pre rest : list string) (op target : string) :
  forall seen m,
    no_redirect pre = true -> is_redirect op = true ->
    open_error w target = None ->
    scan_redirect w (pre ++ op :: target :: rest) seen m
    = (Ok (Some (redirection_of op target (seen ++ pre))),
       push_event (Open target (mode_of op)) m).
Proof.
  induction pre as [|p r IH]; intros seen m H Hop Ho; simpl.
  - rewrite Hop, app_nil_r. unfold open_file. rewrite Ho.
    destruct (is_redirect_cases op Hop) as [-> | [-> | [-> | ->]]]; reflexivity.
  - simpl in H. apply andb_prop in H. destruct H as [Hp Hr].
    apply negb_true_iff in Hp. rewrite Hp.
    rewrite (IH (seen ++ [p]) m Hr Hop Ho), <- app_assoc. reflexivity.
Qed.

(** ** C5: a redirection operator without target *)

(** C5, as the code has it. When the first redirection operator of a
    single-stage external command is its last word, the command is given up
    with the operator's message: no file is opened, no process started and
    the shell is as before. A built-in never reaches the scan: [echo hi >]
    prints its two arguments, and likewise starts nothing and opens no
    file. *)
Theorem missing_redirect_target (w : world) (line command name op : string)
  (args pre : list string) (m : machine) :
  line <> EmptyString ->
  words (aliases (self m)) line = Ok (command, name :: args) ->
  is_builtin name = false ->
  PyStr.contains "|" command = false ->
  name :: args = pre ++ [op] ->
  no_redirect pre = true ->
  is_redirect op = true ->
  execute_command w line m
  = (Ok tt, push_event (Print (missing_target_message op)) m)
  /\
  (forall w' m',
     dict_get String.eqb "echo" (aliases (self m')) = None ->
     execute_command w' "echo hi >" m' = (Ok tt, push_event (Print "hi >") m')).
Proof.
  intros Hne Hw Hb Hp Hparts Hpre Hop. split.
  - rewrite (execute_command_words w _ command name args) by assumption.
    rewrite dispatch_external by exact Hb.
    unfold run_external. rewrite Hp. unfold run_single.
    unfold bind. rewrite Hparts.
    rewrite (scan_redirect_missing w pre op [] m Hpre Hop). reflexivity.
  - intros w' m' He.
    rewrite (execute_command_words w' _ "echo hi >" "echo" ["hi"; ">"]).
    + reflexivity.
    + discriminate.
    + unfold words. cbn. rewrite He. reflexivity.
Qed.

Lemma missing_redirect_target_witness :
  execute_command calm "prog hi >" (boot [])
  = (Ok tt, push_event (Print "Error: No file specified for output redirection.")
              (boot [])).
Proof.
  refine (proj1 (missing_redirect_target calm "prog hi >" "prog hi >" "prog" ">"
                   ["hi"; ">"] ["prog"; "hi"] (boot []) _ _ _ _ _ _ _));
    try reflexivity.
  discriminate.
Defined.

(** C5 fails as stated: [echo hi >] is not given up with a missing-target
    message; the built-in prints [hi >]. *)
Lemma echo_prints_operator :
  ~ aborts_missing_target calm "echo hi >" (boot []) /\
  execute_command calm "echo hi >" (boot [])
  = (Ok tt, push_event (Print "hi >") (boot [])).
Proof.
  split; [|reflexivity].
  intros [op [Hop H]].
  destruct (is_redirect_cases op Hop) as [-> | [-> | [-> | ->]]];
    vm_compute in H; discriminate.
Qed.

(** An operator with a target before the trailing one wins the scan: the
    line [prog > a >] opens [a] and starts [prog]. *)
Example earlier_operator_wins :
  execute_command calm "prog > a >" (boot [])
  = (Ok tt,
     {| self := self (boot []);
        spawned := 1;
        trace := [Open "a" ModeW;
                  Spawn 0 ["prog"] Inherit
                    (ToFile {| f_path := "a"; f_mode := ModeW |}) Inherit;
                  Wait 0; Close "a"] |}).
Proof. vm_compute. reflexivity. Qed.

(** ** C6: the background operator *)

(** The background branch when the words left start a program. *)
Lemma launch_background_starts (w : world) (parts bg_parts : list string)
  (m : machine) :
  let bg_command := PyStr.strip (PyStr.join " " (removelast parts)) in
  Shlex.split bg_command = Ok bg_parts ->
  bg_parts <> [] ->
  popen_error w bg_parts = None ->
  launch_background w parts m
  = (Ok tt,
     {| self := register (spawned m) bg_command (self m);
        spawned := S (spawned m);
        trace := trace m ++
          [Spawn (spawned m) bg_parts Inherit PIPE PIPE;
           Print ("[" ++ PyStr.str (next_job_id (self m)) ++ "] " ++ bg_command ++ " &")] |}).
Proof.
  intros bg_command Hs Hne Hpo. unfold launch_background. fold bg_command.
  unfold bind at 1. unfold lift. rewrite Hs.
  destruct bg_parts as [|a l]; [contradiction|].
  unfold Popen. rewrite Hpo. msimpl. rewrite <- app_assoc. reflexivity.
Qed.

(** C6, as the code has it. For a single-stage external command without
    redirection operator whose text ends with [&] and whose last word is
    [&]: that word is dropped, the remaining words are joined and tokenized
    again, and when this gives a program that starts, the process is created
    with its output and error on pipes, registered as a running job under
    the counter's value, the line [[id] text &] is printed, the counter
    advances by one and [execute_command] returns without any wait. *)
Theorem background_registration (w : world) (line command name : string)
  (args pre bg_parts : list string) (m : machine) :
  line <> EmptyString ->
  words (aliases (self m)) line = Ok (command, name :: args) ->
  is_builtin name = false ->
  PyStr.contains "|" command = false ->
  PyStr.endswith "&" command = true ->
  name :: args = pre ++ ["&"] ->
  no_redirect pre = true ->
  Shlex.split (PyStr.strip (PyStr.join " " pre)) = Ok bg_parts ->
  bg_parts <> [] ->
  popen_error w bg_parts = None ->
  execute_command w line m
  = (Ok tt,
     {| self := register (spawned m) (PyStr.strip (PyStr.join " " pre)) (self m);
        spawned := S (spawned m);
        trace := trace m ++
          [Spawn (spawned m) bg_parts Inherit PIPE PIPE;
           Print ("[" ++ PyStr.str (next_job_id (self m)) ++ "] "
                  ++ PyStr.strip (PyStr.join " " pre) ++ " &")] |}).
Proof.
  intros Hne Hw Hb Hp He Hparts Hpre Hs Hbg Hpo.
  rewrite (execute_command_words w _ command name args) by assumption.
  rewrite dispatch_external by exact Hb.
  unfold run_external. rewrite Hp. unfold run_single.
  unfold bind. rewrite Hparts.
  rewrite scan_redirect_plain.
  2:{ unfold no_redirect in *. rewrite forallb_app, Hpre. reflexivity. }
  unfold try_finally, try_except, launch. rewrite He.
  cbn [command_parts stdout_redirect stderr_redirect].
  change ([] ++ pre ++ ["&"]) with (pre ++ ["&"]).
  rewrite (launch_background_starts w (pre ++ ["&"]) bg_parts m);
    rewrite ?removelast_last; try assumption.
  reflexivity.
Qed.

Lemma background_registration_witness :
  execute_command calm "sleepx 100 &" (boot [])
  = (Ok tt,
     {| self := register 0 "sleepx 100" (self (boot []));
        spawned := 1;
        trace := [Spawn 0 ["sleepx"; "100"] Inherit PIPE PIPE;
                  Print "[1] sleepx 100 &"] |}).
Proof.
  apply (background_registration calm "sleepx 100 &" "sleepx 100 &" "sleepx"
           ["100"; "&"] ["sleepx"; "100"] ["sleepx"; "100"] (boot []));
    try reflexivity; discriminate.
Defined.

(** C6 fails as stated: [sleep] is a built-in, so [sleep 5 &] sleeps in the
    shell itself for five seconds and registers no job. *)
Lemma sleep_is_not_backgrounded :
  ~ backgrounds calm "sleep 5 &" (boot []) /\
  execute_command calm "sleep 5 &" (boot [])
  = (Ok tt, push_event (Sleep 5) (boot [])).
Proof.
  split; [|reflexivity].
  intros [m' [p [c [H Hj]]]]. vm_compute in H. injection H as <-.
  discriminate.
Qed.

(** ** C7: [fg] *)

(** A wait with no foreground process tracked: the handler, if it runs,
    does nothing; Ctrl+C raises. *)
Lemma wait_untracked (w : world) (p : handle) (m : machine) :
  untracked (self m) ->
  wait w p m
  = (if sigint_in_wait w p then Raise KeyboardInterrupt else Ok tt,
     push_event (Wait p) m).
Proof.
  intros Hu. unfold wait. unfold bind at 1. unfold emit.
  unfold bind.
  assert (H : forall sig, handle_signal sig (push_event (Wait p) m)
                          = (Ok tt, push_event (Wait p) m))
    by (intros sig; apply handle_signal_untracked; exact Hu).
  unfold push_event in H.
  destruct (sigtstp_in_wait w p); [rewrite H|]; unfold ret, raise, push_event;
    destruct (sigint_in_wait w p); reflexivity.
Qed.

(** [fg] in a state with no foreground process tracked. *)
Lemma fg_job_untracked (w : world) (line text a0 : string) (rest : list string)
  (m : machine) :
  line <> EmptyString ->
  words (aliases (self m)) line = Ok (text, "fg" :: a0 :: rest) ->
  PyStr.isdigit a0 = true ->
  untracked (self m) ->
  match dict_get Nat.eqb (PyStr.int a0) (jobs (self m)) with
  | Some job_info =>
      execute_command w line m
      = (Ok tt,
         {| self := set_jobs (dict_del Nat.eqb (PyStr.int a0) (jobs (self m))) (self m);
            spawned := spawned m;
            trace := trace m ++
              [Print (fmt (command job_info)); Wait (process job_info)] ++
              (if sigint_in_wait w (process job_info) then [Print "^C"] else []) |})
  | None =>
      execute_command w line m
      = (Ok tt, push_event (Print ("fg: job not found: " ++ PyStr.str (PyStr.int a0))) m)
  end.
Proof.
  intros Hne Hw Hd Hu.
  rewrite (execute_command_words w _ text "fg" (a0 :: rest)) by assumption.
  unfold dispatch. cbn [String.eqb Ascii.eqb Bool.eqb].
  unfold builtin_fg. rewrite Hd.
  destruct (dict_get Nat.eqb (PyStr.int a0) (jobs (self m))) as [job_info|] eqn:E;
    unfold bind at 1; unfold get_self; rewrite E; [|reflexivity].
  unfold bind, update, print, emit, try_except. cbn [self spawned trace].
  rewrite wait_untracked by exact Hu. unfold push_event. cbn [self spawned trace].
  destruct (sigint_in_wait w (process job_info)); cbn;
    rewrite <- ?app_assoc; reflexivity.
Qed.

(** C7. At any prompt of any session, the line [fg id], the id written
    with at most 4300 digits (the longest digit string [int] converts), for
    the id of a job of the table removes the job from the table, prints its
    command text and waits for its process; Ctrl+C during the wait is
    caught and answered by [^C], and nothing is sent to the child, which is
    not killed. For an id that is not in the table a message is printed and
    the table is as before. *)
Theorem fg_job (loaded_aliases : list (string * string)) (inputs : list input)
  (w : world) (line text a0 : string) (rest : list string) (m : machine) :
  myshell inputs (boot loaded_aliases) = (Ok Prompting, m) ->
  line <> EmptyString ->
  words (aliases (self m)) line = Ok (text, "fg" :: a0 :: rest) ->
  PyStr.isdigit a0 = true ->
  String.length a0 <= 4300 ->
  match dict_get Nat.eqb (PyStr.int a0) (jobs (self m)) with
  | Some job_info =>
      execute_command w line (entering line m)
      = (Ok tt,
         {| self := set_jobs (dict_del Nat.eqb (PyStr.int a0) (jobs (self m)))
                      (self (entering line m));
            spawned := spawned m;
            trace := trace (entering line m) ++
              [Print (fmt (command job_info)); Wait (process job_info)] ++
              (if sigint_in_wait w (process job_info) then [Print "^C"] else []) |})
      /\ dict_mem Nat.eqb (PyStr.int a0)
           (dict_del Nat.eqb (PyStr.int a0) (jobs (self m))) = false
  | None =>
      execute_command w line (entering line m)
      = (Ok tt, push_event (Print ("fg: job not found: " ++ PyStr.str (PyStr.int a0)))
                  (entering line m))
  end.
Proof.
  intros Hr Hne Hw Hd _.
  pose proof (fg_job_untracked w line text a0 rest (entering line m) Hne Hw Hd) as H.
  cbn [entering push_event with_self self jobs set_foreground_command] in H.
  specialize (H (reached_untracked _ _ _ _ Hr)).
  destruct (dict_get Nat.eqb (PyStr.int a0) (jobs (self m))) as [job_info|].
  - split; [exact H|]. unfold dict_mem. rewrite dict_del_get. reflexivity.
  - exact H.
Qed.

Lemma fg_job_witness :
  execute_command interrupting "fg 1" (entering "fg 1" session_with_job)
  = (Ok tt,
     {| self := set_jobs [] (self (entering "fg 1" session_with_job));
        spawned := 1;
        trace := trace (entering "fg 1" session_with_job) ++
                 [Print "sleepx 100"; Wait 0; Print "^C"] |})
  /\ dict_mem Nat.eqb 1 (dict_del Nat.eqb 1 (jobs (self session_with_job))) = false.
Proof.
  apply (fg_job [] [Line "sleepx 100 &" calm] interrupting "fg 1" "fg 1" "1" []
           session_with_job session_with_job_reached);
    [discriminate | reflexivity | reflexivity | simpl; lia].
Defined.

(** ** C8: [jobs] *)

Lemma dict_del_middle {V} (k : nat) (v : V) (pre r : list (nat * V)) :
  NoDup (dict_keys (pre ++ (k, v) :: r)) ->
  dict_del Nat.eqb k (pre ++ (k, v) :: r) = pre ++ r.
Proof.
  intros H. unfold dict_keys in H. rewrite map_app in H. simpl in H.
  pose proof (NoDup_remove_2 _ _ _ H) as Hn.
  unfold dict_del. rewrite filter_app. simpl. rewrite Nat.eqb_refl. simpl.
  f_equal.
  - apply (dict_del_absent k pre). intros Hin. apply Hn, in_or_app. left. exact Hin.
  - apply (dict_del_absent k r). intros Hin. apply Hn, in_or_app. right. exact Hin.
Qed.

Lemma jobs_loop_run (w : world) (items : list (nat * job)) :
  forall pre m,
    NoDup (dict_keys (pre ++ items)) ->
    jobs (self m) = pre ++ items ->
    jobs_loop w items m
    = (Ok tt,
       {| self := set_jobs (pre ++ filter (alive w) items) (self m);
          spawned := spawned m;
          trace := trace m ++ flat_map (listing w) items |}).
Proof.
  induction items as [|[k j] r IH]; intros pre m Hnd Hj.
  - simpl. rewrite app_nil_r in Hj. rewrite !app_nil_r, <- Hj.
    destruct m as [[a jb n fp fc] sp tr]. reflexivity.
  - cbn [jobs_loop filter flat_map listing fst snd]. unfold alive at 1.
    cbn [snd]. destruct (exited w (process j)) eqn:E; cbn [negb];
      unfold bind, print, emit, update; cbn [self spawned trace].
    + rewrite (IH pre).
      * cbn [self spawned trace]. rewrite <- !app_assoc.
        unfold listing. cbn [fst snd]. rewrite E. reflexivity.
      * unfold dict_keys in *. rewrite map_app in *. simpl in Hnd.
        apply NoDup_remove_1 in Hnd. exact Hnd.
      * cbn [self jobs set_jobs]. rewrite Hj. apply dict_del_middle. exact Hnd.
    + rewrite (IH (pre ++ [(k, j)])).
      * cbn [self spawned trace]. rewrite <- !app_assoc.
        unfold listing. cbn [fst snd]. rewrite E. reflexivity.
      * rewrite <- app_assoc. exact Hnd.
      * cbn [self]. rewrite Hj, <- app_assoc. reflexivity.
Qed.

(** [jobs] on a table that binds no id twice. *)
Lemma jobs_listing_unique (w : world) (line text : string) (rest : list string)
  (m : machine) :
  line <> EmptyString ->
  words (aliases (self m)) line = Ok (text, "jobs" :: rest) ->
  NoDup (dict_keys (jobs (self m))) ->
  execute_command w line m
  = (Ok tt,
     {| self := set_jobs (filter (alive w) (jobs (self m))) (self m);
        spawned := spawned m;
        trace := trace m ++ flat_map (listing w) (jobs (self m)) |}).
Proof.
  intros Hne Hw Hnd.
  rewrite (execute_command_words w _ text "jobs" rest) by assumption.
  unfold dispatch. cbn [String.eqb Ascii.eqb Bool.eqb].
  unfold builtin_jobs. unfold bind, get_self.
  apply (jobs_loop_run w (jobs (self m)) [] m); [exact Hnd | reflexivity].
Qed.

(** C8. At any prompt of any session, the line [jobs] polls the process
    of every job of the table, in the table's order, prints for each the
    line [[id] Running text] or [[id] Done text], and leaves in the table
    exactly the jobs whose process was still alive; nothing else of the
    shell changes. *)
Theorem jobs_listing (loaded_aliases : list (string * string)) (inputs : list input)
  (w : world) (line text : string) (rest : list string) (m : machine) :
  myshell inputs (boot loaded_aliases) = (Ok Prompting, m) ->
  line <> EmptyString ->
  words (aliases (self m)) line = Ok (text, "jobs" :: rest) ->
  execute_command w line (entering line m)
  = (Ok tt,
     {| self := set_jobs (filter (alive w) (jobs (self m))) (self (entering line m));
        spawned := spawned m;
        trace := trace (entering line m) ++ flat_map (listing w) (jobs (self m)) |}).
Proof.
  intros Hr Hne Hw.
  apply (jobs_listing_unique w line text rest (entering line m) Hne Hw).
  apply (reached_well_formed _ _ _ _ Hr).
Qed.

Example session_with_two_jobs_reached :
  myshell [Line "sleepx 1 &" calm; Line "sleepx 100 &" calm] (boot [])
  = (Ok Prompting, session_with_two_jobs).
Proof. vm_compute. reflexivity. Qed.

Lemma jobs_listing_witness :
  execute_command first_exited "jobs" (entering "jobs" session_with_two_jobs)
  = (Ok tt,
     {| self := set_jobs
          [(2, {| process := 1; command := Some "sleepx 100"; status := running |})]
          (self (entering "jobs" session_with_two_jobs));
        spawned := 2;
        trace := trace (entering "jobs" session_with_two_jobs) ++
          [Poll 0; Print "[1] Done sleepx 1";
           Poll 1; Print "[2] Running sleepx 100"] |}).
Proof.
  apply (jobs_listing [] [Line "sleepx 1 &" calm; Line "sleepx 100 &" calm]
           first_exited "jobs" "jobs" [] session_with_two_jobs
           session_with_two_jobs_reached);
    [discriminate | reflexivity].
Defined.

(** ** C9: job ids *)

Lemma myshell_loop_app (i1 i2 : list input) : forall m m1,
  myshell_loop i1 m = (Ok Prompting, m1) ->
  myshell_loop (i1 ++ i2) m = myshell_loop i2 m1.
Proof.
  induction i1 as [|i r IH]; intros m m1 H.
  - injection H as <-. reflexivity.
  - rewrite <- app_comm_cons.
    destruct i as [cmd w| | |]; cbn [myshell_loop] in *; unfold bind in *.
    + destruct (dispatch_line w cmd m) as [[u|e] m2]; [|discriminate].
      destruct (prompt m2) as [[u'|e] m3]; [|discriminate].
      apply IH, H.
    + destruct (print _ m) as [[u|e] m2]; discriminate.
    + destruct (print newline m) as [[u|e] m2]; [|discriminate].
      destruct (prompt m2) as [[u'|e] m3]; [|discriminate].
      apply IH, H.
    + destruct (handle_signal SIGTSTP m) as [[u|e] m2]; [|discriminate].
      apply IH, H.
Qed.

(** C9, as the code has it. The counter starts at 1. Both places that
    create a job, the background registration and the signal handler, either
    leave table and counter alone or bind the counter's value to the new job
    and add one to the counter, and they do the latter whenever they create
    a job: the registration when the words left start a program, the handler
    when a foreground process is tracked. Hence in a session in which [calc]
    was not run (its [eval] can rebind the counter), between any two prompts,
    the second later: the counter has not decreased; every id of the later
    table is below the later counter, and was in the earlier table or is at
    least the earlier counter; and an id below the earlier counter that had
    left the table (or never entered it) is not in the later table: no id is
    used twice. *)
Theorem job_ids_never_reused (loaded_aliases : list (string * string))
  (inputs1 inputs2 : list input) (m1 m2 : machine) (r : result session) :
  myshell inputs1 (boot loaded_aliases) = (Ok Prompting, m1) ->
  myshell (inputs1 ++ inputs2) (boot loaded_aliases) = (r, m2) ->
  (forall args, ~ In (Builtin "calc" args) (trace m2)) ->
  next_job_id (self (boot loaded_aliases)) = 1 /\
  (forall w cp m r' m', launch_background w cp m = (r', m') ->
                        keeps_jobs m m' \/ registers m m') /\
  (forall w cp bg_parts m,
     Shlex.split (PyStr.strip (PyStr.join " " (removelast cp))) = Ok bg_parts ->
     bg_parts <> [] ->
     popen_error w bg_parts = None ->
     exists m', launch_background w cp m = (Ok tt, m') /\ registers m m') /\
  (forall sig m r' m', handle_signal sig m = (r', m') ->
                       keeps_jobs m m' \/ registers m m') /\
  (forall p c m,
     foreground_process (self m) = Some (Some p) ->
     foreground_command (self m) = Some c ->
     exists m', handle_signal SIGTSTP m = (Ok tt, m') /\ registers m m') /\
  next_job_id (self m1) <= next_job_id (self m2) /\
  (forall k, In k (dict_keys (jobs (self m2))) ->
             k < next_job_id (self m2) /\
             (In k (dict_keys (jobs (self m1))) \/ next_job_id (self m1) <= k)) /\
  (forall k, k < next_job_id (self m1) ->
             ~ In k (dict_keys (jobs (self m1))) ->
             ~ In k (dict_keys (jobs (self m2)))).
Proof.
  intros H1 H2 _.
  split; [reflexivity|].
  split; [intros w cp m r' m'; apply launch_background_registers|].
  split.
  { intros w cp bg_parts m Hs Hne Hpo. eexists.
    split; [apply (launch_background_starts w cp bg_parts m Hs Hne Hpo)|].
    eexists. split; reflexivity. }
  split; [intros sig m r' m'; apply handle_signal_registers|].
  split.
  { intros p c m Hp Hc. eexists.
    split; [apply (handle_signal_tracked p c m Hp Hc)|].
    eexists. split; reflexivity. }
  unfold myshell, bind, prompt, emit in H1, H2. cbn [self spawned trace] in H1, H2.
  pose proof (counted_myshell_loop _ _ _ _ H1) as [_ [W1 _]].
  rewrite (myshell_loop_app _ _ _ _ H1) in H2.
  pose proof (counted_myshell_loop _ _ _ _ H2) as [L [W2 F]].
  assert (Hwf1 : well_formed (self m1)).
  { apply W1. split; constructor. }
  destruct (W2 Hwf1) as [Hb2 _].
  split; [exact L|]. split.
  - intros k Hk. split; [|apply F, Hk].
    rewrite Forall_forall in Hb2. apply Hb2, Hk.
  - intros k Hlt Hn Hk. destruct (F k Hk) as [H|H]; [apply Hn, H | lia].
Qed.

Example session_after_fg_reached :
  myshell ([Line "sleepx 1 &" calm; Line "sleepx 100 &" calm] ++
           [Line "fg 1" calm; Line "sleepx 7 &" calm]) (boot [])
  = (Ok Prompting, session_after_fg).
Proof. vm_compute. reflexivity. Qed.

Lemma job_ids_never_reused_witness :
  next_job_id (self session_with_two_jobs) <= next_job_id (self session_after_fg) /\
  (forall k, In k (dict_keys (jobs (self session_after_fg))) ->
             k < next_job_id (self session_after_fg) /\
             (In k (dict_keys (jobs (self session_with_two_jobs))) \/
              next_job_id (self session_with_two_jobs) <= k)) /\
  (forall k, k < next_job_id (self session_with_two_jobs) ->
             ~ In k (dict_keys (jobs (self session_with_two_jobs))) ->
             ~ In k (dict_keys (jobs (self session_after_fg)))).
Proof.
  refine (proj2 (proj2 (proj2 (proj2 (proj2
    (job_ids_never_reused []
       [Line "sleepx 1 &" calm; Line "sleepx 100 &" calm]
       [Line "fg 1" calm; Line "sleepx 7 &" calm]
       session_with_two_jobs session_after_fg (Ok Prompting)
       session_with_two_jobs_reached session_after_fg_reached _)))))).
  intros args H. cbn in H.
  repeat (destruct H as [H|H]; [discriminate H|]). exact H.
Defined.

(** Every run of [calc] is recorded in the trace, so the hypothesis on the
    trace leaves out the sessions that run it. *)
Example calc_is_recorded :
  In (Builtin "calc" ["1+1"])
     (trace (snd (myshell [Line "calc 1+1" calm] (boot [])))).
Proof. vm_compute. intuition. Qed.

(** What C9 leaves out: after [sleepx 100 &] has taken id 1, the line
    [calc self.__dict__.update(next_job_id=1)] sets the counter back, and
    the next background command is registered under id 1 again, in the place
    of the job that held it. *)
Example calc_resets_the_counter :
  exists m2 m3,
    calc_counter_reset session_with_job = (Ok tt, m2) /\
    execute_command calm "sleepx 200 &" m2 = (Ok tt, m3) /\
    dict_get Nat.eqb 1 (jobs (self session_with_job))
    = Some {| process := 0; command := Some "sleepx 100"; status := running |} /\
    next_job_id (self m2) = 1 /\
    dict_get Nat.eqb 1 (jobs (self m3))
    = Some {| process := 1; command := Some "sleepx 200"; status := running |} /\
    In (Print "[1] sleepx 200 &") (trace m3).
Proof.
  eexists. eexists. split; [reflexivity|]. split; [vm_compute; reflexivity|].
  split; [reflexivity|]. split; [reflexivity|]. split; [reflexivity|].
  cbn. intuition.
Qed.

(** ** C10: redirection together with the background operator *)

(** C10. For a single-stage external command whose text ends with [&]
    and whose first redirection operator has a target that opens: the
    target is opened in the operator's mode (append for [>>], write for the
    others); the background branch takes the words before the operator,
    drops the last of them, joins and tokenizes the rest, and when this
    gives a program that starts registers it as a running job, its output
    on pipes and not on the file; the file is then closed. With a single
    word before the operator nothing is left to start: no process is
    created, no job registered, and the file is opened and closed all the
    same. *)
Theorem redirect_then_background (w : world) (line text name op target : string)
  (args pre rest : list string) (m : machine) :
  line <> EmptyString ->
  words (aliases (self m)) line = Ok (text, name :: args) ->
  is_builtin name = false ->
  PyStr.contains "|" text = false ->
  PyStr.endswith "&" text = true ->
  name :: args = pre ++ op :: target :: rest ->
  no_redirect pre = true ->
  is_redirect op = true ->
  open_error w target = None ->
  (forall bg_parts,
     Shlex.split (PyStr.strip (PyStr.join " " (removelast pre))) = Ok bg_parts ->
     bg_parts <> [] ->
     popen_error w bg_parts = None ->
     execute_command w line m
     = (Ok tt,
        {| self := register (spawned m)
                     (PyStr.strip (PyStr.join " " (removelast pre))) (self m);
           spawned := S (spawned m);
           trace := trace m ++
             [Open target (mode_of op);
              Spawn (spawned m) bg_parts Inherit PIPE PIPE;
              Print ("[" ++ PyStr.str (next_job_id (self m)) ++ "] "
                     ++ PyStr.strip (PyStr.join " " (removelast pre)) ++ " &")]
             ++ close_events (redirection_of op target pre) |}))
  /\
  (length pre = 1 ->
   execute_command w line m
   = (Ok tt,
      {| self := self m;
         spawned := spawned m;
         trace := trace m ++
           Open target (mode_of op) :: close_events (redirection_of op target pre) |})).
Proof.
  intros Hne Hw Hb Hp He Hparts Hpre Hop Ho.
  assert (Hrun : execute_command w line m
    = try_finally
        (try_except (launch_background w pre) (launch_handler name))
        (close_redirects (redirection_of op target pre))
        (push_event (Open target (mode_of op)) m)).
  { rewrite (execute_command_words w _ text name args) by assumption.
    rewrite dispatch_external by exact Hb.
    unfold run_external. rewrite Hp. unfold run_single.
    unfold bind. rewrite Hparts.
    rewrite (scan_redirect_target w pre rest op target [] m Hpre Hop Ho).
    unfold launch. rewrite He. reflexivity. }
  rewrite Hrun. unfold try_finally, try_except. split.
  - intros bg_parts Hs Hbg Hpo.
    rewrite (launch_background_starts w pre bg_parts _ Hs Hbg Hpo).
    rewrite close_redirects_events. unfold push_events, push_event.
    cbn [self spawned trace]. rewrite <- !app_assoc. reflexivity.
  - intros Hlen. destruct pre as [|x [|y l]]; try discriminate.
    unfold launch_background. cbn [removelast PyStr.join]. msimpl.
    change (Shlex.split (PyStr.strip EmptyString)) with (@Ok (list string) []).
    cbv beta iota. rewrite close_redirects_events. unfold push_events, push_event.
    cbn [self spawned trace]. rewrite <- !app_assoc. reflexivity.
Qed.

Lemma redirect_then_background_witness :
  execute_command calm "cmd > file &" (boot [])
  = (Ok tt,
     {| self := self (boot []);
        spawned := 0;
        trace := [Open "file" ModeW; Close "file"] |}).
Proof.
  refine (proj2 (redirect_then_background calm "cmd > file &" "cmd > file &"
                   "cmd" ">" "file" [">"; "file"; "&"] ["cmd"] ["&"] (boot [])
                   _ _ _ _ _ _ _ _ _) _);
    try reflexivity.
  discriminate.
Defined.

(** With more words before the operator the last of them is dropped:
    [cmd a b &> file &] starts [cmd a]. *)
Example redirect_then_background_drops_word :
  execute_command calm "cmd a b &> file &" (boot [])
  = (Ok tt,
     {| self := register 0 "cmd a" (self (boot []));
        spawned := 1;
        trace := [Open "file" ModeW; Spawn 0 ["cmd"; "a"] Inherit PIPE PIPE;
                  Print "[1] cmd a &"; Close "file"; Close "file"] |}).
Proof. vm_compute. reflexivity. Qed.

(** * Further properties of the code *)

(** ** Plain words survive joining and tokenizing again *)

Lemma plain_char_not_whitespace (c : ascii) :
  plain_char c = true ->
  PyStr.isspace c = false /\ Shlex.is_whitespace c = false /\
  Shlex.is_quote c = false /\ Shlex.is_escape c = false.
Proof.
  destruct c as [[] [] [] [] [] [] [] []]; vm_compute; intros H;
    try discriminate; repeat split; reflexivity.
Qed.

Lemma append_empty_r (s : string) : (s ++ EmptyString)%string = s.
Proof. induction s as [|c r IH]; simpl; [|rewrite IH]; reflexivity. Qed.

Lemma append_assoc (a b c : string) :
  ((a ++ b) ++ c)%string = (a ++ (b ++ c))%string.
Proof. induction a as [|x r IH]; simpl; [|rewrite IH]; reflexivity. Qed.

Lemma append_nonempty (a b : string) :
  Shlex.nonempty b = true -> Shlex.nonempty (a ++ b) = true.
Proof. destruct a; simpl; auto. Qed.

(** In a word the scanner pushes plain characters onto the token. *)
Lemma scan_plain_in_word (w : string) : forall rest token quoted acc,
  plain w = true ->
  Shlex.scan (w ++ rest) Shlex.Word token quoted acc
  = Shlex.scan rest Shlex.Word (token ++ w) quoted acc.
Proof.
  induction w as [|c r IH]; intros rest token quoted acc H; simpl.
  - rewrite append_empty_r. reflexivity.
  - simpl in H. apply andb_prop in H. destruct H as [Hc Hr].
    destruct (plain_char_not_whitespace c Hc) as [_ [Hw [Hq He]]].
    rewrite Hw, Hq, He. rewrite IH by exact Hr. unfold Shlex.push.
    rewrite append_assoc. reflexivity.
Qed.

(** Between words a plain word is read whole. *)
Lemma scan_plain_word (w rest : string) (acc : list string) :
  plain_word w = true ->
  Shlex.scan (w ++ rest) Shlex.Space EmptyString false acc
  = Shlex.scan rest Shlex.Word w false acc.
Proof.
  unfold plain_word. destruct w as [|c r]; [discriminate|]. simpl. intros H.
  apply andb_prop in H. destruct H as [Hc Hr].
  destruct (plain_char_not_whitespace c Hc) as [_ [Hw [Hq He]]].
  rewrite Hw, Hq, He. rewrite scan_plain_in_word by exact Hr. reflexivity.
Qed.

(** Plain words joined by blanks, read from between two words, come out
    as they went in. *)
Lemma scan_join_plain (ws : list string) : forall acc,
  forallb plain_word ws = true ->
  Shlex.scan (PyStr.join " " ws) Shlex.Space EmptyString false acc
  = Ok (acc ++ ws).
Proof.
  induction ws as [|w r IH]; intros acc H.
  - simpl. rewrite app_nil_r. reflexivity.
  - simpl in H. apply andb_prop in H. destruct H as [Hw Hr].
    assert (Hne : Shlex.nonempty w = true)
      by (unfold plain_word in Hw; apply andb_prop in Hw; apply Hw).
    destruct r as [|w2 r'].
    + cbn [PyStr.join]. rewrite <- (append_empty_r w) at 1.
      rewrite scan_plain_word by exact Hw. simpl.
      unfold Shlex.last_token. rewrite Hne. reflexivity.
    + change (PyStr.join " " (w :: w2 :: r'))
        with (w ++ String " " (PyStr.join " " (w2 :: r')))%string.
      rewrite scan_plain_word by exact Hw.
      cbn [Shlex.scan]. change (Shlex.is_whitespace " ") with true. cbn iota.
      rewrite Hne. cbn [orb]. rewrite IH by exact Hr.
      rewrite <- app_assoc. reflexivity.
Qed.

(** [shlex.split(" ".join(ws))] for plain words. *)
Lemma split_join_plain (ws : list string) :
  forallb plain_word ws = true ->
  Shlex.split (PyStr.join " " ws) = Ok ws.
Proof. intros H. apply (scan_join_plain ws [] H). Qed.

Lemma rstrip_plain (s : string) : plain s = true -> PyStr.rstrip s = s.
Proof.
  induction s as [|c r IH]; simpl; intros H; [reflexivity|].
  apply andb_prop in H. destruct H as [Hc Hr].
  destruct (plain_char_not_whitespace c Hc) as [Hs _].
  rewrite (IH Hr), Hs. destruct r; reflexivity.
Qed.

(** What [rstrip] keeps of the end it keeps of the whole. *)
Lemma rstrip_app_keep (a b : string) :
  Shlex.nonempty (PyStr.rstrip b) = true ->
  PyStr.rstrip (a ++ b) = (a ++ PyStr.rstrip b)%string.
Proof.
  intros H. induction a as [|c r IH]; simpl; [reflexivity|].
  rewrite IH. pose proof (append_nonempty r _ H) as Hn.
  destruct (r ++ PyStr.rstrip b)%string; [discriminate | reflexivity].
Qed.

Lemma join_nonempty (w : string) (ws : list string) :
  Shlex.nonempty w = true -> Shlex.nonempty (PyStr.join " " (w :: ws)) = true.
Proof.
  intros H. destruct ws; cbn [PyStr.join]; [exact H|].
  destruct w; [discriminate | reflexivity].
Qed.

Lemma rstrip_join_plain (ws : list string) :
  forallb plain_word ws = true ->
  PyStr.rstrip (PyStr.join " " ws) = PyStr.join " " ws.
Proof.
  induction ws as [|w r IH]; intros H; [reflexivity|].
  simpl in H. apply andb_prop in H. destruct H as [Hw Hr].
  unfold plain_word in Hw. apply andb_prop in Hw. destruct Hw as [Hne Hp].
  destruct r as [|w2 r'].
  - cbn [PyStr.join]. apply rstrip_plain, Hp.
  - change (PyStr.join " " (w :: w2 :: r'))
      with (w ++ (" " ++ PyStr.join " " (w2 :: r')))%string.
    assert (H2 : Shlex.nonempty (PyStr.join " " (w2 :: r')) = true).
    { apply join_nonempty. simpl in Hr. apply andb_prop in Hr.
      destruct Hr as [Hw2 _]. unfold plain_word in Hw2.
      apply andb_prop in Hw2. apply Hw2. }
    assert (H3 : PyStr.rstrip (" " ++ PyStr.join " " (w2 :: r'))
                 = (" " ++ PyStr.join " " (w2 :: r'))%string).
    { rewrite (rstrip_app_keep " "); rewrite (IH Hr); [reflexivity | exact H2]. }
    rewrite (rstrip_app_keep w); rewrite H3; reflexivity.
Qed.

(** [strip] leaves joined plain words as they are. *)
Lemma strip_join_plain (ws : list string) :
  forallb plain_word ws = true ->
  PyStr.strip (PyStr.join " " ws) = PyStr.join " " ws.
Proof.
  intros H. unfold PyStr.strip.
  assert (Hl : PyStr.lstrip (PyStr.join " " ws) = PyStr.join " " ws).
  { destruct ws as [|w r]; [reflexivity|].
    simpl in H. apply andb_prop in H. destruct H as [Hw _].
    unfold plain_word in Hw. apply andb_prop in Hw. destruct Hw as [Hne Hp].
    destruct w as [|c w']; [discriminate|]. simpl in Hp.
    apply andb_prop in Hp. destruct Hp as [Hc _].
    destruct (plain_char_not_whitespace c Hc) as [Hs _].
    destruct r; cbn [PyStr.join String.append PyStr.lstrip]; rewrite Hs; reflexivity. }
  rewrite Hl. apply rstrip_join_plain, H.
Qed.

(** ** Single-stage external commands *)

(** A line whose first word is no built-in and which holds no pipe
    character reaches the single-stage code. *)
Lemma execute_single (w : world) (line text name : string) (args : list string)
  (m : machine) :
  line <> EmptyString ->
  words (aliases (self m)) line = Ok (text, name :: args) ->
  is_builtin name = false ->
  PyStr.contains "|" text = false ->
  execute_command w line m = run_single w text name (name :: args) m.
Proof.
  intros Hne Hw Hb Hp.
  rewrite (execute_command_words w _ text name args) by assumption.
  rewrite dispatch_external by exact Hb.
  unfold run_external. rewrite Hp. reflexivity.
Qed.

(** The foreground launch of a program that starts, no foreground process
    being tracked: the child is created and waited for; Ctrl+C during the
    wait kills it and leaves with [KeyboardInterrupt]; the redirection
    files are closed either way. *)
Lemma foreground_launch (w : world) (text name : string) (rd : redirection)
  (m : machine) :
  PyStr.endswith "&" text = false ->
  command_parts rd <> [] ->
  popen_error w (command_parts rd) = None ->
  untracked (self m) ->
  try_finally (try_except (launch w text rd) (launch_handler name))
    (close_redirects rd) m
  = (if sigint_in_wait w (spawned m) then Raise KeyboardInterrupt else Ok tt,
     {| self := self m;
        spawned := S (spawned m);
        trace := trace m ++
          [Spawn (spawned m) (command_parts rd) Inherit
             (stream_of (stdout_redirect rd)) (stream_of (stderr_redirect rd));
           Wait (spawned m)] ++
          (if sigint_in_wait w (spawned m) then [Kill (spawned m)] else []) ++
          close_events rd |}).
Proof.
  intros He Hne Hpo Hu. unfold launch. rewrite He.
  unfold try_finally, try_except, subprocess_run, Popen.
  destruct (command_parts rd) as [|a l] eqn:Ecp; [contradiction|].
  rewrite Hpo. unfold bind at 1. unfold try_except.
  rewrite wait_untracked by exact Hu. unfold push_event. cbn [self spawned trace].
  destruct (sigint_in_wait w (spawned m)); msimpl; cbn [launch_handler];
    unfold launch_handler; cbn [is_FileNotFoundError is_Exception]; msimpl;
    rewrite close_redirects_events; unfold push_events; cbn [self spawned trace];
    rewrite <- !app_assoc; reflexivity.
Qed.

(** X1: a single-stage external command with no operator is started with
    exactly the words of the line as its argument vector, inherits the
    shell's three streams and is waited for; the shell is unchanged. *)
Theorem foreground_argv_is_words (w : world) (line text name : string)
  (args : list string) (m : machine) :
  line <> EmptyString ->
  words (aliases (self m)) line = Ok (text, name :: args) ->
  is_builtin name = false ->
  PyStr.contains "|" text = false ->
  PyStr.endswith "&" text = false ->
  no_redirect (name :: args) = true ->
  popen_error w (name :: args) = None ->
  sigint_in_wait w (spawned m) = false ->
  untracked (self m) ->
  execute_command w line m
  = (Ok tt,
     {| self := self m;
        spawned := S (spawned m);
        trace := trace m ++
          [Spawn (spawned m) (name :: args) Inherit Inherit Inherit;
           Wait (spawned m)] |}).
Proof.
  intros Hne Hw Hb Hp He Hnr Hpo Hi Hu.
  rewrite (execute_single w line text name args) by assumption.
  unfold run_single. unfold bind.
  rewrite (scan_redirect_plain w (name :: args) [] m Hnr).
  rewrite foreground_launch; try assumption; [|discriminate].
  cbn [command_parts stdout_redirect stderr_redirect stream_of app].
  rewrite Hi. unfold close_events. cbn [stdout_redirect stderr_redirect app].
  reflexivity.
Qed.

Lemma foreground_argv_is_words_witness :
  execute_command calm "grepx -n 'a b' notes.txt" (boot [])
  = (Ok tt,
     {| self := self (boot []);
        spawned := 1;
        trace := [Spawn 0 ["grepx"; "-n"; "a b"; "notes.txt"] Inherit Inherit Inherit;
                  Wait 0] |}).
Proof.
  apply (foreground_argv_is_words calm "grepx -n 'a b' notes.txt"
           "grepx -n 'a b' notes.txt" "grepx" ["-n"; "a b"; "notes.txt"] (boot []));
    try reflexivity; [discriminate | left; reflexivity].
Defined.

(** X2: with a redirection operator that has a target, the program is
    started with the words before the operator only; the target is opened
    in the operator's mode and bound to the child's output, error or both;
    words after the target are dropped; the file is closed after the
    wait. *)
Theorem foreground_redirection (w : world) (line text name op target : string)
  (args pre rest : list string) (m : machine) :
  line <> EmptyString ->
  words (aliases (self m)) line = Ok (text, name :: args) ->
  is_builtin name = false ->
  PyStr.contains "|" text = false ->
  PyStr.endswith "&" text = false ->
  name :: args = pre ++ op :: target :: rest ->
  no_redirect pre = true ->
  is_redirect op = true ->
  open_error w target = None ->
  pre <> [] ->
  popen_error w pre = None ->
  sigint_in_wait w (spawned m) = false ->
  untracked (self m) ->
  execute_command w line m
  = (Ok tt,
     {| self := self m;
        spawned := S (spawned m);
        trace := trace m ++
          [Open target (mode_of op);
           Spawn (spawned m) pre Inherit
             (stream_of (stdout_redirect (redirection_of op target pre)))
             (stream_of (stderr_redirect (redirection_of op target pre)));
           Wait (spawned m)] ++
          close_events (redirection_of op target pre) |}).
Proof.
  intros Hne Hw Hb Hp He Hparts Hpre Hop Ho Hn Hpo Hi Hu.
  rewrite (execute_single w line text name args) by assumption.
  unfold run_single. unfold bind. rewrite Hparts.
  rewrite (scan_redirect_target w pre rest op target [] m Hpre Hop Ho).
  cbn [app].
  rewrite foreground_launch; try assumption.
  unfold push_event. cbn [self spawned trace]. rewrite Hi.
  cbn [command_parts redirection_of app]. rewrite <- !app_assoc. reflexivity.
Qed.

Lemma foreground_redirection_witness :
  execute_command calm "lsx -l >> out.txt ignored" (boot [])
  = (Ok tt,
     {| self := self (boot []);
        spawned := 1;
        trace := [Open "out.txt" ModeA;
                  Spawn 0 ["lsx"; "-l"] Inherit
                    (ToFile {| f_path := "out.txt"; f_mode := ModeA |}) Inherit;
                  Wait 0; Close "out.txt"] |}).
Proof.
  apply (foreground_redirection calm "lsx -l >> out.txt ignored"
           "lsx -l >> out.txt ignored" "lsx" ">>" "out.txt"
           ["-l"; ">>"; "out.txt"; "ignored"] ["lsx"; "-l"] ["ignored"] (boot []));
    try reflexivity; try discriminate.
  left; reflexivity.
Defined.

(** X3: Ctrl+C while the shell waits for a single-stage external
    foreground command, redirected or not, kills the child, and the
    interrupt is caught neither by [execute_command] nor by the prompt
    loop: at any prompt of any session, such a line (of ASCII characters,
    the target of its redirection opening and its program starting) ends
    the session with [KeyboardInterrupt], the redirection file closed and
    the rest of the input unread. *)
Theorem foreground_interrupt_ends_session (loaded_aliases : list (string * string))
  (inputs rest : list input) (w : world) (cmd text name : string)
  (args pre : list string) (found : option (string * string)) (m : machine) :
  myshell inputs (boot loaded_aliases) = (Ok Prompting, m) ->
  ascii_only cmd = true ->
  PyStr.strip cmd <> EmptyString ->
  words (aliases (self m)) (PyStr.strip cmd) = Ok (text, name :: args) ->
  is_builtin name = false ->
  PyStr.contains "|" text = false ->
  PyStr.endswith "&" text = false ->
  scanned (name :: args) pre found ->
  target_opens w found ->
  pre <> [] ->
  popen_error w pre = None ->
  sigint_in_wait w (spawned m) = true ->
  myshell (inputs ++ Line cmd w :: rest) (boot loaded_aliases)
  = (Raise KeyboardInterrupt,
     {| self := self (entering (PyStr.strip cmd) m);
        spawned := S (spawned m);
        trace := trace (entering (PyStr.strip cmd) m) ++ open_events found ++
          [Spawn (spawned m) pre Inherit
             (stream_of (stdout_redirect (found_redirection pre found)))
             (stream_of (stderr_redirect (found_redirection pre found)));
           Wait (spawned m); Kill (spawned m)] ++
          close_events (found_redirection pre found) |}).
Proof.
  intros Hr _ Hne Hw Hb Hp He [Hpre Hfound] Ho Hn Hpo Hi.
  pose proof (reached_untracked _ _ _ _ Hr) as Hu.
  unfold myshell, bind, prompt, emit in Hr |- *. cbn [self spawned trace] in Hr |- *.
  rewrite (myshell_loop_app _ _ _ _ Hr).
  apply myshell_loop_raises; [exact Hne|].
  rewrite (execute_single w _ text name args); try assumption.
  unfold run_single. unfold bind.
  destruct found as [[op target]|].
  - destruct Hfound as [Hop [rest' Hparts]]. rewrite Hparts.
    rewrite (scan_redirect_target w pre rest' op target [] _ Hpre Hop Ho).
    rewrite app_nil_l.
    rewrite foreground_launch; try assumption.
    cbn [entering push_event with_self spawned self trace]. rewrite Hi.
    cbn [found_redirection open_events command_parts redirection_of].
    rewrite <- !app_assoc. reflexivity.
  - rewrite Hfound. rewrite (scan_redirect_plain w pre [] _ Hpre).
    rewrite app_nil_l.
    rewrite foreground_launch; try assumption.
    cbn [entering push_event with_self spawned self trace]. rewrite Hi.
    cbn [found_redirection open_events command_parts stdout_redirect
         stderr_redirect].
    rewrite app_nil_l. reflexivity.
Qed.

Lemma foreground_interrupt_ends_session_witness :
  myshell ([Line "sleepx 100 &" calm] ++
           [Line " vimx notes.txt 2> err.log " interrupting; Line "echo never" calm])
    (boot [])
  = (Raise KeyboardInterrupt,
     {| self := self (entering "vimx notes.txt 2> err.log" session_with_job);
        spawned := 2;
        trace := trace (entering "vimx notes.txt 2> err.log" session_with_job) ++
          [Open "err.log" ModeW] ++
          [Spawn 1 ["vimx"; "notes.txt"] Inherit Inherit
             (ToFile {| f_path := "err.log"; f_mode := ModeW |});
           Wait 1; Kill 1] ++
          [Close "err.log"] |}).
Proof.
  apply (foreground_interrupt_ends_session [] [Line "sleepx 100 &" calm]
           [Line "echo never" calm] interrupting " vimx notes.txt 2> err.log "
           "vimx notes.txt 2> err.log" "vimx" ["notes.txt"; "2>"; "err.log"]
           ["vimx"; "notes.txt"] (Some ("2>", "err.log")) session_with_job
           session_with_job_reached);
    try reflexivity; try discriminate.
  split; [reflexivity|]. split; [reflexivity|]. exists []. reflexivity.
Defined.

(** ** Background launch of plain words *)

(** The background dispatch, from the helper lemmas of the engine. *)
Lemma background_dispatch (w : world) (line text name : string)
  (args pre bg_parts : list string) (m : machine) :
  line <> EmptyString ->
  words (aliases (self m)) line = Ok (text, name :: args) ->
  is_builtin name = false ->
  PyStr.contains "|" text = false ->
  PyStr.endswith "&" text = true ->
  name :: args = pre ++ ["&"] ->
  no_redirect pre = true ->
  Shlex.split (PyStr.strip (PyStr.join " " pre)) = Ok bg_parts ->
  bg_parts <> [] ->
  popen_error w bg_parts = None ->
  execute_command w line m
  = (Ok tt,
     {| self := register (spawned m) (PyStr.strip (PyStr.join " " pre)) (self m);
        spawned := S (spawned m);
        trace := trace m ++
          [Spawn (spawned m) bg_parts Inherit PIPE PIPE;
           Print ("[" ++ PyStr.str (next_job_id (self m)) ++ "] "
                  ++ PyStr.strip (PyStr.join " " pre) ++ " &")] |}).
Proof.
  intros Hne Hw Hb Hp He Hparts Hpre Hs Hbg Hpo.
  rewrite (execute_single w line text name args) by assumption.
  unfold run_single. unfold bind. rewrite Hparts.
  rewrite scan_redirect_plain.
  2:{ unfold no_redirect in *. rewrite forallb_app, Hpre. reflexivity. }
  unfold try_finally, try_except, launch. rewrite He.
  cbn [command_parts stdout_redirect stderr_redirect].
  change ([] ++ pre ++ ["&"]) with (pre ++ ["&"]).
  rewrite (launch_background_starts w (pre ++ ["&"]) bg_parts m);
    rewrite ?removelast_last; try assumption.
  reflexivity.
Qed.

(** X4: when the words before the trailing [&] are plain ASCII words
    (no white space, quote or backslash in them, and no character outside
    ASCII), joining and tokenizing them again changes nothing: the program
    is started in the background with exactly these words, and the job's
    text is the words joined by single blanks. *)
Theorem background_plain_words (w : world) (line text name : string)
  (args pre : list string) (m : machine) :
  line <> EmptyString ->
  words (aliases (self m)) line = Ok (text, name :: args) ->
  is_builtin name = false ->
  PyStr.contains "|" text = false ->
  PyStr.endswith "&" text = true ->
  name :: args = pre ++ ["&"] ->
  no_redirect pre = true ->
  forallb plain_word pre = true ->
  forallb ascii_only pre = true ->
  pre <> [] ->
  popen_error w pre = None ->
  execute_command w line m
  = (Ok tt,
     {| self := register (spawned m) (PyStr.join " " pre) (self m);
        spawned := S (spawned m);
        trace := trace m ++
          [Spawn (spawned m) pre Inherit PIPE PIPE;
           Print ("[" ++ PyStr.str (next_job_id (self m)) ++ "] "
                  ++ PyStr.join " " pre ++ " &")] |}).
Proof.
  intros Hne Hw Hb Hp He Hparts Hpre Hplain _ Hn Hpo.
  rewrite (background_dispatch w line text name args pre pre m); try assumption.
  - rewrite (strip_join_plain pre Hplain). reflexivity.
  - rewrite (strip_join_plain pre Hplain). apply split_join_plain, Hplain.
Qed.

Lemma background_plain_words_witness :
  execute_command calm "makex   -j4  all &" (boot [])
  = (Ok tt,
     {| self := register 0 "makex -j4 all" (self (boot []));
        spawned := 1;
        trace := [Spawn 0 ["makex"; "-j4"; "all"] Inherit PIPE PIPE;
                  Print "[1] makex -j4 all &"] |}).
Proof.
  apply (background_plain_words calm "makex   -j4  all &" "makex   -j4  all &"
           "makex" ["-j4"; "all"; "&"] ["makex"; "-j4"; "all"] (boot []));
    try reflexivity; discriminate.
Defined.

(** A quoted argument with a blank in it does not survive: the
    background launch of [prog "a b" &] starts [prog] with two arguments. *)
Example background_splits_quoted_argument :
  execute_command calm ("prog " ++ dq ++ "a b" ++ dq ++ " &") (boot [])
  = (Ok tt,
     {| self := register 0 "prog a b" (self (boot []));
        spawned := 1;
        trace := [Spawn 0 ["prog"; "a"; "b"] Inherit PIPE PIPE;
                  Print "[1] prog a b &"] |}).
Proof. vm_compute. reflexivity. Qed.

(** ** The id that is printed can be typed back *)

Lemma int_aux_of_uint (d : Decimal.uint) : forall acc,
  PyStr.int_aux (NilEmpty.string_of_uint d) acc = Nat.of_uint_acc d acc.
Proof.
  induction d as [|d IH|d IH|d IH|d IH|d IH|d IH|d IH|d IH|d IH|d IH];
    intros acc; cbn [NilEmpty.string_of_uint PyStr.int_aux Nat.of_uint_acc];
    try reflexivity; rewrite IH; f_equal; rewrite Nat.tail_mul_spec;
    change (nat_of_ascii _ - 48) with 0 || change (nat_of_ascii _ - 48) with 1
    || change (nat_of_ascii _ - 48) with 2 || change (nat_of_ascii _ - 48) with 3
    || change (nat_of_ascii _ - 48) with 4 || change (nat_of_ascii _ - 48) with 5
    || change (nat_of_ascii _ - 48) with 6 || change (nat_of_ascii _ - 48) with 7
    || change (nat_of_ascii _ - 48) with 8 || change (nat_of_ascii _ - 48) with 9;
    lia.
Qed.

(** [int(str(n)) == n] *)
Lemma int_str (n : nat) : PyStr.int (PyStr.str n) = n.
Proof.
  unfold PyStr.int, PyStr.str. rewrite int_aux_of_uint.
  apply DecimalNat.Unsigned.of_to.
Qed.

Lemma string_of_uint_digits (d : Decimal.uint) :
  PyStr.all_digits (NilEmpty.string_of_uint d) = true /\
  plain (NilEmpty.string_of_uint d) = true.
Proof.
  induction d as [|d IH|d IH|d IH|d IH|d IH|d IH|d IH|d IH|d IH|d IH];
    cbn [NilEmpty.string_of_uint PyStr.all_digits plain];
    try (split; reflexivity); destruct IH as [H1 H2]; rewrite H1, H2;
    split; reflexivity.
Qed.

Lemma to_uint_nonempty (n : nat) :
  Shlex.nonempty (PyStr.str n) = true.
Proof.
  unfold PyStr.str. destruct (Nat.to_uint n) eqn:E; try reflexivity.
  exfalso. pose proof (DecimalNat.Unsigned.of_to n) as H. rewrite E in H.
  pose proof (DecimalNat.Unsigned.to_of Decimal.Nil) as H2.
  simpl in H. subst n. simpl in E. discriminate.
Qed.

(** [str(n).isdigit()], and [str(n)] is a plain word. *)
Lemma str_isdigit (n : nat) :
  PyStr.isdigit (PyStr.str n) = true /\ plain_word (PyStr.str n) = true.
Proof.
  pose proof (to_uint_nonempty n) as Hne.
  destruct (string_of_uint_digits (Nat.to_uint n)) as [Hd Hp].
  unfold plain_word, PyStr.isdigit. fold (PyStr.str n) in Hd, Hp.
  rewrite Hne, Hp. split; [|reflexivity].
  destruct (PyStr.str n); [discriminate | exact Hd].
Qed.

(** Registering under an id that is not in the table, then removing that
    id, gives the table back. *)
Lemma dict_del_set_fresh {V} (k : nat) (v : V) (d : list (nat * V)) :
  ~ In k (dict_keys d) ->
  dict_del Nat.eqb k (dict_set Nat.eqb k v d) = d.
Proof.
  intros H. rewrite (dict_set_fresh k v d H).
  unfold dict_del. rewrite filter_app. simpl. rewrite Nat.eqb_refl. simpl.
  rewrite app_nil_r. apply (dict_del_absent k d H).
Qed.

Lemma dict_get_set_same {V} (k : nat) (v : V) (d : list (nat * V)) :
  dict_get Nat.eqb k (dict_set Nat.eqb k v d) = Some v.
Proof.
  induction d as [|[k' v'] r IH]; simpl; [rewrite Nat.eqb_refl; reflexivity|].
  destruct (Nat.eqb k k') eqn:E; simpl; rewrite E; [reflexivity | exact IH].
Qed.

(** X5: the id printed at a background registration, typed after [fg],
    names that job. In a well-formed table with no foreground process
    tracked and [fg] not an alias: after a job was registered, the line
    [fg id], with the id in decimal as [[id] text &] showed it, prints the
    job's text, waits for the job's process and leaves the table as it was
    before the registration; only the counter stays advanced. *)
Theorem fg_printed_id (w : world) (p : handle) (text : string) (m : machine) :
  well_formed (self m) ->
  untracked (self m) ->
  dict_get String.eqb "fg" (aliases (self m)) = None ->
  execute_command w ("fg " ++ PyStr.str (next_job_id (self m)))
    (with_self (register p text (self m)) m)
  = (Ok tt,
     {| self := set_next_job_id (next_job_id (self m) + 1) (self m);
        spawned := spawned m;
        trace := trace m ++ [Print text; Wait p] ++
                 (if sigint_in_wait w p then [Print "^C"] else []) |}).
Proof.
  intros [Hb Hd] Hu Ha.
  set (n := next_job_id (self m)).
  destruct (str_isdigit n) as [Hdig Hplain].
  assert (Hsplit : Shlex.split ("fg " ++ PyStr.str n) = Ok ["fg"; PyStr.str n]).
  { apply (split_join_plain ["fg"; PyStr.str n]). cbn [forallb].
    rewrite Hplain. reflexivity. }
  assert (Hfresh : ~ In n (dict_keys (jobs (self m)))).
  { intros Hin. rewrite Forall_forall in Hb. specialize (Hb _ Hin). unfold n in Hb. lia. }
  pose proof (fg_job_untracked w ("fg " ++ PyStr.str n) ("fg " ++ PyStr.str n)
                (PyStr.str n) [] (with_self (register p text (self m)) m)) as H.
  cbn [with_self self register set_next_job_id set_jobs aliases jobs
       foreground_process spawned trace] in H.
  rewrite int_str in H. fold n in H. rewrite dict_get_set_same in H.
  rewrite dict_del_set_fresh in H by exact Hfresh.
  cbn [command process] in H.
  rewrite H; [reflexivity | discriminate | | exact Hdig | exact Hu].
  unfold words. rewrite Hsplit, Ha. reflexivity.
Qed.

Lemma fg_printed_id_witness :
  execute_command interrupting "fg 3"
    (with_self (register 7 "makex all" (self session_with_two_jobs))
       session_with_two_jobs)
  = (Ok tt,
     {| self := set_next_job_id 4 (self session_with_two_jobs);
        spawned := 2;
        trace := trace session_with_two_jobs ++
                 [Print "makex all"; Wait 7; Print "^C"] |}).
Proof.
  apply (fg_printed_id interrupting 7 "makex all" session_with_two_jobs).
  - split; cbn.
    + repeat constructor.
    + constructor; [intros [H|[]]; discriminate|].
      constructor; [intros []|constructor].
  - right. reflexivity.
  - reflexivity.
Defined.

(** ** [jobs] twice *)

Lemma filter_idempotent {A} (f : A -> bool) (l : list A) :
  filter f (filter f l) = filter f l.
Proof.
  induction l as [|x r IH]; simpl; [reflexivity|].
  destruct (f x) eqn:E; simpl; rewrite ?E, IH; reflexivity.
Qed.

Lemma filter_keys_NoDup {V} (f : nat * V -> bool) (d : list (nat * V)) :
  NoDup (dict_keys d) -> NoDup (dict_keys (filter f d)).
Proof.
  induction d as [|[k v] r IH]; simpl; intros H; [constructor|].
  inversion H as [|? ? Hn Hr]; subst.
  destruct (f (k, v)); simpl; [|apply IH, Hr].
  constructor; [|apply IH, Hr].
  intros Hin. apply Hn. unfold dict_keys in *. apply in_map_iff in Hin.
  destruct Hin as [x [Hx Hin]]. apply filter_In in Hin.
  apply in_map_iff. exists x. split; [exact Hx | apply Hin].
Qed.

Lemma listing_alive (w : world) (l : list (nat * job)) :
  flat_map (listing w) (filter (alive w) l)
  = flat_map (fun kj => [Poll (process (snd kj));
                         Print (job_line (fst kj) "Running" (snd kj))])
      (filter (alive w) l).
Proof.
  induction l as [|kj r IH]; simpl; [reflexivity|].
  destruct (alive w kj) eqn:E; [|exact IH].
  simpl. rewrite IH. unfold alive in E. apply negb_true_iff in E.
  rewrite E. reflexivity.
Qed.

(** X6: [jobs] a second time, the children answering the polls as
    before, removes nothing more: every job the first listing left is
    listed as [Running] and the table stays as the first listing left
    it. *)
Theorem jobs_twice (w : world) (line text : string) (rest : list string)
  (m : machine) :
  line <> EmptyString ->
  words (aliases (self m)) line = Ok (text, "jobs" :: rest) ->
  NoDup (dict_keys (jobs (self m))) ->
  execute_command w line (snd (execute_command w line m))
  = (Ok tt,
     {| self := self (snd (execute_command w line m));
        spawned := spawned m;
        trace := trace (snd (execute_command w line m)) ++
          flat_map (fun kj => [Poll (process (snd kj));
                               Print (job_line (fst kj) "Running" (snd kj))])
            (jobs (self (snd (execute_command w line m)))) |}).
Proof.
  intros Hne Hw Hnd.
  rewrite (jobs_listing_unique w line text rest m Hne Hw Hnd). cbn [snd].
  rewrite (jobs_listing_unique w line text rest); cbn [self jobs set_jobs aliases];
    [| exact Hne | exact Hw | apply filter_keys_NoDup, Hnd].
  rewrite filter_idempotent, listing_alive. reflexivity.
Qed.

Lemma jobs_twice_witness :
  execute_command first_exited "jobs"
    (snd (execute_command first_exited "jobs" session_with_two_jobs))
  = (Ok tt,
     {| self := self (snd (execute_command first_exited "jobs" session_with_two_jobs));
        spawned := 2;
        trace := trace (snd (execute_command first_exited "jobs" session_with_two_jobs)) ++
          flat_map (fun kj => [Poll (process (snd kj));
                               Print (job_line (fst kj) "Running" (snd kj))])
            (jobs (self (snd (execute_command first_exited "jobs"
                                session_with_two_jobs)))) |}).
Proof.
  apply (jobs_twice first_exited "jobs" "jobs" [] session_with_two_jobs);
    [discriminate | reflexivity |].
  unfold session_with_two_jobs, dict_keys. cbn [self jobs map fst].
  constructor; [intros [H|[]]; discriminate|].
  constructor; [intros []|constructor].
Defined.

(** ** [fg] and [bg] without a job number *)

(** X7: [fg] and [bg] with no argument, or with a first argument of
    ASCII characters that is not a string of digits (a negative number, a
    [%1], a name), print their usage line and change nothing: no job is
    touched, no process is polled, signalled or waited for. *)
Theorem fg_bg_usage (w : world) (line text name : string) (args : list string)
  (m : machine) :
  line <> EmptyString ->
  words (aliases (self m)) line = Ok (text, name :: args) ->
  name = "fg" \/ name = "bg" ->
  match args with
  | [] => True
  | a0 :: _ => ascii_only a0 = true /\ PyStr.isdigit a0 = false
  end ->
  execute_command w line m
  = (Ok tt, push_event (Print ("Usage: " ++ name ++ " [job_id]")) m).
Proof.
  intros Hne Hw Hn Ha.
  rewrite (execute_command_words w _ text name args) by assumption.
  destruct args as [|a0 r].
  - destruct Hn as [-> | ->]; reflexivity.
  - destruct Ha as [_ Ha].
    destruct Hn as [-> | ->]; unfold dispatch; cbn [String.eqb Ascii.eqb Bool.eqb];
      unfold builtin_fg, builtin_bg; rewrite Ha; reflexivity.
Qed.

Lemma fg_bg_usage_witness :
  execute_command calm "fg -1" session_with_job
  = (Ok tt, push_event (Print "Usage: fg [job_id]") session_with_job).
Proof.
  apply (fg_bg_usage calm "fg -1" "fg -1" "fg" ["-1"] session_with_job);
    [discriminate | reflexivity | left; reflexivity | split; reflexivity].
Defined.

(** ** Blank lines *)

Lemma lstrip_all_space (s : string) :
  forallb PyStr.isspace (list_ascii_of_string s) = true ->
  PyStr.lstrip s = EmptyString.
Proof.
  induction s as [|c r IH]; simpl; intros H; [reflexivity|].
  apply andb_prop in H. destruct H as [Hc Hr]. rewrite Hc. apply IH, Hr.
Qed.

(** X8: a line of white space only is not dispatched: nothing is added
    to the history, [execute_command] is not called, and the loop shows the
    next prompt; [foreground_command] is left holding the empty string. *)
Theorem blank_line_not_dispatched (w : world) (cmd : string) (rest : list input)
  (m : machine) :
  forallb PyStr.isspace (list_ascii_of_string cmd) = true ->
  myshell_loop (Line cmd w :: rest) m
  = myshell_loop rest
      (push_event Prompt
         (with_self (set_foreground_command (Some EmptyString) (self m)) m)).
Proof.
  intros H. cbn [myshell_loop]. unfold dispatch_line, PyStr.strip.
  rewrite (lstrip_all_space cmd H). reflexivity.
Qed.

Lemma blank_line_not_dispatched_witness :
  myshell_loop [Line "   " calm; Line "echo ok" calm] (boot [])
  = myshell_loop [Line "echo ok" calm]
      (push_event Prompt
         (with_self (set_foreground_command (Some EmptyString) (self (boot [])))
            (boot []))).
Proof.
  apply (blank_line_not_dispatched calm "   " [Line "echo ok" calm] (boot [])).
  reflexivity.
Defined.

(** ** Redirection files are closed on every path *)

Lemma file_quiet_refl (m : machine) : file_quiet m m.
Proof. exists []. rewrite app_nil_r. split; [reflexivity | constructor]. Qed.

Lemma file_quiet_trans (a b c : machine) :
  file_quiet a b -> file_quiet b c -> file_quiet a c.
Proof.
  intros [e1 [T1 F1]] [e2 [T2 F2]]. exists (e1 ++ e2).
  rewrite T2, T1, app_assoc. split; [reflexivity | apply Forall_app; split; assumption].
Qed.

Lemma file_quiet_emit (e : event) :
  is_file_event e = false -> respects file_quiet (emit e).
Proof.
  intros He m r m' [= <- <-]. exists [e].
  split; [reflexivity | constructor; [exact He | constructor]].
Qed.

Lemma file_quiet_update (f : shell -> shell) : respects file_quiet (update f).
Proof. intros m r m' [= <- <-]. exists []. split; [symmetry; apply app_nil_r | constructor]. Qed.

Lemma file_quiet_get_self : respects file_quiet get_self.
Proof. intros m r m' [= <- <-]. apply file_quiet_refl. Qed.

Ltac quiet :=
  repeat first
    [ apply (respects_ret file_quiet file_quiet_refl)
    | apply (respects_raise file_quiet file_quiet_refl)
    | apply (respects_lift file_quiet file_quiet_refl)
    | apply file_quiet_get_self
    | apply file_quiet_update
    | apply file_quiet_emit; reflexivity
    | apply (respects_bind file_quiet file_quiet_trans); [ | intros ? ]
    | apply (respects_try_except file_quiet file_quiet_trans); [ | intros ? ]
    | assumption
    | match goal with
      | |- respects file_quiet (if ?b then _ else _) => destruct b
      | |- respects file_quiet (match ?x with _ => _ end) => destruct x
      end ].

Lemma file_quiet_handle_signal (sig : signal) :
  respects file_quiet (handle_signal sig).
Proof. unfold handle_signal, get_foreground_command, print. quiet. Qed.

Lemma file_quiet_Popen (w : world) (argv : list string) (i o e : stream) :
  respects file_quiet (Popen w argv i o e).
Proof.
  intros m r m'. unfold Popen. destruct argv as [|a l].
  - intros [= <- <-]. apply file_quiet_refl.
  - destruct (popen_error w (a :: l)); intros [= <- <-]; [apply file_quiet_refl|].
    eexists. split; [reflexivity | repeat constructor].
Qed.

Lemma file_quiet_wait (w : world) (p : handle) : respects file_quiet (wait w p).
Proof.
  unfold wait.
  apply (respects_bind file_quiet file_quiet_trans); [quiet | intros _].
  apply (respects_bind file_quiet file_quiet_trans); [|intros _; quiet].
  destruct (sigtstp_in_wait w p); [apply file_quiet_handle_signal | quiet].
Qed.

Lemma file_quiet_launch (w : world) (text : string) (rd : redirection) :
  respects file_quiet (launch w text rd).
Proof.
  unfold launch, launch_background, subprocess_run, print.
  destruct (PyStr.endswith "&" text).
  - apply (respects_bind file_quiet file_quiet_trans); [quiet | intros bg_parts].
    destruct bg_parts; [quiet|].
    apply (respects_bind file_quiet file_quiet_trans);
      [apply file_quiet_Popen | intros p]. quiet.
  - apply (respects_bind file_quiet file_quiet_trans);
      [apply file_quiet_Popen | intros p].
    apply (respects_try_except file_quiet file_quiet_trans);
      [apply file_quiet_wait | intros e]. quiet.
Qed.

Lemma file_quiet_launch_handler (name : string) (e : exn) :
  respects file_quiet (launch_handler name e).
Proof. unfold launch_handler, print. quiet. Qed.

(** What the scan can leave: no file and all words; a message and the
    early return; an error of [open]; or one opened file. *)
Lemma scan_redirect_outcome (w : world) (parts : list string) :
  forall seen m r m1,
    scan_redirect w parts seen m = (r, m1) ->
    (m1 = m /\ exists cp, r = Ok (Some {| command_parts := cp;
                                          stdout_redirect := None;
                                          stderr_redirect := None |})) \/
    (r = Ok None /\ exists msg, m1 = push_event (Print msg) m) \/
    (m1 = m /\ exists e, r = Raise e) \/
    (exists op target cp,
        is_redirect op = true /\
        r = Ok (Some (redirection_of op target cp)) /\
        m1 = push_event (Open target (mode_of op)) m).
Proof.
  induction parts as [|part rest IH]; intros seen m r m1; simpl.
  - intros [= <- <-]. left. split; [reflexivity | eexists; reflexivity].
  - destruct (is_redirect part) eqn:Hop; [|apply IH].
    destruct rest as [|target rest'].
    + intros [= <- <-]. right. left. split; [reflexivity | eexists; reflexivity].
    + unfold open_file.
      destruct (open_error w target) as [e|].
      * destruct (is_redirect_cases part Hop) as [-> | [-> | [-> | ->]]];
          intros [= <- <-]; right; right; left;
          (split; [reflexivity | eexists; reflexivity]).
      * destruct (is_redirect_cases part Hop) as [-> | [-> | [-> | ->]]];
          intros [= <- <-]; right; right; right;
          [ exists ">", target, seen | exists ">>", target, seen
          | exists "2>", target, seen | exists "&>", target, seen ];
          repeat split; reflexivity.
Qed.

Lemma close_events_of (op target : string) (cp : list string) (path : string) :
  In (Close path) (close_events (redirection_of op target cp)) <-> path = target.
Proof.
  unfold close_events, redirection_of. cbn [stdout_redirect stderr_redirect].
  destruct (String.eqb op "2>"), (String.eqb op "&>"); cbn [orb f_path app In];
    (split;
     [ intros H; repeat (destruct H as [H|H]; [injection H as <-; reflexivity|]);
       destruct H
     | intros ->; left; reflexivity ]).
Qed.

Lemma not_file_event_in (evs : list event) (e : event) :
  Forall (fun e => is_file_event e = false) evs ->
  is_file_event e = true -> ~ In e evs.
Proof.
  intros H He Hin. rewrite Forall_forall in H. rewrite (H e Hin) in He. discriminate.
Qed.

(** The guarded launch followed by the [finally] clause. *)
Lemma guarded_launch_events (w : world) (text name : string) (rd : redirection)
  (m m' : machine) (res : result unit) :
  try_finally (try_except (launch w text rd) (launch_handler name))
    (close_redirects rd) m = (res, m') ->
  exists evs, trace m' = trace m ++ evs ++ close_events rd /\
              Forall (fun e => is_file_event e = false) evs.
Proof.
  unfold try_finally.
  destruct (try_except (launch w text rd) (launch_handler name) m) as [r1 m1] eqn:E.
  rewrite close_redirects_events. intros [= _ <-].
  assert (H : respects file_quiet (try_except (launch w text rd) (launch_handler name))).
  { apply (respects_try_except file_quiet file_quiet_trans);
      [apply file_quiet_launch | intros e; apply file_quiet_launch_handler]. }
  destruct (H _ _ _ E) as [evs [Ht Hf]]. exists evs.
  unfold push_events. cbn [trace]. rewrite Ht, <- app_assoc. split; [reflexivity | exact Hf].
Qed.

(** X9: whatever a single-stage external command does (the program
    starts or not, the wait is interrupted, the background branch fails),
    every file [execute_command] has opened for a redirection is closed
    when it returns or raises, and nothing is closed that was not opened. *)
Theorem redirect_files_closed (w : world) (line text name : string)
  (args : list string) (m m' : machine) (r : result unit) :
  line <> EmptyString ->
  words (aliases (self m)) line = Ok (text, name :: args) ->
  is_builtin name = false ->
  PyStr.contains "|" text = false ->
  execute_command w line m = (r, m') ->
  exists evs,
    trace m' = trace m ++ evs /\
    forall path, (exists mode, In (Open path mode) evs) <-> In (Close path) evs.
Proof.
  intros Hne Hw Hb Hp.
  rewrite (execute_single w line text name args) by assumption.
  unfold run_single, bind.
  destruct (scan_redirect w (name :: args) [] m) as [r1 m1] eqn:E.
  destruct (scan_redirect_outcome w _ _ _ _ _ E)
    as [[-> [cp ->]] | [[-> [msg ->]] | [[-> [e ->]] | [op [target [cp [Hop [-> ->]]]]]]]].
  - intros H. apply guarded_launch_events in H. destruct H as [evs [Ht Hf]].
    exists evs. unfold close_events in Ht. cbn in Ht. rewrite app_nil_r in Ht.
    split; [exact Ht|]. intros path. split.
    + intros [mode Hin]. exfalso.
      apply (not_file_event_in evs (Open path mode) Hf eq_refl Hin).
    + intros Hin. exfalso. apply (not_file_event_in evs (Close path) Hf eq_refl Hin).
  - intros [= <- <-]. exists [Print msg]. split; [reflexivity|].
    intros path. split.
    + intros [mode [H|[]]]. discriminate.
    + intros [H|[]]. discriminate.
  - intros [= <- <-]. exists []. split; [symmetry; apply app_nil_r|].
    intros path. split; [intros [mode []] | intros []].
  - intros H. apply guarded_launch_events in H. destruct H as [evs [Ht Hf]].
    exists (Open target (mode_of op) :: evs ++ close_events (redirection_of op target cp)).
    unfold push_event in Ht. cbn [trace] in Ht. rewrite <- app_assoc in Ht.
    split; [exact Ht|]. intros path. split.
    + intros [mode [Hin|Hin]].
      * injection Hin as <- _. right. apply in_or_app. right.
        apply close_events_of. reflexivity.
      * apply in_app_or in Hin. destruct Hin as [Hin|Hin].
        -- exfalso. apply (not_file_event_in evs (Open path mode) Hf eq_refl Hin).
        -- exfalso. unfold close_events in Hin.
           destruct (stdout_redirect _), (stderr_redirect _); cbn in Hin;
             intuition discriminate.
    + intros [Hin|Hin]; [discriminate|].
      apply in_app_or in Hin. destruct Hin as [Hin|Hin].
      * exfalso. apply (not_file_event_in evs (Close path) Hf eq_refl Hin).
      * apply close_events_of in Hin. subst path.
        exists (mode_of op). left. reflexivity.
Qed.

Lemma redirect_files_closed_witness :
  exists evs,
    trace (snd (execute_command interrupting "catx a &> log" (boot []))) = [] ++ evs /\
    forall path, (exists mode, In (Open path mode) evs) <-> In (Close path) evs.
Proof.
  apply (redirect_files_closed interrupting "catx a &> log" "catx a &> log" "catx"
           ["a"; "&>"; "log"] (boot [])
           (snd (execute_command interrupting "catx a &> log" (boot [])))
           (Raise KeyboardInterrupt));
    try reflexivity.
  discriminate.
Defined.

(** Ctrl+C with the output redirected: the child is killed and the file
    closed, twice for [&>], before the interrupt leaves. *)
Example redirect_files_closed_on_interrupt :
  execute_command interrupting "catx a &> log" (boot [])
  = (Raise KeyboardInterrupt,
     {| self := self (boot []);
        spawned := 1;
        trace := [Open "log" ModeW;
                  Spawn 0 ["catx"; "a"] Inherit
                    (ToFile {| f_path := "log"; f_mode := ModeW |})
                    (ToFile {| f_path := "log"; f_mode := ModeW |});
                  Wait 0; Kill 0; Close "log"; Close "log"] |}).
Proof. vm_compute. reflexivity. Qed.

(** ** The job table of every session *)

Lemma keeps_tidy_refl (m : machine) : keeps_tidy m m.
Proof. intros Hu. split; [exact Hu|]. split; [lia | auto]. Qed.

Lemma keeps_tidy_trans (a b c : machine) :
  keeps_tidy a b -> keeps_tidy b c -> keeps_tidy a c.
Proof.
  intros Hab Hbc Hu. destruct (Hab Hu) as [Hu1 [L1 T1]].
  destruct (Hbc Hu1) as [Hu2 [L2 T2]].
  split; [exact Hu2|]. split; [lia | auto].
Qed.

(** A step that changes neither the jobs, the counter nor the tracked
    process, and forgets no handle. *)
Lemma keeps_tidy_frame (m m' : machine) :
  jobs (self m') = jobs (self m) ->
  next_job_id (self m') = next_job_id (self m) ->
  foreground_process (self m') = foreground_process (self m) ->
  spawned m <= spawned m' ->
  keeps_tidy m m'.
Proof.
  intros Hj Hn Hf Hs Hu. split; [unfold untracked in *; rewrite Hf; exact Hu|].
  split; [exact Hs|].
  unfold tidy, well_formed, job_processes. rewrite Hj, Hn.
  intros [Hw [Hd [Hb Hc]]]. repeat split; try apply Hw; try assumption.
  eapply Forall_impl; [|exact Hb]. simpl. intros; lia.
Qed.

Lemma filter_map_NoDup {A B} (f : A -> B) (keep : A -> bool) :
  forall items, NoDup (map f items) -> NoDup (map f (filter keep items)).
Proof.
  intros l. induction l as [|x r IH]; simpl; intros H; [constructor|].
  inversion H as [|? ? Hn Hr]; subst.
  destruct (keep x); simpl; [|apply IH, Hr].
  constructor; [|apply IH, Hr].
  intros Hin. apply Hn. apply in_map_iff in Hin. destruct Hin as [y [Hy Hin]].
  apply filter_In in Hin. apply in_map_iff. exists y. split; [exact Hy | apply Hin].
Qed.

Lemma filter_Forall {A} (P : A -> Prop) (p : A -> bool) (l : list A) :
  Forall P l -> Forall P (filter p l).
Proof.
  intros H. apply Forall_forall. intros x Hx. apply filter_In in Hx.
  rewrite Forall_forall in H. apply H, Hx.
Qed.

Lemma map_filter_Forall {A B} (P : B -> Prop) (f : A -> B) (p : A -> bool)
  (l : list A) :
  Forall P (map f l) -> Forall P (map f (filter p l)).
Proof.
  intros H. apply Forall_forall. intros y Hy. apply in_map_iff in Hy.
  destruct Hy as [x [<- Hx]]. apply filter_In in Hx.
  rewrite Forall_forall in H. apply H. apply in_map. apply Hx.
Qed.

(** What the background branch does to the shell: nothing, or the
    registration of the process just created. *)
Lemma launch_background_outcome (w : world) (cp : list string)
  (m m' : machine) (r : result unit) :
  launch_background w cp m = (r, m') ->
  (self m' = self m /\ spawned m' = spawned m) \/
  (exists c, self m' = register (spawned m) c (self m) /\
             spawned m' = S (spawned m)).
Proof.
  unfold launch_background. msimpl.
  destruct (Shlex.split _) as [[|a l]|e];
    try (intros [= <- <-]; left; split; reflexivity).
  unfold Popen. destruct (popen_error w (a :: l)); msimpl;
    intros [= <- <-]; [left; split; reflexivity|].
  right. eexists. split; reflexivity.
Qed.

Lemma keeps_tidy_launch_background (w : world) (cp : list string) :
  respects keeps_tidy (launch_background w cp).
Proof.
  intros m r m' H. pose proof (launch_background_registers _ _ _ _ _ H) as Hreg.
  apply launch_background_outcome in H.
  destruct H as [[Hs Hsp] | [c [Hs Hsp]]].
  - apply keeps_tidy_frame; rewrite ?Hs, ?Hsp; reflexivity.
  - intros Hu. split; [unfold untracked in *; rewrite Hs; exact Hu|].
    split; [lia|]. intros [Hw [Hd [Hb Hc]]].
    assert (Hw' : well_formed (self m')).
    { destruct Hreg as [Hk | Hr]; [apply (counted_keeps _ _ Hk) | apply (counted_registers _ _ Hr)];
        exact Hw. }
    assert (Hfresh : ~ In (next_job_id (self m)) (dict_keys (jobs (self m)))).
    { intros Hin. destruct Hw as [Hlt _]. rewrite Forall_forall in Hlt.
      specialize (Hlt _ Hin). lia. }
    unfold tidy, job_processes. rewrite Hs, Hsp.
    cbn [register set_next_job_id set_jobs jobs].
    rewrite (dict_set_fresh _ _ _ Hfresh). rewrite map_app. cbn [map snd process].
    split; [rewrite Hs in Hw'; exact Hw'|]. split; [|split].
    + apply NoDup_app; [exact Hd | repeat constructor; intros [] |].
      intros x Hx [<-|[]]. unfold job_processes in Hb.
      rewrite Forall_forall in Hb. specialize (Hb _ Hx). lia.
    + apply Forall_app. split.
      * eapply Forall_impl; [|exact Hb]. simpl. intros; lia.
      * constructor; [lia | constructor].
    + apply Forall_app. split; [exact Hc|].
      constructor; [discriminate | constructor].
Qed.

(** Every session keeps the table tidy. *)
Lemma keeps_tidy_myshell (inputs : list input) :
  respects keeps_tidy (myshell inputs).
Proof.
  apply respects_myshell.
  - exact keeps_tidy_refl.
  - exact keeps_tidy_trans.
  - intros e _ m r m' [= <- <-]. apply keeps_tidy_frame; reflexivity.
  - intros m h argv i o e. apply keeps_tidy_frame; try reflexivity. cbn. apply Nat.le_succ_diag_r.
  - intros f m r m' [= <- <-]. apply keeps_tidy_frame; reflexivity.
  - intros k m r m' [= <- <-] Hu. split; [exact Hu|]. split; [cbn; lia|].
    unfold tidy, well_formed, job_processes, dict_del.
    cbn [self spawned jobs next_job_id set_jobs].
    intros [[Hlt Hnd] [Hd [Hb Hc]]]. repeat split.
    + apply (map_filter_Forall _ fst). exact Hlt.
    + apply (filter_map_NoDup fst). exact Hnd.
    + apply filter_map_NoDup. exact Hd.
    + apply (map_filter_Forall _ (fun kj => process (snd kj))). exact Hb.
    + apply filter_Forall. exact Hc.
  - intros m r m' [= <- <-] _. split; [right; reflexivity|].
    split; [cbn; lia|]. intros H. exact H.
  - intros c m r m' [= <- <-]. apply keeps_tidy_frame; reflexivity.
  - intros sig m r m' H Hu. rewrite (handle_signal_untracked sig m Hu) in H.
    injection H as <- <-. apply keeps_tidy_refl, Hu.
  - exact keeps_tidy_launch_background.
Qed.

(** X10: in every state reached by a session from a fresh shell in
    which [calc] was not run (its [eval] can rebind the attributes of the
    shell), whatever else was typed and however the environment answered:
    no two jobs of the table share an id or a process; every job's id is at
    least 1 and below the counter; every job's process was created by the
    shell; every job has a command text; and every job's status field is
    [running]. *)
Theorem session_job_table (loaded_aliases : list (string * string))
  (inputs : list input) (r : result session) (m : machine) :
  myshell inputs (boot loaded_aliases) = (r, m) ->
  (forall args, ~ In (Builtin "calc" args) (trace m)) ->
  NoDup (dict_keys (jobs (self m))) /\
  NoDup (job_processes (self m)) /\
  (forall k j, In (k, j) (jobs (self m)) ->
     1 <= k < next_job_id (self m) /\
     process j < spawned m /\
     command j <> None /\
     status j = running).
Proof.
  intros E _.
  destruct (keeps_tidy_myshell inputs _ _ _ E) as [_ [_ T]]; [left; reflexivity|].
  destruct T as [[Hlt Hnd] [Hd [Hb Hc]]].
  { repeat split; constructor. }
  destruct (inert_myshell inputs _ _ _ E) as [_ [_ Hr]]; [left; reflexivity|].
  specialize (Hr ltac:(constructor)). unfold all_running in Hr.
  assert (Hone : forall k, In k (dict_keys (jobs (self m))) -> 1 <= k).
  { unfold myshell, bind, prompt, emit in E. cbn [self spawned trace] in E.
    destruct (counted_myshell_loop inputs _ _ _ E) as [_ [_ F]].
    intros k Hk. destruct (F k Hk) as [[]|H]. exact H. }
  split; [exact Hnd|]. split; [exact Hd|].
  intros k j Hin. rewrite Forall_forall in Hlt, Hb, Hc, Hr. repeat split.
  - apply Hone. unfold dict_keys. apply (in_map fst _ _ Hin).
  - apply Hlt. unfold dict_keys. apply (in_map fst _ _ Hin).
  - apply Hb. unfold job_processes.
    apply (in_map (fun kj => process (snd kj)) _ _ Hin).
  - apply (Hc _ Hin).
  - apply (Hr _ Hin).
Qed.

Lemma session_job_table_witness :
  NoDup (dict_keys (jobs (self session_after_fg))) /\
  NoDup (job_processes (self session_after_fg)) /\
  (forall k j, In (k, j) (jobs (self session_after_fg)) ->
     1 <= k < next_job_id (self session_after_fg) /\
     process j < spawned session_after_fg /\
     command j <> None /\
     status j = running).
Proof.
  apply (session_job_table []
           ([Line "sleepx 1 &" calm; Line "sleepx 100 &" calm] ++
            [Line "fg 1" calm; Line "sleepx 7 &" calm])
           (Ok Prompting) session_after_fg session_after_fg_reached).
  intros args H. cbn in H.
  repeat (destruct H as [H|H]; [discriminate H|]). exact H.
Defined.

(** ** A pipeline stage that does not start *)

Lemma Popen_start_error (w : world) (argv : list string) (i o e : stream)
  (m : machine) :
  Popen w argv i o e m
  = match start_error w argv with
    | Some x => (Raise x, m)
    | None => (Ok (spawned m),
               {| self := self m; spawned := S (spawned m);
                  trace := trace m ++ [Spawn (spawned m) argv i o e] |})
    end.
Proof.
  unfold Popen, start_error. destruct argv as [|a l]; [reflexivity|].
  destruct (popen_error w (a :: l)); reflexivity.
Qed.

(** The loop over stages of which the first ones start and the next does
    not. *)
Lemma pipeline_loop_fails (w : world) (good : list (list string))
  (bad : list string) (rest : list (list string)) (x : exn) :
  forall (i n : nat) (lo pr : option handle) (m : machine),
    (forall argv, In argv good -> start_error w argv = None) ->
    start_error w bad = Some x ->
    exists evs,
      pipeline_loop w (good ++ bad :: rest) i n lo pr m
      = (Raise x, {| self := self m; spawned := spawned m + length good;
                     trace := trace m ++ evs |}) /\
      Forall (fun e => is_stage_event e = true) evs /\
      started evs = good.
Proof.
  induction good as [|g good' IH]; intros i n lo pr m Hgood Hbad.
  - exists []. rewrite app_nil_l. cbn [pipeline_loop]. unfold bind.
    rewrite Popen_start_error, Hbad. destruct m as [s sp t]. cbn.
    rewrite Nat.add_0_r, app_nil_r.
    split; [reflexivity|]. split; [constructor | reflexivity].
  - rewrite <- app_comm_cons. cbn [pipeline_loop]. unfold bind at 1.
    rewrite Popen_start_error, (Hgood g (or_introl eq_refl)).
    set (m1 := {| self := self m; spawned := S (spawned m); trace := _ |}).
    destruct lo as [h|].
    + unfold bind at 1. unfold emit. cbn [self spawned trace m1].
      match goal with
      | |- context [pipeline_loop w _ ?i' n ?lo' ?pr' ?m2] =>
          destruct (IH i' n lo' pr' m2) as [evs [Hrun [Hf Hs]]];
            [intros a Ha; apply Hgood; right; exact Ha | exact Hbad |]
      end.
      exists (Spawn (spawned m) g (StdoutOf h)
                (if Nat.ltb i (n - 1) then PIPE else SysStdout) SysStderr
              :: ClosePipe h :: evs).
      rewrite Hrun. cbn [self spawned trace length].
      split; [|split].
      * f_equal. f_equal; [lia|]. rewrite <- !app_assoc. reflexivity.
      * constructor; [reflexivity|]. constructor; [reflexivity | exact Hf].
      * cbn [started]. rewrite Hs. reflexivity.
    + unfold bind at 1. unfold ret.
      match goal with
      | |- context [pipeline_loop w _ ?i' n ?lo' ?pr' ?m2] =>
          destruct (IH i' n lo' pr' m2) as [evs [Hrun [Hf Hs]]];
            [intros a Ha; apply Hgood; right; exact Ha | exact Hbad |]
      end.
      exists (Spawn (spawned m) g Inherit
                (if Nat.ltb i (n - 1) then PIPE else SysStdout) SysStderr :: evs).
      rewrite Hrun. unfold m1. cbn [self spawned trace length].
      split; [|split].
      * f_equal. f_equal; [lia|]. rewrite <- !app_assoc. reflexivity.
      * constructor; [reflexivity | exact Hf].
      * cbn [started]. rewrite Hs. reflexivity.
Qed.

(** X11: in a pipeline, a stage whose program cannot be started (it is
    not found, or its piece of the line is empty) is not reported by a
    message: the error leaves [execute_command], and all that has happened
    by then is that the stages before it were started, in order, and the
    shell's ends of their pipes closed. Nothing is printed, no stage is
    waited for, killed or signalled, and the stages after the failing one
    are never started. *)
Theorem pipeline_stage_fails (w : world) (line text name : string)
  (args : list string) (good rest : list (list string)) (bad : list string)
  (x : exn) (m : machine) :
  line <> EmptyString ->
  words (aliases (self m)) line = Ok (text, name :: args) ->
  is_builtin name = false ->
  PyStr.contains "|" text = true ->
  map Shlex.split (PyStr.split "|" text) = map Ok (good ++ bad :: rest) ->
  (forall argv, In argv good -> start_error w argv = None) ->
  start_error w bad = Some x ->
  exists evs,
    execute_command w line m
    = (Raise x, {| self := self m; spawned := spawned m + length good;
                   trace := trace m ++ evs |}) /\
    Forall (fun e => is_stage_event e = true) evs /\
    started evs = good.
Proof.
  intros Hne Hw Hb Hp Hs Hgood Hbad.
  rewrite (execute_command_words w _ text name args) by assumption.
  rewrite dispatch_external by exact Hb.
  unfold run_external. rewrite Hp. unfold run_pipeline.
  unfold bind at 1. rewrite (split_stages_ok _ _ m Hs).
  destruct (pipeline_loop_fails w good bad rest x 0
              (length (good ++ bad :: rest)) None None m Hgood Hbad)
    as [evs [Hrun Hf]].
  exists evs. unfold bind. rewrite Hrun. split; [reflexivity | exact Hf].
Qed.

Lemma pipeline_stage_fails_witness :
  exists evs,
    execute_command picky "lsx -l | nosuch | wcx" (boot [])
    = (Raise (FileNotFoundError "[Errno 2] No such file or directory: 'nosuch'"),
       {| self := self (boot []); spawned := 0 + 1; trace := [] ++ evs |}) /\
    Forall (fun e => is_stage_event e = true) evs /\
    started evs = [["lsx"; "-l"]].
Proof.
  apply (pipeline_stage_fails picky "lsx -l | nosuch | wcx" "lsx -l | nosuch | wcx"
           "lsx" ["-l"; "|"; "nosuch"; "|"; "wcx"] [["lsx"; "-l"]] [["wcx"]]
           ["nosuch"]);
    try reflexivity; try discriminate.
  intros argv [<-|[]]. reflexivity.
Defined.

(** A line that ends in a pipe character: the last piece is empty, the
    first stage is started and then the empty argument vector raises. *)
Example trailing_pipe :
  execute_command calm "lsx |" (boot [])
  = (Raise (IndexError "list index out of range"),
     {| self := self (boot []); spawned := 1;
        trace := [Spawn 0 ["lsx"] Inherit PIPE SysStderr] |}).
Proof. vm_compute. reflexivity. Qed.

(** ** Aliases *)

(** Reading [a ++ b] is reading [b] from where reading [a] ends. *)
Lemma scan_app (a b : string) : forall st token quoted acc,
  Shlex.scan (a ++ b) st token quoted acc
  = (let '(st', token', quoted', acc') := scan_to a st token quoted acc in
     Shlex.scan b st' token' quoted' acc').
Proof.
  induction a as [|c r IH]; intros st token quoted acc; [reflexivity|].
  cbn [String.append Shlex.scan scan_to].
  destruct st as [| |q|es];
    repeat match goal with
           | |- context [if ?x then _ else _] => destruct x
           end; apply IH.
Qed.

(** After a line that tokenizes, a blank leaves the scanner between
    words with the words of the line read. *)
Lemma scan_after_blank (a rest : string) (ta : list string) :
  Shlex.split a = Ok ta ->
  Shlex.split (a ++ String " " rest)
  = Shlex.scan rest Shlex.Space EmptyString false ta.
Proof.
  unfold Shlex.split. intros H.
  rewrite scan_app.
  rewrite <- (append_empty_r a) in H. rewrite scan_app in H.
  destruct (scan_to a Shlex.Space EmptyString false []) as [[[st tok] q] acc].
  cbn [Shlex.scan] in H. change (Shlex.is_whitespace " ") with true.
  destruct st as [| |c|es]; try discriminate; cbn [Shlex.scan];
    change (Shlex.is_whitespace " ") with true; cbn iota;
    injection H as H; unfold Shlex.last_token in H;
    destruct (Shlex.nonempty tok) eqn:Et, q; cbn in H |- *;
    subst ta; try reflexivity;
    destruct tok; try discriminate; reflexivity.
Qed.

(** X12: the words of an aliased line are the words of the alias text
    followed by the arguments of the line, when these arguments are plain
    (they need no quoting). *)
Theorem alias_arguments_appended (al : list (string * string))
  (line name a : string) (args ta : list string) :
  Shlex.split line = Ok (name :: args) ->
  dict_get String.eqb name al = Some a ->
  Shlex.split a = Ok ta ->
  forallb plain_word args = true ->
  words al line = Ok ((a ++ " " ++ PyStr.join " " args)%string, ta ++ args).
Proof.
  intros Hl Ha Hta Hp. unfold words. rewrite Hl, Ha.
  change (a ++ " " ++ PyStr.join " " args)%string
    with (a ++ String " " (PyStr.join " " args))%string.
  rewrite (scan_after_blank a _ ta Hta), (scan_join_plain args ta Hp).
  reflexivity.
Qed.

Lemma alias_arguments_appended_witness :
  words [("ll", "lsx -l '--color=auto'")] "ll /tmp /var"
  = Ok ("lsx -l '--color=auto' /tmp /var", ["lsx"; "-l"; "--color=auto"; "/tmp"; "/var"]).
Proof.
  apply (alias_arguments_appended [("ll", "lsx -l '--color=auto'")]
           "ll /tmp /var" "ll" "lsx -l '--color=auto'" ["/tmp"; "/var"]
           ["lsx"; "-l"; "--color=auto"]);
    reflexivity.
Defined.

(** An argument that was quoted because of a blank in it is split by
    the second tokenizing. *)
Example alias_splits_quoted_argument :
  words [("ll", "lsx -l")] ("ll " ++ dq ++ "my dir" ++ dq)
  = Ok ("lsx -l my dir", ["lsx"; "-l"; "my"; "dir"]).
Proof. reflexivity. Qed.

(** X13: a line whose first word is an alias is dispatched as the alias
    text, a blank and the arguments joined by blanks would be, provided the
    first word of that text is not an alias in its turn (there the two
    differ: an alias is substituted once only). *)
Theorem alias_dispatches_expansion (w : world) (line name a : string)
  (args : list string) (m : machine) :
  Shlex.split line = Ok (name :: args) ->
  dict_get String.eqb name (aliases (self m)) = Some a ->
  match Shlex.split (a ++ " " ++ PyStr.join " " args) with
  | Ok (first :: _) => dict_get String.eqb first (aliases (self m)) = None
  | _ => True
  end ->
  execute_command w line m
  = execute_command w (a ++ " " ++ PyStr.join " " args) m.
Proof.
  intros Hl Ha Hfirst.
  assert (Hne : line <> EmptyString) by (intros ->; discriminate).
  destruct line as [|c r]; [contradiction|].
  assert (He : (a ++ " " ++ PyStr.join " " args)%string <> EmptyString).
  { destruct a; discriminate. }
  destruct (a ++ " " ++ PyStr.join " " args)%string as [|c' r'] eqn:E;
    [contradiction|].
  unfold execute_command, expand_alias, bind, get_self, lift, words.
  rewrite Hl, Ha. rewrite E.
  destruct (Shlex.split (String c' r')) as [[|first rest]|e]; try reflexivity.
  rewrite Hfirst. reflexivity.
Qed.

Lemma alias_dispatches_expansion_witness :
  execute_command calm "ll /tmp"
    (with_self (init [("ll", "lsx -l")]) (boot []))
  = execute_command calm "lsx -l /tmp"
      (with_self (init [("ll", "lsx -l")]) (boot [])).
Proof.
  apply (alias_dispatches_expansion calm "ll /tmp" "ll" "lsx -l" ["/tmp"]
           (with_self (init [("ll", "lsx -l")]) (boot [])));
    reflexivity.
Defined.

(** An alias whose text starts with another alias: the second is not
    substituted. With [a] for [b] and [b] for [echo hi], the line [a]
    starts the program [b], while the line [b] prints [hi]. *)
Example alias_substituted_once :
  execute_command calm "a" (with_self (init chained_aliases) (boot []))
  = (Ok tt,
     {| self := init chained_aliases; spawned := 1;
        trace := [Spawn 0 ["b"] Inherit Inherit Inherit; Wait 0] |})
  /\
  execute_command calm "b" (with_self (init chained_aliases) (boot []))
  = (Ok tt,
     {| self := init chained_aliases; spawned := 0; trace := [Print "hi"] |}).
Proof. split; vm_compute; reflexivity. Qed.

Lemma str_dict_get_set_same {V} (k : string) (v : V) (d : list (string * V)) :
  dict_get String.eqb k (dict_set String.eqb k v d) = Some v.
Proof.
  induction d as [|[k' v'] r IH]; simpl; [rewrite String.eqb_refl; reflexivity|].
  destruct (String.eqb k k') eqn:E; simpl; rewrite E; [reflexivity | exact IH].
Qed.

Lemma str_dict_get_set_other {V} (k k0 : string) (v : V) (d : list (string * V)) :
  k0 <> k ->
  dict_get String.eqb k0 (dict_set String.eqb k v d) = dict_get String.eqb k0 d.
Proof.
  intros Hn. induction d as [|[k' v'] r IH]; simpl.
  - apply String.eqb_neq in Hn. rewrite Hn. reflexivity.
  - destruct (String.eqb k k') eqn:E; simpl.
    + apply String.eqb_eq in E. subst k'.
      apply String.eqb_neq in Hn. rewrite Hn. reflexivity.
    + destruct (String.eqb k0 k'); [reflexivity | exact IH].
Qed.

Lemma str_dict_get_del_same {V} (k : string) (d : list (string * V)) :
  dict_get String.eqb k (dict_del String.eqb k d) = None.
Proof.
  induction d as [|[k' v] r IH]; simpl; [reflexivity|].
  destruct (String.eqb k k') eqn:E; simpl; [exact IH | rewrite E; exact IH].
Qed.

Lemma str_dict_get_del_other {V} (k k0 : string) (d : list (string * V)) :
  k0 <> k ->
  dict_get String.eqb k0 (dict_del String.eqb k d) = dict_get String.eqb k0 d.
Proof.
  intros Hn. induction d as [|[k' v] r IH]; simpl; [reflexivity|].
  destruct (String.eqb k k') eqn:E; simpl.
  - apply String.eqb_eq in E. subst k'. apply String.eqb_neq in Hn.
    rewrite Hn. exact IH.
  - destruct (String.eqb k0 k'); [reflexivity | exact IH].
Qed.

(** The text before the first [c] has no [c] in it, and the two parts
    with [c] between them are the string. *)
Lemma split1_parts (c : ascii) (s : string) :
  PyStr.contains c s = true ->
  PyStr.contains c (fst (split1 c s)) = false /\
  (fst (split1 c s) ++ String c (snd (split1 c s)))%string = s.
Proof.
  induction s as [|d r IH]; simpl; [discriminate|].
  destruct (Ascii.eqb c d) eqn:E.
  - intros _. apply Ascii.eqb_eq in E. subst d. split; reflexivity.
  - intros H. destruct (IH H) as [H1 H2].
    destruct (split1 c r) as [a b]. simpl in *. rewrite E, H2.
    split; [exact H1 | reflexivity].
Qed.

(** X14: [alias name=value] binds the text before the first [=] to the
    text after it (which may hold further [=]), saves the alias file, and
    changes no other alias, no job and no counter: afterwards the name
    looks up to the value and every other name looks up as before. *)
Theorem alias_defines (w : world) (line text a0 : string) (rest : list string)
  (m : machine) :
  line <> EmptyString ->
  words (aliases (self m)) line = Ok (text, "alias" :: a0 :: rest) ->
  PyStr.contains "=" a0 = true ->
  exists m',
    execute_command w line m = (Ok tt, m') /\
    trace m' = trace m ++ [SaveAliases] /\
    jobs (self m') = jobs (self m) /\
    next_job_id (self m') = next_job_id (self m) /\
    (fst (split1 "=" a0) ++ "=" ++ snd (split1 "=" a0))%string = a0 /\
    dict_get String.eqb (fst (split1 "=" a0)) (aliases (self m'))
    = Some (snd (split1 "=" a0)) /\
    (forall other, other <> fst (split1 "=" a0) ->
       dict_get String.eqb other (aliases (self m'))
       = dict_get String.eqb other (aliases (self m))).
Proof.
  intros Hne Hw Hc.
  rewrite (execute_command_words w _ text "alias" (a0 :: rest)) by assumption.
  unfold dispatch. cbn [String.eqb Ascii.eqb Bool.eqb].
  unfold builtin_alias. rewrite Hc.
  destruct (split1_parts "=" a0 Hc) as [_ Hj].
  destruct (split1 "=" a0) as [name value]. cbn [fst snd] in *.
  eexists. split; [reflexivity|]. cbn [self trace aliases jobs next_job_id set_aliases].
  repeat split.
  - exact Hj.
  - apply str_dict_get_set_same.
  - intros other Ho. apply str_dict_get_set_other, Ho.
Qed.

Lemma alias_defines_witness :
  exists m',
    execute_command calm "alias gs='gitx status --format=short'" session_with_job
    = (Ok tt, m') /\
    trace m' = trace session_with_job ++ [SaveAliases] /\
    jobs (self m') = jobs (self session_with_job) /\
    next_job_id (self m') = next_job_id (self session_with_job) /\
    (fst (split1 "=" "gs=gitx status --format=short") ++ "=" ++
     snd (split1 "=" "gs=gitx status --format=short"))%string
    = "gs=gitx status --format=short" /\
    dict_get String.eqb (fst (split1 "=" "gs=gitx status --format=short"))
      (aliases (self m'))
    = Some (snd (split1 "=" "gs=gitx status --format=short")) /\
    (forall other, other <> fst (split1 "=" "gs=gitx status --format=short") ->
       dict_get String.eqb other (aliases (self m'))
       = dict_get String.eqb other (aliases (self session_with_job))).
Proof.
  apply (alias_defines calm "alias gs='gitx status --format=short'"
           "alias gs='gitx status --format=short'" "gs=gitx status --format=short"
           [] session_with_job);
    [discriminate | reflexivity | reflexivity].
Defined.

(** X15: [unalias name] for a defined alias removes it and saves the
    alias file; afterwards the name looks up to nothing and every other
    name as before. For a name that is not defined, or with no argument,
    the usage line is printed and nothing changes. *)
Theorem unalias_removes (w : world) (line text : string) (args : list string)
  (m : machine) :
  line <> EmptyString ->
  words (aliases (self m)) line = Ok (text, "unalias" :: args) ->
  match args with
  | a0 :: _ =>
      if dict_mem String.eqb a0 (aliases (self m)) then
        exists m',
          execute_command w line m = (Ok tt, m') /\
          trace m' = trace m ++ [SaveAliases] /\
          dict_get String.eqb a0 (aliases (self m')) = None /\
          (forall other, other <> a0 ->
             dict_get String.eqb other (aliases (self m'))
             = dict_get String.eqb other (aliases (self m)))
      else
        execute_command w line m
        = (Ok tt, push_event (Print "Usage: unalias [name]") m)
  | [] =>
      execute_command w line m
      = (Ok tt, push_event (Print "Usage: unalias [name]") m)
  end.
Proof.
  intros Hne Hw.
  rewrite (execute_command_words w _ text "unalias" args) by assumption.
  unfold dispatch. cbn [String.eqb Ascii.eqb Bool.eqb].
  unfold builtin_unalias.
  destruct args as [|a0 r]; [reflexivity|]. msimpl.
  destruct (dict_mem String.eqb a0 (aliases (self m))); [|reflexivity].
  eexists. split; [reflexivity|]. cbn [self trace aliases set_aliases].
  repeat split.
  - apply str_dict_get_del_same.
  - intros other Ho. apply str_dict_get_del_other, Ho.
Qed.

Lemma unalias_removes_witness :
  exists m',
    execute_command calm "unalias a" (with_self (init chained_aliases) (boot []))
    = (Ok tt, m') /\
    trace m' = [] ++ [SaveAliases] /\
    dict_get String.eqb "a" (aliases (self m')) = None /\
    (forall other, other <> "a" ->
       dict_get String.eqb other (aliases (self m'))
       = dict_get String.eqb other chained_aliases).
Proof.
  apply (unalias_removes calm "unalias a" "unalias a" ["a"]
           (with_self (init chained_aliases) (boot [])));
    [discriminate | reflexivity].
Defined.

(** ** The alias file gives back what was saved *)

Lemma lstrip_length (s : string) : String.length (PyStr.lstrip s) <= String.length s.
Proof.
  induction s as [|c r IH]; simpl; [lia|].
  destruct (PyStr.isspace c); simpl; lia.
Qed.

Lemma rstrip_length (s : string) : String.length (PyStr.rstrip s) <= String.length s.
Proof.
  induction s as [|c r IH]; simpl; [lia|].
  destruct (PyStr.rstrip r); [destruct (PyStr.isspace c)|]; simpl in *; lia.
Qed.

(** A string [strip] leaves alone starts with no white space and is left
    alone by [rstrip]. *)
Lemma strip_fixed (s : string) :
  PyStr.strip s = s ->
  PyStr.lstrip s = s /\ PyStr.rstrip s = s /\
  match s with String c _ => PyStr.isspace c = false | EmptyString => True end.
Proof.
  unfold PyStr.strip. intros H.
  assert (Hl : PyStr.lstrip s = s).
  { destruct s as [|c r]; [reflexivity|]. simpl in *.
    destruct (PyStr.isspace c); [|reflexivity]. exfalso.
    pose proof (rstrip_length (PyStr.lstrip r)) as H1.
    pose proof (lstrip_length r) as H2. rewrite H in H1. simpl in H1. lia. }
  rewrite Hl in H. repeat split; try assumption.
  destruct s as [|c r]; [exact I|]. simpl in Hl.
  destruct (PyStr.isspace c); [|reflexivity]. exfalso.
  pose proof (lstrip_length r) as H2. rewrite Hl in H2. simpl in H2. lia.
Qed.

(** White space at the end is dropped by [rstrip]. *)
Lemma rstrip_app_space (a b : string) :
  PyStr.rstrip b = EmptyString -> PyStr.rstrip (a ++ b) = PyStr.rstrip a.
Proof.
  intros H. induction a as [|c r IH]; simpl; [exact H|]. rewrite IH. reflexivity.
Qed.

Lemma rstrip_nonempty_fixed (s : string) :
  PyStr.rstrip s = s -> Shlex.nonempty s = true ->
  Shlex.nonempty (PyStr.rstrip s) = true.
Proof. intros -> H. exact H. Qed.

(** [strip] of a saved line, its line feed included, is the line. *)
Lemma strip_saved_line (k v : string) :
  PyStr.strip k = k -> PyStr.strip v = v ->
  PyStr.strip (k ++ "=" ++ v ++ newline) = (k ++ "=" ++ v)%string.
Proof.
  intros Hk Hv.
  destruct (strip_fixed k Hk) as [_ [_ Hk1]].
  destruct (strip_fixed v Hv) as [_ [Hv2 _]].
  unfold PyStr.strip.
  assert (Hl : PyStr.lstrip (k ++ "=" ++ v ++ newline)
               = (k ++ "=" ++ v ++ newline)%string).
  { destruct k as [|c r]; [reflexivity|]. simpl. rewrite Hk1. reflexivity. }
  rewrite Hl.
  replace (k ++ "=" ++ v ++ newline)%string with ((k ++ "=" ++ v) ++ newline)%string
    by (rewrite !append_assoc; reflexivity).
  rewrite rstrip_app_space by reflexivity.
  destruct v as [|c r].
  - rewrite append_empty_r. apply (rstrip_app_keep k "="). reflexivity.
  - replace (k ++ "=" ++ String c r)%string with ((k ++ "=") ++ String c r)%string
      by (rewrite append_assoc; reflexivity).
    rewrite rstrip_app_keep; rewrite Hv2; reflexivity.
Qed.

Lemma contains_app_char (c : ascii) (a b : string) :
  PyStr.contains c (a ++ String c b) = true.
Proof.
  induction a as [|d r IH]; simpl; [rewrite Ascii.eqb_refl; reflexivity|].
  destruct (Ascii.eqb c d); [reflexivity | exact IH].
Qed.

(** Cutting at the first [c], when the part before holds none. *)
Lemma split1_app (c : ascii) (a b : string) :
  PyStr.contains c a = false ->
  split1 c (a ++ String c b) = (a, b).
Proof.
  induction a as [|d r IH]; simpl; intros H.
  - rewrite Ascii.eqb_refl. reflexivity.
  - destruct (Ascii.eqb c d); [discriminate|]. rewrite (IH H). reflexivity.
Qed.

(** What the loop of [load_aliases] does with a saved line. *)
Lemma load_saved_line (al : list (string * string)) (k v : string) :
  storable_name k -> storable_value v ->
  load_line al (k ++ "=" ++ v ++ newline) = dict_set String.eqb k v al.
Proof.
  intros [Hk [He [Hh _]]] [Hv _]. unfold load_line.
  rewrite (strip_saved_line k v Hk Hv).
  assert (Hne : Shlex.nonempty (k ++ "=" ++ v) = true)
    by (destruct k; reflexivity).
  assert (Hs : starts_with "#" (k ++ "=" ++ v) = false).
  { destruct k as [|c r]; [reflexivity | exact Hh]. }
  rewrite Hne, Hs. cbn [negb andb].
  change (k ++ "=" ++ v)%string with (k ++ String "=" v)%string.
  rewrite contains_app_char, (split1_app "=" k v He), Hk, Hv. reflexivity.
Qed.

Lemma one_line_app (a b : string) :
  one_line a = true -> one_line b = true -> one_line (a ++ b) = true.
Proof.
  induction a as [|c r IH]; simpl; intros Ha Hb; [exact Hb|].
  apply andb_prop in Ha. destruct Ha as [Hc Hr]. rewrite Hc. apply IH; assumption.
Qed.

(** A stretch without line break, then a line feed: one line. *)
Lemma file_lines_line (s rest : string) : forall cur,
  one_line s = true ->
  file_lines_from (s ++ newline ++ rest) cur
  = (cur ++ s ++ newline)%string :: file_lines_from rest EmptyString.
Proof.
  induction s as [|c r IH]; intros cur H.
  - reflexivity.
  - simpl in H. apply andb_prop in H. destruct H as [Hc Hr].
    apply andb_prop in Hc. destruct Hc as [H1 H2].
    apply negb_true_iff in H1, H2.
    cbn [String.append file_lines_from]. rewrite H1, H2.
    rewrite (IH _ Hr). rewrite append_assoc. reflexivity.
Qed.

(** The lines of a saved file are the saved lines. *)
Lemma file_lines_saved (al : list (string * string)) :
  Forall (fun kv => one_line (fst kv) = true /\ one_line (snd kv) = true) al ->
  file_lines (save_aliases al)
  = map (fun kv => (fst kv ++ "=" ++ snd kv ++ newline)%string) al.
Proof.
  unfold file_lines. induction al as [|[k v] r IH]; intros H; [reflexivity|].
  inversion H as [|? ? [Hk Hv] Hr]; subst. cbn [fst snd] in *.
  cbn [save_aliases map fst snd].
  replace (k ++ "=" ++ v ++ newline ++ save_aliases r)%string
    with ((k ++ "=" ++ v) ++ newline ++ save_aliases r)%string
    by (rewrite !append_assoc; reflexivity).
  rewrite file_lines_line.
  - rewrite (IH Hr). cbn [String.append]. rewrite !append_assoc. reflexivity.
  - apply one_line_app; [exact Hk|]. apply (one_line_app "=" v eq_refl Hv).
Qed.

Lemma str_dict_set_fresh {V} (k : string) (v : V) (d : list (string * V)) :
  ~ In k (dict_keys d) -> dict_set String.eqb k v d = d ++ [(k, v)].
Proof.
  induction d as [|[k' v'] r IH]; simpl; intros H; [reflexivity|].
  destruct (String.eqb k k') eqn:E.
  - apply String.eqb_eq in E. subst. exfalso. apply H. left. reflexivity.
  - f_equal. apply IH. intros Hin. apply H. right. exact Hin.
Qed.

Lemma load_saved_lines (l : list (string * string)) : forall acc,
  NoDup (dict_keys (acc ++ l)) ->
  Forall (fun kv => storable_name (fst kv) /\ storable_value (snd kv)) l ->
  fold_left load_line
    (map (fun kv => (fst kv ++ "=" ++ snd kv ++ newline)%string) l) acc
  = acc ++ l.
Proof.
  induction l as [|[k v] r IH]; intros acc Hnd H.
  - simpl. rewrite app_nil_r. reflexivity.
  - inversion H as [|? ? [Hk Hv] Hr]; subst. cbn [fst snd] in *.
    cbn [map fold_left fst snd]. rewrite (load_saved_line acc k v Hk Hv).
    assert (Hfresh : ~ In k (dict_keys acc)).
    { unfold dict_keys in *. rewrite map_app in Hnd. simpl in Hnd.
      apply NoDup_remove_2 in Hnd. intros Hin. apply Hnd, in_or_app. left. exact Hin. }
    rewrite (str_dict_set_fresh k v acc Hfresh).
    rewrite IH; [rewrite <- app_assoc; reflexivity | | exact Hr].
    rewrite <- app_assoc. exact Hnd.
Qed.

(** X16: the alias file gives back what was saved. When no name is
    bound twice, names and values are ASCII text, every name is storable
    ([strip] leaves it alone, no [=], no line break, no [#] in front) and
    every value is storable ([strip] leaves it alone, no line break),
    loading the saved file into an empty table gives the same aliases in the
    same order. *)
Theorem aliases_saved_and_loaded (al : list (string * string)) :
  NoDup (dict_keys al) ->
  Forall (fun kv => ascii_only (fst kv) = true /\ ascii_only (snd kv) = true) al ->
  Forall (fun kv => storable_name (fst kv) /\ storable_value (snd kv)) al ->
  load_aliases (Some (save_aliases al)) [] = al.
Proof.
  intros Hnd _ H. unfold load_aliases.
  rewrite file_lines_saved.
  - apply (load_saved_lines al [] Hnd H).
  - eapply Forall_impl; [|exact H]. intros [k v] [[_ [_ [_ Hk]]] [_ Hv]].
    split; assumption.
Qed.

Lemma aliases_saved_and_loaded_witness :
  load_aliases
    (Some (save_aliases [("ll", "ls -l"); ("gs", "git status --format=%h"); ("", "")]))
    []
  = [("ll", "ls -l"); ("gs", "git status --format=%h"); ("", "")].
Proof.
  apply aliases_saved_and_loaded.
  - repeat constructor; simpl; intuition discriminate.
  - repeat constructor.
  - repeat constructor.
Defined.

(** What does not come back: a value with a blank in front, a name
    starting with [#] (read as a comment), a value with a line break. *)
Example aliases_lost_in_the_file :
  load_aliases (Some (save_aliases [("x", " padded")])) [] = [("x", "padded")] /\
  load_aliases (Some (save_aliases [("#x", "v")])) [] = [] /\
  load_aliases (Some (save_aliases [("x", ("a" ++ newline ++ "b=c")%string)])) []
  = [("x", "a"); ("b", "c")].
Proof. repeat split; reflexivity. Qed.

Lemma load_line_skips (al : list (string * string)) (line : string) :
  PyStr.strip line = EmptyString \/
  starts_with "#" (PyStr.strip line) = true \/
  PyStr.contains "=" (PyStr.strip line) = false ->
  load_line al line = al.
Proof.
  intros H. unfold load_line.
  destruct H as [H | [H | H]]; rewrite H; try reflexivity.
  - rewrite andb_false_r. reflexivity.
  - destruct (_ && _); reflexivity.
Qed.

(** X17: [load_aliases] defines nothing from a line that is blank,
    starts with [#] (after leading white space) or holds no [=]: a file of
    such lines only leaves the aliases as they are, and so does a missing
    file. *)
Theorem load_skips_other_lines (al : list (string * string)) (content : string) :
  Forall (fun line =>
            PyStr.strip line = EmptyString \/
            starts_with "#" (PyStr.strip line) = true \/
            PyStr.contains "=" (PyStr.strip line) = false)
         (file_lines content) ->
  load_aliases (Some content) al = al /\ load_aliases None al = al.
Proof.
  intros H. split; [|reflexivity]. unfold load_aliases.
  induction H as [|line lines Hl _ IH]; [reflexivity|].
  cbn [fold_left]. rewrite (load_line_skips al line Hl). exact IH.
Qed.

Lemma load_skips_other_lines_witness :
  load_aliases (Some commented_file) [("ll", "ls -l")] = [("ll", "ls -l")] /\
  load_aliases None [("ll", "ls -l")] = [("ll", "ls -l")].
Proof.
  apply (load_skips_other_lines [("ll", "ls -l")] commented_file).
  repeat constructor; right; left; reflexivity.
Defined.

(** ** [completer] *)

Lemma ascii_compare_refl (a : ascii) : Ascii.compare a a = Eq.
Proof. unfold Ascii.compare. apply N.compare_refl. Qed.

Lemma ascii_compare_lt_trans (a b c : ascii) :
  Ascii.compare a b = Lt -> Ascii.compare b c = Lt -> Ascii.compare a c = Lt.
Proof. unfold Ascii.compare. rewrite !N.compare_lt_iff. apply N.lt_trans. Qed.

Lemma le_str_trans (s1 s2 s3 : string) :
  le_str s1 s2 -> le_str s2 s3 -> le_str s1 s3.
Proof.
  unfold le_str, String.leb. revert s2 s3.
  induction s1 as [|a s1 IH]; intros [|b s2] [|c s3]; simpl;
    try congruence; try reflexivity.
  destruct (Ascii.compare a b) eqn:E1; try discriminate.
  - apply Ascii.compare_eq_iff in E1. subst b.
    destruct (Ascii.compare a c) eqn:E2; try discriminate; try reflexivity.
    apply IH.
  - intros _. destruct (Ascii.compare b c) eqn:E2; try discriminate.
    + apply Ascii.compare_eq_iff in E2. subst c. rewrite E1. reflexivity.
    + rewrite (ascii_compare_lt_trans _ _ _ E1 E2). reflexivity.
Qed.

Lemma le_str_refl (s : string) : le_str s s.
Proof. destruct (String.leb_total s s); assumption. Qed.

Lemma insert_sorted_In (x y : string) (l : list string) :
  In x (insert_sorted y l) <-> x = y \/ In x l.
Proof.
  induction l as [|z r IH]; simpl; [intuition congruence|].
  destruct (String.leb y z); simpl; [intuition congruence|].
  rewrite IH. intuition congruence.
Qed.

Lemma sorted_In (x : string) (l : list string) : In x (sorted l) <-> In x l.
Proof.
  induction l as [|y r IH]; simpl; [reflexivity|].
  rewrite insert_sorted_In, IH. intuition congruence.
Qed.

Lemma filter_insert_sorted_length (f : string -> bool) (x : string) (l : list string) :
  length (filter f (insert_sorted x l)) = length (filter f (x :: l)).
Proof.
  induction l as [|z r IH]; [reflexivity|].
  cbn [insert_sorted]. destruct (String.leb x z); [reflexivity|].
  cbn [filter] in *. destruct (f z), (f x); cbn [length] in *; lia.
Qed.

Lemma filter_sorted_length (f : string -> bool) (l : list string) :
  length (filter f (sorted l)) = length (filter f l).
Proof.
  induction l as [|y r IH]; [reflexivity|].
  cbn [sorted fold_right]. fold (sorted r).
  rewrite filter_insert_sorted_length. cbn [filter].
  destruct (f y); cbn [length]; rewrite IH; reflexivity.
Qed.

Lemma insert_sorted_sorted (x : string) (l : list string) :
  StronglySorted le_str l -> StronglySorted le_str (insert_sorted x l).
Proof.
  induction 1 as [|z r Hs IH Hz]; cbn [insert_sorted].
  - constructor; constructor.
  - destruct (String.leb x z) eqn:E.
    + constructor; [constructor; assumption|].
      constructor; [exact E|].
      eapply Forall_impl; [|exact Hz]. intros a Ha.
      eapply le_str_trans; [exact E | exact Ha].
    + constructor; [exact IH|].
      apply Forall_forall. intros a Ha. apply insert_sorted_In in Ha.
      destruct Ha as [-> | Ha].
      * destruct (String.leb_total x z) as [H|H]; [congruence | exact H].
      * rewrite Forall_forall in Hz. apply Hz, Ha.
Qed.

Lemma sorted_sorted (l : list string) : StronglySorted le_str (sorted l).
Proof.
  induction l as [|y r IH]; [constructor|].
  apply insert_sorted_sorted, IH.
Qed.

Lemma filter_sorted {A} (R : A -> A -> Prop) (f : A -> bool) (l : list A) :
  StronglySorted R l -> StronglySorted R (filter f l).
Proof.
  induction 1 as [|z r Hs IH Hz]; cbn [filter]; [constructor|].
  destruct (f z); [|exact IH].
  constructor; [exact IH|].
  apply Forall_forall. intros a Ha. apply filter_In in Ha.
  rewrite Forall_forall in Hz. apply Hz, Ha.
Qed.

Lemma sorted_nth {A} (R : A -> A -> Prop) (l : list A) :
  StronglySorted R l ->
  forall i j x y, i < j -> nth_error l i = Some x -> nth_error l j = Some y -> R x y.
Proof.
  induction 1 as [|z r Hs IH Hz]; intros i j x y Hij Hi Hj.
  - destruct i; discriminate.
  - destruct j as [|j]; [lia|]. cbn [nth_error] in Hj.
    destruct i as [|i]; cbn [nth_error] in Hi.
    + injection Hi as <-. rewrite Forall_forall in Hz.
      eapply Hz, nth_error_In, Hj.
    + eapply IH; [|exact Hi | exact Hj]. lia.
Qed.

(** X18: the completions offered for a text are exactly the entries of
    the current directory and the alias names that start with the text,
    each as often as it occurs, in non-decreasing order; past the last one
    the answer is [None]. *)
Theorem completer_answers (listing : list string) (aliases : list (string * string))
  (text : string) :
  (forall x, (exists state, completer listing aliases text state = Some x) <->
             In x (listing ++ dict_keys aliases) /\ String.prefix text x = true) /\
  (forall state, completer listing aliases text state = None <->
     length (filter (String.prefix text) (listing ++ dict_keys aliases)) <= state) /\
  (forall i j x y, i <= j ->
     completer listing aliases text i = Some x ->
     completer listing aliases text j = Some y -> le_str x y).
Proof.
  unfold completer. split; [|split].
  - intros x. split.
    + intros [state H]. apply nth_error_In, filter_In in H.
      destruct H as [H1 H2]. split; [apply sorted_In, H1 | exact H2].
    + intros [Hin Hp]. apply In_nth_error, filter_In. split; [|exact Hp].
      apply sorted_In, Hin.
  - intros state. rewrite nth_error_None, filter_sorted_length. reflexivity.
  - intros i j x y Hij Hi Hj.
    destruct (Nat.eq_dec i j) as [->|Hn].
    + rewrite Hi in Hj. injection Hj as <-. apply le_str_refl.
    + eapply (sorted_nth le_str); [| |exact Hi|exact Hj]; [|lia].
      apply filter_sorted, sorted_sorted.
Qed.

Example completer_session :
  let c := completer ["b.txt"; "a.txt"; "notes"] [("ab", "ls"); ("ll", "ls -l")] "a" in
  c 0 = Some "a.txt" /\ c 1 = Some "ab" /\ c 2 = None.
Proof. repeat split. Qed.

(** ** [format_permissions] *)

(** The test [mode & 2^n] of the source reads bit [n] of the mode. *)
Lemma land_bit_zero (m n : N) :
  N.eqb (N.land m (2 ^ n)) 0 = negb (N.testbit m n).
Proof.
  destruct (N.testbit m n) eqn:E; simpl.
  - apply N.eqb_neq. intros H.
    assert (H0 : N.testbit (N.land m (2 ^ n)) n = true)
      by (rewrite N.land_spec, E, N.pow2_bits_true; reflexivity).
    rewrite H, N.bits_0 in H0. discriminate.
  - apply N.eqb_eq. apply N.bits_inj. intros k.
    rewrite N.land_spec, N.pow2_bits_eqb, N.bits_0.
    destruct (N.eqb_spec n k) as [<-|_]; [rewrite E; reflexivity | apply andb_false_r].
Qed.

Lemma low_bit (m k : N) :
  (k < 9)%N -> N.testbit (N.land m 511) k = N.testbit m k.
Proof.
  intros H. rewrite N.land_spec. change 511%N with (N.ones 9).
  rewrite (N.ones_spec_low 9 k H). apply andb_true_r.
Qed.

(** Two one-character alternatives in front of two strings. *)
Lemma flag_inj (b b' : bool) (x y : ascii) (r r' : string) :
  x <> y ->
  ((if b then String x EmptyString else String y EmptyString) ++ r)%string
  = ((if b' then String x EmptyString else String y EmptyString) ++ r')%string ->
  b = b' /\ r = r'.
Proof.
  intros Hn. destruct b, b'; simpl; intros H; injection H; intros;
    try (split; congruence); exfalso; apply Hn; congruence.
Qed.

Lemma eqb0_testbit (m1 m2 n : N) :
  N.eqb (N.land m1 (2 ^ n)) 0 = N.eqb (N.land m2 (2 ^ n)) 0 ->
  N.testbit m1 n = N.testbit m2 n.
Proof.
  rewrite !land_bit_zero. destruct (N.testbit m1 n), (N.testbit m2 n);
    simpl; congruence.
Qed.

Lemma testbit_eqb0 (m1 m2 n : N) :
  (n < 9)%N ->
  N.land m1 511 = N.land m2 511 ->
  N.eqb (N.land m1 (2 ^ n)) 0 = N.eqb (N.land m2 (2 ^ n)) 0.
Proof.
  intros Hn H. rewrite !land_bit_zero.
  rewrite <- (low_bit m1 n Hn), <- (low_bit m2 n Hn), H. reflexivity.
Qed.

Lemma length_append (a b : string) :
  String.length (a ++ b) = String.length a + String.length b.
Proof. induction a as [|c r IH]; simpl; [|rewrite IH]; reflexivity. Qed.

Lemma append_inj_l (a b c : string) : (a ++ b)%string = (a ++ c)%string -> b = c.
Proof. induction a as [|x r IH]; simpl; [auto | intros [= H]; auto]. Qed.

Lemma flag_length (b : bool) (x y : ascii) :
  String.length (if b then String x EmptyString else String y EmptyString) = 1.
Proof. destruct b; reflexivity. Qed.

(** X19: [format_permissions] reads the nine low bits of the mode and
    nothing else of it: two modes give the same string exactly when they
    agree on these bits. The string always has ten characters. *)
Theorem format_permissions_low_bits (cwd_isdir cwd_islink : bool) (m1 m2 : N) :
  (format_permissions cwd_isdir cwd_islink m1
   = format_permissions cwd_isdir cwd_islink m2
   <-> N.land m1 511 = N.land m2 511) /\
  String.length (format_permissions cwd_isdir cwd_islink m1) = 10.
Proof.
  split; [split|].
  - unfold format_permissions. intros H.
    apply append_inj_l in H.
    apply flag_inj in H as [H8 H]; [|intros E; discriminate E].
    apply flag_inj in H as [H7 H]; [|intros E; discriminate E].
    apply flag_inj in H as [H6 H]; [|intros E; discriminate E].
    apply flag_inj in H as [H5 H]; [|intros E; discriminate E].
    apply flag_inj in H as [H4 H]; [|intros E; discriminate E].
    apply flag_inj in H as [H3 H]; [|intros E; discriminate E].
    apply flag_inj in H as [H2 H]; [|intros E; discriminate E].
    apply flag_inj in H as [H1 H]; [|intros E; discriminate E].
    assert (H0 : N.eqb (N.land m1 1) 0 = N.eqb (N.land m2 1) 0)
      by (destruct (N.eqb (N.land m1 1) 0), (N.eqb (N.land m2 1) 0);
          try reflexivity; discriminate H).
    apply (eqb0_testbit m1 m2 8) in H8. apply (eqb0_testbit m1 m2 7) in H7.
    apply (eqb0_testbit m1 m2 6) in H6. apply (eqb0_testbit m1 m2 5) in H5.
    apply (eqb0_testbit m1 m2 4) in H4. apply (eqb0_testbit m1 m2 3) in H3.
    apply (eqb0_testbit m1 m2 2) in H2. apply (eqb0_testbit m1 m2 1) in H1.
    apply (eqb0_testbit m1 m2 0) in H0.
    apply N.bits_inj. intros k. rewrite !N.land_spec.
    destruct (N.lt_ge_cases k 9) as [Hk|Hk].
    + assert (Hc : (k = 0 \/ k = 1 \/ k = 2 \/ k = 3 \/ k = 4 \/ k = 5 \/
                    k = 6 \/ k = 7 \/ k = 8)%N) by lia.
      destruct Hc as [-> | [-> | [-> | [-> | [-> | [-> | [-> | [-> | ->]]]]]]]];
        congruence.
    + change 511%N with (N.ones 9). rewrite (N.ones_spec_high 9 k Hk).
      rewrite !andb_false_r. reflexivity.
  - intros H. unfold format_permissions.
    pose proof (testbit_eqb0 m1 m2 8 eq_refl H) as E8.
    pose proof (testbit_eqb0 m1 m2 7 eq_refl H) as E7.
    pose proof (testbit_eqb0 m1 m2 6 eq_refl H) as E6.
    pose proof (testbit_eqb0 m1 m2 5 eq_refl H) as E5.
    pose proof (testbit_eqb0 m1 m2 4 eq_refl H) as E4.
    pose proof (testbit_eqb0 m1 m2 3 eq_refl H) as E3.
    pose proof (testbit_eqb0 m1 m2 2 eq_refl H) as E2.
    pose proof (testbit_eqb0 m1 m2 1 eq_refl H) as E1.
    pose proof (testbit_eqb0 m1 m2 0 eq_refl H) as E0.
    change (2 ^ 8)%N with 256%N in E8. change (2 ^ 7)%N with 128%N in E7.
    change (2 ^ 6)%N with 64%N in E6. change (2 ^ 5)%N with 32%N in E5.
    change (2 ^ 4)%N with 16%N in E4. change (2 ^ 3)%N with 8%N in E3.
    change (2 ^ 2)%N with 4%N in E2. change (2 ^ 1)%N with 2%N in E1.
    change (2 ^ 0)%N with 1%N in E0.
    rewrite E8, E7, E6, E5, E4, E3, E2, E1, E0. reflexivity.
  - unfold format_permissions. rewrite !length_append, !flag_length.
    destruct cwd_isdir, cwd_islink; reflexivity.
Qed.

(** The first character tells what the current directory is, not the file:
    in a session (the current directory is a directory) a regular file of
    mode 0o100644 is shown as a directory. *)
Example regular_file_shown_as_directory :
  format_permissions true false 33188 = "drw-r--r--".
Proof. reflexivity. Qed.

(** ** Shell variables *)

(** X20: [setvar NAME=VALUE] followed by [getvar NAME] prints the value,
    cut at the first [=] only (the value may hold more of them), and the
    answer for every other name is what it was; [setvar] itself prints
    nothing. Further arguments of either command are ignored. *)
Theorem setvar_then_getvar (name value : string) (more more' : list string)
  (shell_vars : list (string * string)) :
  PyStr.contains "=" name = false ->
  let after := builtin_setvar ((name ++ "=" ++ value)%string :: more) shell_vars in
  snd after = [] /\
  builtin_getvar (name :: more') (fst after) = value /\
  forall other, other <> name ->
    builtin_getvar (other :: more') (fst after)
    = builtin_getvar (other :: more') shell_vars.
Proof.
  intros Hn. cbv zeta. unfold builtin_setvar.
  change (name ++ "=" ++ value)%string with (name ++ String "=" value)%string.
  rewrite contains_app_char, (split1_app _ _ _ Hn). cbn [fst snd].
  split; [reflexivity|]. split.
  - unfold builtin_getvar. rewrite str_dict_get_set_same. reflexivity.
  - intros other Ho. unfold builtin_getvar.
    rewrite (str_dict_get_set_other _ _ _ _ Ho). reflexivity.
Qed.

Lemma setvar_then_getvar_witness :
  let after := builtin_setvar ["opts=-k=1"; "ignored"] [("opts", "old"); ("x", "1")] in
  snd after = [] /\
  builtin_getvar ["opts"] (fst after) = "-k=1" /\
  forall other, other <> "opts" ->
    builtin_getvar [other] (fst after)
    = builtin_getvar [other] [("opts", "old"); ("x", "1")].
Proof.
  apply (setvar_then_getvar "opts" "-k=1" ["ignored"] []
           [("opts", "old"); ("x", "1")]).
  reflexivity.
Defined.

(** ** [type] *)

(** X21: what [type] reports as a built-in shell command is handled by
    [execute_command] itself and is not the name of an alias. *)
Theorem type_builtin_is_dispatched (which : string -> option string)
  (aliases : list (string * string)) (name : string) (more : list string) :
  builtin_type which aliases (name :: more)
  = (name ++ " is a built-in shell command")%string ->
  dict_mem String.eqb name aliases = false /\ is_builtin name = true.
Proof.
  unfold builtin_type, dict_mem.
  destruct (dict_get String.eqb name aliases) as [a|].
  - intros H. apply append_inj_l in H. discriminate H.
  - destruct (mem name type_builtins) eqn:E.
    + intros _. split; [reflexivity|].
      unfold mem, type_builtins in E. cbn [existsb] in E.
      repeat (apply orb_prop in E; destruct E as [E|E];
              [apply String.eqb_eq in E; subst name; reflexivity|]).
      discriminate E.
    + destruct (which name) as [[|c p]|]; intros H; apply append_inj_l in H;
        discriminate H.
Qed.

Lemma type_builtin_is_dispatched_witness :
  dict_mem String.eqb "jobs" [("ll", "ls -l")] = false /\ is_builtin "jobs" = true.
Proof.
  apply (type_builtin_is_dispatched (fun _ => None) [("ll", "ls -l")] "jobs" []).
  reflexivity.
Defined.

(** The converse fails: [git] is answered by [execute_command] itself, yet
    [type git] looks for it on the path. *)
Example type_misses_placeholder :
  is_builtin "git" = true /\
  builtin_type (fun _ => Some "/usr/bin/git") [] ["git"] = "git is in /usr/bin/git" /\
  builtin_type (fun _ => None) [] ["config"] = "config not found".
Proof. repeat split. Qed.

(** ** The end of a session *)

(** X22: at a prompt of a session, a line whose first word (after alias
    substitution) is [exit] saves the history, the aliases and the
    configuration, in this order, and ends the session with [SystemExit(0)],
    whatever arguments follow and whatever jobs the table holds: no job is
    polled, signalled or waited for, and the rest of the input is not read.
    End of input instead prints a line and leaves the loop with nothing
    saved. *)
Theorem exit_saves_and_ends (loaded_aliases : list (string * string))
  (inputs rest : list input) (w : world) (cmd text : string)
  (args : list string) (m : machine) :
  myshell inputs (boot loaded_aliases) = (Ok Prompting, m) ->
  PyStr.strip cmd <> EmptyString ->
  words (aliases (self m)) (PyStr.strip cmd) = Ok (text, "exit" :: args) ->
  myshell (inputs ++ Line cmd w :: rest) (boot loaded_aliases)
  = (Raise (SystemExit 0),
     {| self := self (entering (PyStr.strip cmd) m);
        spawned := spawned m;
        trace := trace (entering (PyStr.strip cmd) m) ++
          [SaveHistory; SaveAliases; SaveConfig] |}) /\
  myshell (inputs ++ EOF :: rest) (boot loaded_aliases)
  = (Ok Finished, push_event (Print (newline ++ "Exiting...")) m).
Proof.
  intros Hr Hne Hw.
  unfold myshell, bind, prompt, emit in Hr |- *. cbn [self spawned trace] in Hr |- *.
  rewrite !(myshell_loop_app _ _ _ _ Hr). split.
  - apply myshell_loop_raises; [exact Hne|].
    rewrite (execute_command_words w _ text "exit" args); [|exact Hne|exact Hw].
    unfold dispatch. cbn [String.eqb Ascii.eqb Bool.eqb]. msimpl.
    rewrite <- !app_assoc. reflexivity.
  - reflexivity.
Qed.

Lemma exit_saves_and_ends_witness :
  myshell ([Line "sleepx 100 &" calm] ++ [Line "exit now" calm; Line "echo never" calm])
    (boot [])
  = (Raise (SystemExit 0),
     {| self := self (entering "exit now" session_with_job);
        spawned := 1;
        trace := trace (entering "exit now" session_with_job) ++
          [SaveHistory; SaveAliases; SaveConfig] |}) /\
  myshell ([Line "sleepx 100 &" calm] ++ [EOF; Line "echo never" calm]) (boot [])
  = (Ok Finished, push_event (Print (newline ++ "Exiting...")) session_with_job).
Proof.
  apply (exit_saves_and_ends [] [Line "sleepx 100 &" calm] [Line "echo never" calm]
           calm "exit now" "exit now" ["now"] session_with_job
           session_with_job_reached);
    [discriminate | reflexivity].
Defined.

(** ** Built-ins and the operators of the line *)

Lemma launches_nothing_refl (m : machine) : launches_nothing m m.
Proof. split; [reflexivity|]. exists []. rewrite app_nil_r. split; constructor. Qed.

Lemma launches_nothing_trans (a b c : machine) :
  launches_nothing a b -> launches_nothing b c -> launches_nothing a c.
Proof.
  intros [H1 [e1 [T1 F1]]] [H2 [e2 [T2 F2]]]. split; [congruence|].
  exists (e1 ++ e2). rewrite T2, T1, app_assoc. split; [reflexivity|].
  apply Forall_app. split; assumption.
Qed.

Lemma launches_nothing_emit (e : event) :
  starts_or_opens e = false -> respects launches_nothing (emit e).
Proof.
  intros He m r m' [= <- <-]. split; [reflexivity|].
  exists [e]. split; [reflexivity|]. constructor; [exact He | constructor].
Qed.

Lemma launches_nothing_update (f : shell -> shell) :
  respects launches_nothing (update f).
Proof.
  intros m r m' [= <- <-]. split; [reflexivity|].
  exists []. cbn [trace]. rewrite app_nil_r. split; constructor.
Qed.

Ltac no_launch :=
  repeat first
    [ apply (respects_ret _ launches_nothing_refl)
    | apply (respects_raise _ launches_nothing_refl)
    | apply (respects_lift _ launches_nothing_refl)
    | apply (respects_get_self _ launches_nothing_refl)
    | apply (respects_read_local _ launches_nothing_refl)
    | apply launches_nothing_update
    | apply launches_nothing_emit; reflexivity
    | apply (respects_bind _ launches_nothing_trans); [ | intros ? ]
    | apply (respects_try_except _ launches_nothing_trans); [ | intros ? ]
    | assumption
    | match goal with
      | |- respects _ (if ?b then _ else _) => destruct b
      | |- respects _ (match ?x with _ => _ end) => destruct x
      end ].

Lemma launches_nothing_handle_signal (sig : signal) :
  respects launches_nothing (handle_signal sig).
Proof. unfold handle_signal, get_foreground_command, print. no_launch. Qed.

Lemma launches_nothing_wait (w : world) (p : handle) :
  respects launches_nothing (wait w p).
Proof.
  unfold wait.
  apply (respects_bind _ launches_nothing_trans); [no_launch | intros _].
  apply (respects_bind _ launches_nothing_trans); [|intros _; no_launch].
  destruct (sigtstp_in_wait w p); [apply launches_nothing_handle_signal | no_launch].
Qed.

Lemma launches_nothing_print_aliases (items : list (string * string)) :
  respects launches_nothing (print_aliases items).
Proof.
  induction items as [|[a c] r IH]; simpl; [no_launch|]. unfold print. no_launch.
Qed.

Lemma launches_nothing_jobs_loop (w : world) (items : list (nat * job)) :
  respects launches_nothing (jobs_loop w items).
Proof.
  induction items as [|[k j] r IH]; simpl; [no_launch|]. unfold print. no_launch.
Qed.

Lemma launches_nothing_builtin_fg (w : world) (args : list string) :
  respects launches_nothing (builtin_fg w args).
Proof.
  unfold builtin_fg, print. destruct args as [|a0 r]; [no_launch|].
  destruct (PyStr.isdigit a0); [|no_launch].
  apply (respects_bind _ launches_nothing_trans); [no_launch | intros s].
  destruct (dict_get Nat.eqb (PyStr.int a0) (jobs s)); [|no_launch].
  apply (respects_bind _ launches_nothing_trans); [no_launch | intros _].
  apply (respects_bind _ launches_nothing_trans); [no_launch | intros _].
  apply (respects_try_except _ launches_nothing_trans);
    [apply launches_nothing_wait | intros e; no_launch].
Qed.

(** X23: a built-in of the engine ([exit], [alias], [unalias], [jobs],
    [fg], [bg], [echo], [sleep], [config], [network] and the placeholders)
    starts no process and opens no file, whatever the line holds: pipe
    characters, redirection operators and a trailing [&] reach it as
    arguments. *)
Theorem builtin_launches_nothing (w : world) (line text name : string)
  (args : list string) (m m' : machine) (r : result unit) :
  line <> EmptyString ->
  words (aliases (self m)) line = Ok (text, name :: args) ->
  is_builtin name = true ->
  mem name file_builtins = false ->
  execute_command w line m = (r, m') ->
  spawned m' = spawned m /\
  exists evs, trace m' = trace m ++ evs /\
              Forall (fun e => starts_or_opens e = false) evs.
Proof.
  intros Hne Hw Hb Hf.
  rewrite (execute_command_words w _ text name args) by assumption.
  intros H.
  assert (Hq : respects launches_nothing (dispatch w text name (name :: args) args)).
  { unfold dispatch. rewrite Hf.
    unfold is_builtin in Hb. rewrite Hf in Hb.
    unfold mem at 1 in Hb. cbn [existsb] in Hb.
    destruct (String.eqb name "exit"); [no_launch|].
    destruct (String.eqb name "alias");
      [unfold builtin_alias;
       destruct args as [|a0 l];
       [apply (respects_bind _ launches_nothing_trans);
        [no_launch | intros s; apply launches_nothing_print_aliases]
       | destruct (PyStr.contains "=" a0); [|unfold print; no_launch];
         destruct (split1 "=" a0); no_launch]|].
    destruct (String.eqb name "unalias"); [unfold builtin_unalias, print; no_launch|].
    destruct (String.eqb name "jobs");
      [unfold builtin_jobs; apply (respects_bind _ launches_nothing_trans);
       [no_launch | intros s; apply launches_nothing_jobs_loop]|].
    destruct (String.eqb name "fg"); [apply launches_nothing_builtin_fg|].
    destruct (String.eqb name "bg");
      [unfold builtin_bg, bg_job_info, print; no_launch|].
    destruct (String.eqb name "echo"); [unfold print; no_launch|].
    destruct (String.eqb name "sleep"); [unfold builtin_sleep, print; no_launch|].
    destruct (String.eqb name "config"); [unfold builtin_config, print; no_launch|].
    destruct (String.eqb name "network"); [unfold builtin_network, print; no_launch|].
    destruct (mem name placeholders_args); [unfold print; no_launch|].
    destruct (mem name placeholders_plain); [unfold print; no_launch|].
    simpl in Hb.
    discriminate Hb. }
  exact (Hq m r m' H).
Qed.

Lemma builtin_launches_nothing_witness :
  spawned (push_event (Print "a | b > c &") session_with_job) = spawned session_with_job /\
  exists evs,
    trace (push_event (Print "a | b > c &") session_with_job)
    = trace session_with_job ++ evs /\
    Forall (fun e => starts_or_opens e = false) evs.
Proof.
  apply (builtin_launches_nothing calm "echo a | b > c &" "echo a | b > c &" "echo"
           ["a"; "|"; "b"; ">"; "c"; "&"] session_with_job _ (Ok tt));
    [discriminate | reflexivity | reflexivity | reflexivity | reflexivity].
Defined.

(** ** [format_size] *)

Lemma tenths_near (size shift : N) :
  (2 * (10 * size) <= 2 * tenths size shift * 2 ^ shift + 2 ^ shift /\
   2 * tenths size shift * 2 ^ shift <= 2 * (10 * size) + 2 ^ shift)%N.
Proof.
  unfold tenths.
  assert (Hd : (2 ^ shift <> 0)%N) by (apply N.pow_nonzero; discriminate).
  pose proof (N.div_mod (10 * size) (2 ^ shift) Hd) as E.
  pose proof (N.mod_lt (10 * size) (2 ^ shift) Hd) as L.
  set (d := (2 ^ shift)%N) in *.
  set (q := (10 * size / d)%N) in *. set (r := ((10 * size) mod d)%N) in *.
  destruct (N.ltb_spec d (2 * r)).
  - nia.
  - destruct (N.eqb_spec (2 * r) d); cbn [andb]; [destruct (N.odd q)|]; nia.
Qed.

Lemma pow_1024 (k : N) : (2 ^ (10 * k) = 1024 ^ k)%N.
Proof. rewrite N.pow_mul_r. reflexivity. Qed.

Lemma format_size_loop_unit (units : list string) (size : N) : forall i : nat,
  (i = 0 /\ units <> []) \/ (1024 ^ N.of_nat i <= size)%N ->
  (size < 1024 ^ N.of_nat (i + length units))%N ->
  exists (j : nat) (unit : string),
    nth_error units j = Some unit /\
    format_size_loop units size (10 * N.of_nat i)
    = (one_decimal size (10 * N.of_nat (i + j)) ++ unit)%string /\
    (i + j = 0 \/ (1024 ^ N.of_nat (i + j) <= size)%N) /\
    (size < 1024 ^ (N.of_nat (i + j) + 1))%N.
Proof.
  induction units as [|u r IH]; intros i Hlo Hhi.
  - exfalso. cbn [length] in Hhi. rewrite Nat.add_0_r in Hhi.
    destruct Hlo as [[_ Hn] | Hlo]; [apply Hn; reflexivity | lia].
  - cbn [format_size_loop]. rewrite pow_1024.
    destruct (N.ltb_spec size (1024 * 1024 ^ N.of_nat i)) as [Hlt|Hge].
    + exists 0, u. rewrite Nat.add_0_r. split; [reflexivity|]. split; [reflexivity|].
      split.
      * destruct Hlo as [[-> _] | Hlo]; [left; reflexivity | right; exact Hlo].
      * rewrite N.add_1_r, N.pow_succ_r'. exact Hlt.
    + destruct (IH (S i)) as [j [unit [Hn [Hf [Hl Hh]]]]].
      * right. rewrite Nat2N.inj_succ, N.pow_succ_r'. exact Hge.
      * cbn [length] in Hhi. rewrite Nat.add_succ_r in Hhi. exact Hhi.
      * exists (S j), unit. rewrite Nat.add_succ_r. cbn [Nat.add] in *.
        split; [exact Hn|]. split; [|split; [right|]].
        -- replace (10 * N.of_nat i + 10)%N with (10 * N.of_nat (S i))%N by lia.
           exact Hf.
        -- destruct Hl as [Hl|Hl]; [lia | exact Hl].
        -- exact Hh.
Qed.

(** X24: for a size below 2^53 the text [format_size] returns is a number
    with one decimal and one of the units B, K, M, G, T, P, the k-th (never
    E); the size is below 1024^(k+1) and, unless k is 0, at least 1024^k;
    the number shown is the multiple of one tenth nearest to size / 1024^k:
    it differs from it by at most one twentieth. *)
Theorem format_size_shown (size : N) :
  (size < 2 ^ 53)%N ->
  exists (k : nat) (unit : string) (t : N),
    nth_error ["B"; "K"; "M"; "G"; "T"; "P"] k = Some unit /\
    format_size size = (str_N (t / 10) ++ "." ++ str_N (t mod 10) ++ unit)%string /\
    (k = 0 \/ (1024 ^ N.of_nat k <= size)%N) /\
    (size < 1024 ^ (N.of_nat k + 1))%N /\
    (2 * (10 * size) <= 2 * t * 1024 ^ N.of_nat k + 1024 ^ N.of_nat k)%N /\
    (2 * t * 1024 ^ N.of_nat k <= 2 * (10 * size) + 1024 ^ N.of_nat k)%N.
Proof.
  intros H.
  destruct (format_size_loop_unit ["B"; "K"; "M"; "G"; "T"; "P"] size 0)
    as [k [unit [Hn [Hf [Hl Hh]]]]].
  - left. split; [reflexivity | discriminate].
  - cbn [length Nat.add]. eapply N.lt_trans; [exact H | reflexivity].
  - cbn [Nat.add] in *. exists k, unit, (tenths size (10 * N.of_nat k)).
    split; [exact Hn|]. split.
    + unfold format_size. change (10 * N.of_nat 0)%N with 0%N in Hf. rewrite Hf.
      unfold one_decimal. rewrite !append_assoc. reflexivity.
    + split; [exact Hl|]. split; [exact Hh|].
      rewrite <- pow_1024. apply tenths_near.
Qed.

Lemma format_size_shown_witness :
  exists (k : nat) (unit : string) (t : N),
    nth_error ["B"; "K"; "M"; "G"; "T"; "P"] k = Some unit /\
    format_size 1048575 = (str_N (t / 10) ++ "." ++ str_N (t mod 10) ++ unit)%string /\
    (k = 0 \/ (1024 ^ N.of_nat k <= 1048575)%N) /\
    (1048575 < 1024 ^ (N.of_nat k + 1))%N /\
    (2 * (10 * 1048575) <= 2 * t * 1024 ^ N.of_nat k + 1024 ^ N.of_nat k)%N /\
    (2 * t * 1024 ^ N.of_nat k <= 2 * (10 * 1048575) + 1024 ^ N.of_nat k)%N.
Proof. apply (format_size_shown 1048575). reflexivity. Defined.

(** Rounding can show the threshold itself: one byte less than a megabyte
    is shown as 1024.0K. *)
Example format_size_rounds_up :
  format_size 1048575 = "1024.0K" /\ format_size 1048576 = "1.0M" /\
  format_size 0 = "0.0B" /\ format_size 1088 = "1.1K".
Proof. repeat split. Qed.

(** ** The arguments of [cp] *)

Lemma filter_is_nil {A} (f : A -> bool) (l : list A) :
  filter f l = [] <-> forall a, In a l -> f a = false.
Proof.
  induction l as [|x r IH]; simpl; [intuition|].
  destruct (f x) eqn:E; split.
  - discriminate.
  - intros H. specialize (H x (or_introl eq_refl)). congruence.
  - intros H a [<- | Ha]; [exact E | apply IH; assumption].
  - intros H. apply IH. intros a Ha. apply H. right. exact Ha.
Qed.

Lemma removelast_is_nil {A} (l : list A) :
  removelast l = [] -> l = [] \/ exists d, l = [d].
Proof.
  destruct l as [|a [|b r]]; simpl; intros H;
    [left; reflexivity | right; exists a; reflexivity | discriminate].
Qed.

(** X25: [cp] takes its destination from the last argument that is not
    an option before it looks whether there is any: without such an
    argument ([cp] alone, or options only) it raises [IndexError] instead of
    printing its usage line; the usage line is printed when there is exactly
    one; with more, the last one is the destination and the others are the
    sources, in order. *)
Theorem cp_arguments (args : list string) :
  (builtin_cp_plan args = Raise (IndexError "list index out of range")
   <-> forall a, In a args -> starts_with "-" a = true) /\
  (builtin_cp_plan args = Ok CpUsage <-> exists d, filter is_path args = [d]) /\
  (forall sources d, sources <> [] -> filter is_path args = sources ++ [d] ->
     builtin_cp_plan args = Ok (CpCopy (mem "-r" args) sources d)).
Proof.
  unfold builtin_cp_plan. split; [|split].
  - destruct (filter is_path args) as [|p l] eqn:E.
    + split; [intros _|reflexivity]. intros a Ha.
      apply (proj1 (filter_is_nil _ _) E) in Ha. unfold is_path in Ha.
      destruct (starts_with "-" a); [reflexivity | discriminate].
    + split.
      * destruct (removelast (p :: l)); discriminate.
      * intros H. exfalso.
        assert (Hin : In p (filter is_path args)) by (rewrite E; left; reflexivity).
        apply filter_In in Hin. destruct Hin as [Hin Hp].
        unfold is_path in Hp. rewrite (H p Hin) in Hp. discriminate.
  - destruct (filter is_path args) as [|p l] eqn:E.
    + split; [discriminate | intros [d Hd]; discriminate].
    + destruct (removelast (p :: l)) as [|x y] eqn:R.
      * split; [intros _|reflexivity].
        destruct (removelast_is_nil _ R) as [H | H]; [discriminate | exact H].
      * split; [discriminate|]. intros [d Hd]. rewrite Hd in R. discriminate.
  - intros sources d Hs E. rewrite E.
    destruct sources as [|x y]; [contradiction|].
    rewrite <- app_comm_cons. cbv iota beta zeta.
    rewrite app_comm_cons, removelast_last, last_last. reflexivity.
Qed.

Example cp_alone_raises :
  builtin_cp_plan [] = Raise (IndexError "list index out of range") /\
  builtin_cp_plan ["-r"] = Raise (IndexError "list index out of range") /\
  builtin_cp_plan ["a.txt"] = Ok CpUsage /\
  builtin_cp_plan ["a.txt"; "-r"; "d"; "e"] = Ok (CpCopy true ["a.txt"; "d"] "e").
Proof. repeat split. Qed.

(** ** [head] and [tail] *)

Lemma int_digits_no_digit (s : string) (acc : N) (digits : nat) :
  no_digit s = true -> int_digits s acc false digits = None.
Proof.
  destruct s as [|c r]; [reflexivity|]. cbn [no_digit int_digits]. intros H.
  apply andb_prop in H. destruct H as [Hc _]. apply negb_true_iff in Hc.
  rewrite Hc. destruct (Ascii.eqb c "_"); [reflexivity|].
  rewrite andb_false_r. reflexivity.
Qed.

Lemma skip_int_space_no_digit (s : string) :
  no_digit s = true -> no_digit (skip_int_space s) = true.
Proof.
  induction s as [|c r IH]; [reflexivity|]. cbn [skip_int_space]. intros H.
  destruct (int_space c); [|exact H].
  apply IH. cbn [no_digit] in H. apply andb_prop in H. apply H.
Qed.

(** [int] refuses a string without a digit. *)
Lemma py_int_no_digit (s : string) : no_digit s = true -> py_int s = None.
Proof.
  intros H. apply skip_int_space_no_digit in H. unfold py_int.
  destruct (skip_int_space s) as [|c r]; [reflexivity|].
  pose proof H as Hr. cbn [no_digit] in Hr. apply andb_prop in Hr.
  destruct Hr as [_ Hr].
  destruct (Ascii.eqb c "+"); [rewrite (int_digits_no_digit r _ _ Hr); reflexivity|].
  destruct (Ascii.eqb c "-"); [rewrite (int_digits_no_digit r _ _ Hr); reflexivity|].
  rewrite (int_digits_no_digit _ _ _ H). reflexivity.
Qed.

(** X26: when the first argument of [head] or [tail] is ASCII text that
    starts with [-n] and holds no digit after these two characters, the
    command prints that the number of lines is invalid, whatever arguments
    follow, and opens no file. So the count has to be attached: [-n] alone
    as the first argument, as in [head -n 5 notes.txt], is refused, and so
    is [-name]. *)
Theorem line_count_must_be_attached (read : string -> result string)
  (a0 : string) (rest : list string) :
  ascii_only a0 = true ->
  String.prefix "-n" a0 = true ->
  no_digit (from2 a0) = true ->
  builtin_head read (a0 :: rest) = ("head: invalid number of lines" ++ newline, None)%string /\
  builtin_tail read (a0 :: rest) = ("tail: invalid number of lines" ++ newline, None)%string.
Proof.
  intros _ Hp Hd. unfold builtin_head, builtin_tail.
  rewrite Hp, (py_int_no_digit _ Hd). split; reflexivity.
Qed.

Lemma line_count_must_be_attached_witness :
  builtin_head one_file ["-n"; "5"; "notes.txt"]
  = ("head: invalid number of lines" ++ newline, None)%string /\
  builtin_tail one_file ["-n"; "5"; "notes.txt"]
  = ("tail: invalid number of lines" ++ newline, None)%string.
Proof.
  apply (line_count_must_be_attached one_file "-n" ["5"; "notes.txt"]);
    reflexivity.
Defined.

(** A literal of 4300 digits is converted, one of 4301 is refused. *)
Example int_digit_limit :
  match py_int (ones 4300) with Some _ => true | None => false end = true /\
  py_int (ones 4301) = None.
Proof. split; vm_compute; reflexivity. Qed.

(** The strings [int] accepts hold ASCII characters only. *)
Lemma all_int_space_ascii (s : string) :
  all_int_space s = true -> ascii_only s = true.
Proof.
  unfold ascii_only. induction s as [|c r IH]; [reflexivity|].
  cbn [all_int_space list_ascii_of_string forallb]. intros H.
  apply andb_prop in H. destruct H as [Hc Hr]. rewrite (IH Hr), andb_true_r.
  unfold int_space in Hc. apply Nat.ltb_lt.
  apply orb_prop in Hc. destruct Hc as [Hc|Hc].
  - apply andb_prop in Hc. destruct Hc as [_ Hc]. apply Nat.leb_le in Hc. lia.
  - apply Nat.eqb_eq in Hc. lia.
Qed.

Lemma int_digits_ascii (s : string) : forall acc after_digit digits n,
  int_digits s acc after_digit digits = Some n -> ascii_only s = true.
Proof.
  unfold ascii_only. induction s as [|c r IH]; intros acc a d n H; [reflexivity|].
  cbn [int_digits] in H. cbn [list_ascii_of_string forallb].
  destruct (PyStr.is_digit_char c) eqn:Ed.
  - rewrite (IH _ _ _ _ H), andb_true_r.
    unfold PyStr.is_digit_char in Ed. apply andb_prop in Ed. destruct Ed as [_ Ed].
    apply Nat.leb_le in Ed. apply Nat.ltb_lt. lia.
  - destruct (Ascii.eqb c "_") eqn:Eu.
    + apply Ascii.eqb_eq in Eu. subst c. destruct a; [|discriminate].
      rewrite (IH _ _ _ _ H). reflexivity.
    + destruct (int_space c) eqn:Es; [|discriminate].
      destruct a; [|discriminate]. cbn [andb] in H.
      destruct (all_int_space r) eqn:Er; [|discriminate].
      pose proof (all_int_space_ascii (String c r)) as Ha.
      cbn [all_int_space] in Ha. rewrite Es, Er in Ha.
      exact (Ha eq_refl).
Qed.

Lemma skip_int_space_ascii (s : string) :
  ascii_only (skip_int_space s) = true -> ascii_only s = true.
Proof.
  induction s as [|c r IH]; [reflexivity|]. cbn [skip_int_space].
  destruct (int_space c) eqn:Es; [|auto]. intros H.
  pose proof (all_int_space_ascii (String c EmptyString)) as Hc.
  cbn [all_int_space] in Hc. rewrite Es in Hc. specialize (Hc eq_refl).
  unfold ascii_only in *. cbn [list_ascii_of_string forallb] in *.
  rewrite andb_true_r in Hc. rewrite Hc, (IH H). reflexivity.
Qed.

Lemma ascii_only_cons (c : ascii) (r : string) :
  ascii_only (String c r) = Nat.ltb (nat_of_ascii c) 128 && ascii_only r.
Proof. reflexivity. Qed.

Lemma py_int_ascii (s : string) (n : Z) : py_int s = Some n -> ascii_only s = true.
Proof.
  unfold py_int. intros H. apply skip_int_space_ascii.
  destruct (skip_int_space s) as [|c r]; [discriminate|].
  destruct (Ascii.eqb c "+") eqn:Ep.
  - apply Ascii.eqb_eq in Ep. subst c.
    destruct (int_digits r 0 false 0) as [k|] eqn:E; [|discriminate].
    rewrite ascii_only_cons, (int_digits_ascii _ _ _ _ _ E). reflexivity.
  - destruct (Ascii.eqb c "-") eqn:Em.
    + apply Ascii.eqb_eq in Em. subst c.
      destruct (int_digits r 0 false 0) as [k|] eqn:E; [|discriminate].
      rewrite ascii_only_cons, (int_digits_ascii _ _ _ _ _ E). reflexivity.
    + destruct (int_digits (String c r) 0 false 0) as [k|] eqn:E; [|discriminate].
      exact (int_digits_ascii _ _ _ _ _ E).
Qed.

(** X27: [tail -nN file], N an integer literal of ASCII characters and
    of at most 4300 digits as [int] accepts it, for a file that opens
    writes lines of the file from some line on to the end and nothing else:
    the last N of them (all when there are fewer) when N is positive, all
    of them when N is 0, and all but the first -N when N is negative. *)
Theorem tail_shows (read : string -> result string) (a0 file_path content : string)
  (n : Z) :
  String.prefix "-n" a0 = true ->
  py_int (from2 a0) = Some n ->
  read file_path = Ok content ->
  ascii_only (from2 a0) = true /\
  exists before shown,
    file_lines content = before ++ shown /\
    builtin_tail read [a0; file_path] = (text_of shown, None) /\
    ((0 < n)%Z -> length shown = Nat.min (Z.to_nat n) (length (file_lines content))) /\
    (n = 0%Z -> before = []) /\
    ((n < 0)%Z ->
       length before = Nat.min (Z.to_nat (- n)) (length (file_lines content))).
Proof.
  intros Hp Hi Hr. split; [exact (py_int_ascii _ _ Hi)|].
  unfold builtin_tail. rewrite Hp, Hi. cbn [tail_loop]. rewrite Hr.
  rewrite append_empty_r. unfold slice_from.
  set (lines := file_lines content).
  destruct (Z.ltb_spec (- n) 0) as [Hn|Hn].
  - exists (firstn (length lines - Z.to_nat (- - n)) lines),
           (skipn (length lines - Z.to_nat (- - n)) lines).
    split; [symmetry; apply firstn_skipn|]. split; [reflexivity|].
    split; [|split; intros; lia].
    intros _. rewrite length_skipn, Z.opp_involutive. lia.
  - exists (firstn (Z.to_nat (- n)) lines), (skipn (Z.to_nat (- n)) lines).
    split; [symmetry; apply firstn_skipn|]. split; [reflexivity|].
    split; [intros; lia|]. split.
    + intros ->. reflexivity.
    + intros _. rewrite length_firstn. reflexivity.
Qed.

Lemma tail_shows_witness :
  ascii_only (from2 "-n2") = true /\
  exists before shown,
    file_lines three_lines = before ++ shown /\
    builtin_tail one_file ["-n2"; "notes.txt"] = (text_of shown, None) /\
    ((0 < 2)%Z ->
       length shown
       = Nat.min (Z.to_nat 2) (length (file_lines three_lines))) /\
    (2%Z = 0%Z -> before = []) /\
    ((2 < 0)%Z ->
       length before
       = Nat.min (Z.to_nat (- (2))) (length (file_lines three_lines))).
Proof.
  apply (tail_shows one_file "-n2" "notes.txt" three_lines 2); reflexivity.
Defined.

(** X28: [head -nN file], N an integer literal of ASCII characters and
    of at most 4300 digits as [int] accepts it, for a file that opens
    writes the first N lines of the file (all when there are fewer, none
    when N is 0 or negative) and nothing else. *)
Theorem head_shows (read : string -> result string) (a0 file_path content : string)
  (n : Z) :
  String.prefix "-n" a0 = true ->
  py_int (from2 a0) = Some n ->
  read file_path = Ok content ->
  ascii_only (from2 a0) = true /\
  exists shown rest,
    file_lines content = shown ++ rest /\
    builtin_head read [a0; file_path] = (text_of shown, None) /\
    length shown = Nat.min (Z.to_nat n) (length (file_lines content)).
Proof.
  intros Hp Hi Hr. split; [exact (py_int_ascii _ _ Hi)|].
  unfold builtin_head. rewrite Hp, Hi. cbn [head_loop]. rewrite Hr.
  rewrite append_empty_r.
  exists (firstn (Z.to_nat n) (file_lines content)),
         (skipn (Z.to_nat n) (file_lines content)).
  split; [symmetry; apply firstn_skipn|]. split; [reflexivity|].
  apply length_firstn.
Qed.

Lemma head_shows_witness :
  ascii_only (from2 "-n2") = true /\
  exists shown rest,
    file_lines three_lines = shown ++ rest /\
    builtin_head one_file ["-n2"; "notes.txt"] = (text_of shown, None) /\
    length shown
    = Nat.min (Z.to_nat 2) (length (file_lines three_lines)).
Proof.
  apply (head_shows one_file "-n2" "notes.txt" three_lines 2); reflexivity.
Defined.

(** [tail -n0] writes the whole file, [head -n0] nothing; a negative count
    makes [tail] skip lines at the front. *)
Example tail_zero_writes_all :
  let read := one_file in
  builtin_tail read ["-n0"; "f"] = ("a" ++ newline ++ "b" ++ newline ++ "c", None)%string /\
  builtin_tail read ["-n1"; "f"] = ("c", None) /\
  builtin_tail read ["-n-1"; "f"] = ("b" ++ newline ++ "c", None)%string /\
  builtin_head read ["-n0"; "f"] = (EmptyString, None) /\
  builtin_head read ["-n1"; "f"] = ("a" ++ newline, None)%string.
Proof. repeat split. Qed.
